(** * LatentSync: the training-sample dataset [UNetDataset]

    A shallow embedding of [latentsync/data/unet_dataset.py] and the
    properties of its window sampler, audio aligner, spectrogram cache,
    index builder and retry loop.

    Layout: Part I holds the model (Python primitives, the collaborators the
    dataset calls, the dataset's methods); Part II holds the theorems. *)

From Stdlib Require Import ZArith List Lia Bool String Ascii.
From Stdlib Require Import Floats.SpecFloat.
From stdpp Require Import gmap list.

Local Open Scope Z_scope.

(* ===================================================================== *)
(** * Part I. The model                                                   *)
(* ===================================================================== *)

(** ** Python values *)

(** A Python [str] is a sequence of Unicode code points. *)
Abbreviation pystr := (list N).

(** [py "abc"] is the [str] literal of an ASCII text. *)
Fixpoint py (s : string) : pystr :=
  match s with
  | EmptyString => []
  | String a s' => N_of_ascii a :: py s'
  end.
Arguments py : simpl never.

(** The exceptions the dataset or its collaborators raise; all of them are
    subclasses of Python's [Exception].  [LibraryError k] stands for the
    k-th kind of error of an external library (decoder, image processor,
    serializer). *)
Inductive exn : Type :=
| ValueError
| NotImplementedError
| UnboundLocalError
| AttributeError
| ZeroDivisionError
| OverflowError
| OSError
| IndexError
| LibraryError (kind : N).

(** A call that either returns or raises, with no state of its own. *)
Notation "'raises' A" := (exn + A)%type (at level 50, only parsing).

(** ** A state-and-exception monad with fuel

    [Ret a s]: the statement returned [a] in state [s]; [Raise e s]: it
    raised [e] in state [s]; [Stall]: an unbounded loop was still running
    when the fuel given to it ran out. *)
Inductive outcome (S A : Type) : Type :=
| Ret (a : A) (s : S)
| Raise (e : exn) (s : S)
| Stall.
Arguments Ret {S A} a s.
Arguments Raise {S A} e s.
Arguments Stall {S A}.

Definition M (S A : Type) : Type := S -> outcome S A.

Definition ret {S A} (a : A) : M S A := fun s => Ret a s.
Definition throw {S A} (e : exn) : M S A := fun s => Raise e s.
Definition stall {S A} : M S A := fun _ => Stall.

Definition bind {S A B} (m : M S A) (k : A -> M S B) : M S B :=
  fun s =>
    match m s with
    | Ret a s' => k a s'
    | Raise e s' => Raise e s'
    | Stall => Stall
    end.

Declare Scope py_scope.
Delimit Scope py_scope with py.
Notation "x <- m ;; k" := (bind m (fun x => k))
  (at level 100, m at next level, right associativity) : py_scope.
Notation "m ;;; k" := (bind m (fun _ => k))
  (at level 100, right associativity) : py_scope.
Local Open Scope py_scope.

(** A pure fallible call lifted into the monad. *)
Definition call {S A} (r : raises A) : M S A :=
  match r with
  | inr a => ret a
  | inl e => throw e
  end.

(** Read and update the state. *)
Definition gets {S A} (f : S -> A) : M S A := fun s => Ret (f s) s.
Definition modify {S} (f : S -> S) : M S unit := fun s => Ret tt (f s).

(** Run a statement on a component [W] of a larger state [S]. *)
Definition zoom {S W A} (get : S -> W) (set : W -> S -> S) (m : M W A) : M S A :=
  fun s =>
    match m (get s) with
    | Ret a w => Ret a (set w s)
    | Raise e w => Raise e (set w s)
    | Stall => Stall
    end.

(** ** Python [str] methods *)

(** [str.isspace] on one code point: the characters Python treats as
    whitespace. *)
Definition isspace (c : N) : bool :=
  ((9 <=? c) && (c <=? 13) || (28 <=? c) && (c <=? 32) || (c =? 133)
   || (c =? 160) || (c =? 5760) || (8192 <=? c) && (c <=? 8202)
   || (c =? 8232) || (c =? 8233) || (c =? 8239) || (c =? 8287)
   || (c =? 12288))%N.

(** [s.rstrip()]: drop the trailing whitespace. *)
Fixpoint rstrip (s : pystr) : pystr :=
  match s with
  | [] => []
  | c :: s' =>
      match rstrip s' with
      | [] => if isspace c then [] else [c]
      | r => c :: r
      end
  end.

(** [s.startswith(p)] *)
Fixpoint startswith (p s : pystr) : bool :=
  match p, s with
  | [], _ => true
  | _ :: _, [] => false
  | a :: p', b :: s' => (a =? b)%N && startswith p' s'
  end.

(** [s.endswith(p)] *)
Definition endswith (p s : pystr) : bool := startswith (rev p) (rev s).

(** [s.replace(old, new)] for a non-empty [old]: every occurrence of [old],
    found from the left and not overlapping the previous one, becomes [new].
    [skip] counts the characters of a matched occurrence still to pass. *)
Fixpoint replace_from (old new : pystr) (skip : nat) (s : pystr) : pystr :=
  match s with
  | [] => []
  | c :: s' =>
      match skip with
      | S k => replace_from old new k s'
      | O =>
          if startswith old s
          then new ++ replace_from old new (length old - 1) s'
          else c :: replace_from old new 0 s'
      end
  end.

Definition replace (old new s : pystr) : pystr := replace_from old new 0 s.

(** The text file object iterated line by line: each line keeps its
    terminating newline (code point 10); a last line without one is yielded
    as it is.  The text is the decoded text as Python presents it (after
    newline translation). *)
Fixpoint readlines_from (cur : pystr) (s : pystr) : list pystr :=
  match s with
  | [] => match cur with [] => [] | _ => [rev cur] end
  | c :: s' =>
      if (c =? 10)%N then rev (c :: cur) :: readlines_from [] s'
      else readlines_from (c :: cur) s'
  end.

Definition readlines (s : pystr) : list pystr := readlines_from [] s.

(** ** [os.path] (POSIX) *)

Definition slash : N := 47%N.

(** [os.path.basename(p)]: what follows the last slash. *)
Fixpoint basename (p : pystr) : pystr :=
  match p with
  | [] => []
  | c :: p' =>
      if existsb (N.eqb slash) p' then basename p'
      else if (c =? slash)%N then p' else p
  end.

(** [os.path.join(a, b)] *)
Definition path_join (a b : pystr) : pystr :=
  if startswith [slash] b then b
  else if (match a with [] => true | _ => false end) || endswith [slash] a
       then a ++ b
       else a ++ slash :: b.

(** ** Python integers, ranges and slices *)

(** [np.arange(a, b, dtype=int)] *)
Definition arange (a b : Z) : list Z := seqZ a (b - a).

(** [xs[a:b]] for Python ints [a] and [b]: negative bounds count from the
    end, and both are clamped to the sequence. *)
Definition slice_bound (len i : Z) : Z :=
  if i <? 0 then Z.max 0 (i + len) else Z.min i len.

Definition slice {A} (xs : list A) (a b : Z) : list A :=
  let len := Z.of_nat (length xs) in
  let a' := slice_bound len a in
  let b' := slice_bound len b in
  firstn (Z.to_nat (b' - a')) (skipn (Z.to_nat a') xs).

(** ** The process state the dataset reads and writes *)

(** A file of the spectrogram cache: a serialized spectrogram that
    [torch.load] reads back, or content that [torch.load] rejects (a partial
    write, another format). *)
Inductive blob (Spectrogram : Type) : Type :=
| Pickled (m : Spectrogram)
| Unreadable.
Arguments Pickled {Spectrogram} m.
Arguments Unreadable {Spectrogram}.

(** A line printed by the retry loop: exception and path. *)
Definition log_line : Type := exn * pystr.

(** [rng]: the state of Python's global [random] generator, as the sequence
    of raw draws still to come; [cache]: the files under the cache
    directory, by path; [stdout]: what was printed, oldest first. *)
Record world (Spectrogram : Type) : Type := World {
  rng : nat -> Z;
  cache : gmap pystr (blob Spectrogram);
  stdout : list log_line
}.
Arguments World {Spectrogram} rng cache stdout.
Arguments rng {Spectrogram} w.
Arguments cache {Spectrogram} w.
Arguments stdout {Spectrogram} w.

Definition set_rng {X} (r : nat -> Z) (w : world X) : world X :=
  World r (cache w) (stdout w).
Definition set_cache {X} (c : gmap pystr (blob X)) (w : world X) : world X :=
  World (rng w) c (stdout w).
Definition set_stdout {X} (o : list log_line) (w : world X) : world X :=
  World (rng w) (cache w) o.

(** [random.randint(a, b)]: [ValueError] on an empty range (before anything
    is drawn), otherwise the next raw draw reduced to [a..b]. *)
Definition draw_of (a b raw : Z) : Z := a + raw mod (b - a + 1).

Definition randint {X} (a b : Z) : M (world X) Z :=
  fun w =>
    if b <? a then Raise ValueError w
    else Ret (draw_of a b (rng w 0%nat))
             (set_rng (fun n => rng w (S n)) w).

(** [print(...)] of the retry loop's message. *)
Definition print {X} (l : log_line) : M (world X) unit :=
  modify (fun w => set_stdout (stdout w ++ [l]) w).

(** The spectrogram cache on disk. *)
Definition os_path_isfile {X} (p : pystr) : M (world X) bool :=
  gets (fun w => bool_decide (is_Some (cache w !! p))).

(** [torch.load(p)]: any failure to read is a [LibraryError]. *)
Definition torch_load {X} (p : pystr) : M (world X) X :=
  fun w =>
    match cache w !! p with
    | Some (Pickled m) => Ret m w
    | Some Unreadable => Raise (LibraryError 0) w
    | None => Raise OSError w
    end.

Definition os_remove {X} (p : pystr) : M (world X) unit :=
  fun w =>
    match cache w !! p with
    | Some _ => Ret tt (set_cache (delete p (cache w)) w)
    | None => Raise OSError w
    end.

Definition torch_save {X} (m : X) (p : pystr) : M (world X) unit :=
  modify (fun w => set_cache (<[p := Pickled m]> (cache w)) w).

(** ** The collaborators

    What the dataset imports and calls but does not define: the decoder
    ([decord]), the image processor and the fixed mask, the spectrogram
    extractor, and the files it reads at construction.  Each call either
    returns or raises; its result depends on its arguments only (the video
    files do not change while the dataset runs).

    A spectrogram is kept as the sequence of its time columns (its last
    axis), each column holding the mel bins of one time step. *)
Class Collaborators : Type := {
  Frame : Type;            (* one decoded video frame *)
  Image : Type;            (* one processed frame *)
  Mask : Type;             (* the mask tensor of a clip *)
  MaskImage : Type;        (* the fixed mask image *)
  ImageProcessor : Type;
  VideoReader : Type;
  Waveform : Type;
  MelColumn : Type;
  (* open(path) and the text it holds *)
  open_text : pystr -> raises pystr;
  os_listdir : pystr -> raises (list pystr);
  os_makedirs : pystr -> raises unit;
  load_fixed_mask : Z -> raises MaskImage;
  (* ImageProcessor(resolution, mask, mask_image=...) *)
  new_ImageProcessor : Z -> pystr -> MaskImage -> raises ImageProcessor;
  prepare_masks_and_masked_images :
    ImageProcessor -> list Frame -> bool ->
    raises (list Image * list Image * Mask);
  process_images : ImageProcessor -> list Frame -> raises (list Image);
  (* VideoReader(path, ctx=cpu(worker_id)) *)
  new_VideoReader : pystr -> Z -> raises VideoReader;
  vr_len : VideoReader -> Z;
  vr_get_batch : VideoReader -> list Z -> raises (list Frame);
  vr_seek : VideoReader -> Z -> raises unit;
  (* AudioReader(path, ctx=cpu(worker_id), sample_rate=...)[:] *)
  new_AudioReader : pystr -> Z -> Z -> raises Waveform;
  melspectrogram : Waveform -> raises (list MelColumn)
}.

(** Modelled from the spec: the decoder ([decord]) and the image processor
    ([latentsync/utils/image_processor.py]) are not among the sources; the
    specification has them return a frame batch for an index list and
    processed batches for a frame batch (section 6), with frame counts kept
    (section 8): one frame per requested index, one image per frame. *)
Class FramePreserving (C : Collaborators) : Prop := {
  get_batch_length : forall v idxs fr,
    vr_get_batch v idxs = inr fr -> length fr = length idxs;
  prepare_length : forall ip fr aff g mg m,
    prepare_masks_and_masked_images ip fr aff = inr (g, mg, m) ->
    length g = length fr;
  process_length : forall ip fr g,
    process_images ip fr = inr g -> length g = length fr
}.

(** ** Python floats (IEEE 754 binary64) *)

Definition float_mul : spec_float -> spec_float -> spec_float := SFmul 53 1024.

(** [float(z)] for a Python int: the nearest double, [OverflowError] when
    there is none. *)
Definition float_of_int (z : Z) : raises spec_float :=
  match binary_normalize 53 1024 z 0 false with
  | S754_infinity _ => inl OverflowError
  | f => inr f
  end.

(** [x / y] on floats *)
Definition float_truediv (x y : spec_float) : raises spec_float :=
  match y with
  | S754_zero _ => inl ZeroDivisionError
  | _ => inr (SFdiv 53 1024 x y)
  end.

(** [int(x)]: truncation towards zero. *)
Definition int_of_float (x : spec_float) : raises Z :=
  match x with
  | S754_zero _ => inr 0
  | S754_finite s m e =>
      let a := if e <? 0 then Z.shiftr (Zpos m) (- e) else Z.shiftl (Zpos m) e in
      inr (if s then - a else a)
  | S754_infinity _ => inl OverflowError
  | S754_nan => inl ValueError
  end.

(** The literal [80.0] *)
Definition float_80 : spec_float := binary_normalize 53 1024 80 0 false.

(** Sequencing of calls that return or raise. *)
Definition and_then {A B} (r : raises A) (k : A -> raises B) : raises B :=
  match r with
  | inr a => k a
  | inl e => inl e
  end.

(** [xs[i]] on a Python list. *)
Definition getitem_list {A} (xs : list A) (i : Z) : raises A :=
  let len := Z.of_nat (length xs) in
  let j := if i <? 0 then i + len else i in
  if (j <? 0) || (len <=? j) then inl IndexError
  else match xs !! Z.to_nat j with
       | Some x => inr x
       | None => inl IndexError
       end.

(** ** Configuration *)

Module config.
Record data_t : Type := Data {
  train_fileslist : pystr;
  resolution : Z;
  num_frames : Z;
  audio_sample_rate : Z;
  video_fps : Z;
  mask : pystr;
  audio_mel_cache_dir : pystr
}.
Record model_t : Type := Model { add_audio_layer : bool }.
Record run_t : Type := Run { use_syncnet : bool }.
Record t : Type := Config { data : data_t; model : model_t; run : run_t }.
End config.

(** ** The returned sample *)

Module Sample.
(** The [mel] entry: the empty Python list when audio is off, otherwise
    the cropped window under its leading axis. *)
Inductive mel_t {C : Collaborators} : Type :=
| EmptyList
| Tensor (t : list (list MelColumn)).

Record t {C : Collaborators} : Type := Dict {
  gt : list Image;
  masked_gt : list Image;
  ref : list Image;
  mel : mel_t;
  mask : Mask;
  video_path : pystr;
  start_idx : Z
}.
End Sample.

(** A spectrogram: its time columns; the process state over them. *)
Abbreviation Spectrogram := (list MelColumn).
Abbreviation process := (world (list MelColumn)).

Section Dataset.
Context {C : Collaborators}.

(** ** The dataset object: the attributes [__init__] sets.  The
    attributes [image_processor_<k>] are the map [image_processors]. *)
Record UNetDataset : Type := Self {
  video_paths : list pystr;
  resolution : Z;
  num_frames : Z;
  mel_window_length : Z;
  audio_sample_rate : Z;
  video_fps : Z;
  mask : pystr;
  mask_image : MaskImage;
  load_audio_data : bool;
  audio_mel_cache_dir : pystr;
  worker_id : Z;
  image_processors : gmap Z ImageProcessor
}.

Definition nonempty (s : pystr) : bool :=
  match s with [] => false | _ => true end.

(** The directory scan of [__init__]: the loop over [os.listdir]. *)
Definition scan_dir (train_data_dir : pystr) (files : list pystr) : list pystr :=
  fold_left
    (fun video_paths file =>
       if endswith (py ".mp4") file
       then video_paths ++ [path_join train_data_dir file]
       else video_paths)
    files [].

(** The index of [__init__]: the manifest when it is named, otherwise the
    directory scan, otherwise [ValueError]. *)
Definition resolve_paths (train_data_dir : pystr) (cfg : config.t)
  : raises (list pystr) :=
  let d := config.data cfg in
  if nonempty (config.train_fileslist d) then
    and_then (open_text (config.train_fileslist d)) (fun file =>
    inr (map rstrip (readlines file)))
  else if nonempty train_data_dir then
    and_then (os_listdir train_data_dir) (fun files =>
    inr (scan_dir train_data_dir files))
  else inl ValueError.

Definition __init__ (train_data_dir : pystr) (cfg : config.t)
  : raises UNetDataset :=
  let d := config.data cfg in
  and_then (resolve_paths train_data_dir cfg) (fun video_paths =>
  let resolution := config.resolution d in
  let num_frames := config.num_frames d in
  and_then
    (if num_frames =? 16 then inr 52
     else if num_frames =? 5 then inr 16
     else inl NotImplementedError)
    (fun mel_window_length =>
  and_then (load_fixed_mask resolution) (fun mask_image =>
  let load_audio_data :=
    config.add_audio_layer (config.model cfg)
    && config.use_syncnet (config.run cfg) in
  and_then (os_makedirs (config.audio_mel_cache_dir d)) (fun _ =>
  and_then (new_ImageProcessor resolution (config.mask d) mask_image) (fun ip =>
  inr {| video_paths := video_paths;
         resolution := resolution;
         num_frames := num_frames;
         mel_window_length := mel_window_length;
         audio_sample_rate := config.audio_sample_rate d;
         video_fps := config.video_fps d;
         mask := config.mask d;
         mask_image := mask_image;
         load_audio_data := load_audio_data;
         audio_mel_cache_dir := config.audio_mel_cache_dir d;
         worker_id := 0;
         image_processors := {[ 0 := ip ]} |}))))).

Definition __len__ (self : UNetDataset) : Z :=
  Z.of_nat (length (video_paths self)).

Definition read_audio (self : UNetDataset) (video_path : pystr)
  : raises Spectrogram :=
  and_then
    (new_AudioReader video_path (worker_id self) (audio_sample_rate self))
    (fun ar => melspectrogram ar).

(** The column at which the audio window starts:
    [int(80.0 * (start_index / float(self.video_fps)))], in double
    precision; [video_fps] is an integer of the configuration. *)
Definition crop_start (self : UNetDataset) (start_index : Z) : raises Z :=
  and_then (float_of_int (video_fps self)) (fun fps =>
  and_then (float_of_int start_index) (fun s =>
  and_then (float_truediv s fps) (fun q =>
  int_of_float (float_mul float_80 q)))).

Definition crop_audio_window (self : UNetDataset)
    (original_mel : Spectrogram) (start_index : Z)
  : raises (list Spectrogram) :=
  and_then (crop_start self start_index) (fun start_idx =>
  let end_idx := start_idx + mel_window_length self in
  inr [slice original_mel start_idx end_idx]).

(** [t.shape[-1]] of a window under its leading axis. *)
Definition shape_last (t : list Spectrogram) : Z :=
  match t with
  | w :: _ => Z.of_nat (length w)
  | [] => 0
  end.

(** The test of the rejection loop of [get_frames]:
    [wrong_start_idx > start_idx - self.num_frames and
     wrong_start_idx < start_idx + self.num_frames]. *)
Definition too_close (self : UNetDataset) (start_idx wrong_start_idx : Z)
  : bool :=
  (start_idx - num_frames self <? wrong_start_idx)
  && (wrong_start_idx <? start_idx + num_frames self).

(** The rejection loop of [get_frames]. *)
Fixpoint wrong_window (fuel : nat) (self : UNetDataset)
    (total_num_frames start_idx : Z) : M process (list Z) :=
  match fuel with
  | O => stall
  | S fuel' =>
      wrong_start_idx <- randint 0 (total_num_frames - num_frames self) ;;
      if too_close self start_idx wrong_start_idx
      then wrong_window fuel' self total_num_frames start_idx
      else ret (arange wrong_start_idx (wrong_start_idx + num_frames self))
  end.

(** The index part of [get_frames]: both windows and the positive start. *)
Definition sample_windows (fuel : nat) (self : UNetDataset)
    (total_num_frames : Z) : M process (list Z * list Z * Z) :=
  start_idx <- randint (num_frames self / 2)
    (total_num_frames - num_frames self - num_frames self / 2) ;;
  let frames_index := arange start_idx (start_idx + num_frames self) in
  wrong_frames_index <- wrong_window fuel self total_num_frames start_idx ;;
  ret (frames_index, wrong_frames_index, start_idx).

Definition get_frames (fuel : nat) (self : UNetDataset)
    (video_reader : VideoReader) : M process (list Frame * list Frame * Z) :=
  let total_num_frames := vr_len video_reader in
  w <- sample_windows fuel self total_num_frames ;;
  let '(frames_index, wrong_frames_index, start_idx) := w in
  frames <- call (vr_get_batch video_reader frames_index) ;;
  wrong_frames <- call (vr_get_batch video_reader wrong_frames_index) ;;
  ret (frames, wrong_frames, start_idx).

(** [worker_init_fn]: the first assignment stands even when the
    constructor of the image processor raises. *)
Definition worker_init_fn (self : UNetDataset) (worker_id' : Z)
  : UNetDataset * (raises unit) :=
  let self1 :=
    {| video_paths := video_paths self; resolution := resolution self;
       num_frames := num_frames self;
       mel_window_length := mel_window_length self;
       audio_sample_rate := audio_sample_rate self;
       video_fps := video_fps self; mask := mask self;
       mask_image := mask_image self;
       load_audio_data := load_audio_data self;
       audio_mel_cache_dir := audio_mel_cache_dir self;
       worker_id := worker_id';
       image_processors := image_processors self |} in
  match new_ImageProcessor (resolution self) (mask self) (mask_image self) with
  | inl e => (self1, inl e)
  | inr ip =>
      ({| video_paths := video_paths self; resolution := resolution self;
          num_frames := num_frames self;
          mel_window_length := mel_window_length self;
          audio_sample_rate := audio_sample_rate self;
          video_fps := video_fps self; mask := mask self;
          mask_image := mask_image self;
          load_audio_data := load_audio_data self;
          audio_mel_cache_dir := audio_mel_cache_dir self;
          worker_id := worker_id';
          image_processors := <[ worker_id' := ip ]> (image_processors self) |},
       inr tt)
  end.

(** ** [__getitem__] *)

(** [try: m except Exception as e: h e] *)
Definition try_except {S A} (m : M S A) (h : exn -> M S A) : M S A :=
  fun s =>
    match m s with
    | Raise e s' => h e s'
    | r => r
    end.

(** The cache path of a video:
    [os.path.join(self.audio_mel_cache_dir,
                  os.path.basename(video_path).replace(".mp4", "_mel.pt"))] *)
Definition mel_cache_path (self : UNetDataset) (video_path : pystr) : pystr :=
  path_join (audio_mel_cache_dir self)
    (replace (py ".mp4") (py "_mel.pt") (basename video_path)).

(** The full-length spectrogram of a video, through the cache: the
    [if os.path.isfile(mel_cache_path): ... else: ...] statement. *)
Definition original_mel_of (self : UNetDataset) (video_path : pystr)
  : M process Spectrogram :=
  let mel_cache_path := mel_cache_path self video_path in
  isfile <- os_path_isfile mel_cache_path ;;
  if isfile then
    try_except (torch_load mel_cache_path) (fun e =>
      print (e, mel_cache_path) ;;;
      os_remove mel_cache_path ;;;
      original_mel <- call (read_audio self video_path) ;;
      torch_save original_mel mel_cache_path ;;;
      ret original_mel)
  else
    original_mel <- call (read_audio self video_path) ;;
    torch_save original_mel mel_cache_path ;;;
    ret original_mel.

(** The local variables of a call of [__getitem__] that outlive one
    iteration of its loop, unbound ([None]) until first assigned. *)
Record locals : Type := Locals {
  l_idx : Z;
  l_video_path : option pystr;
  l_vr : option VideoReader
}.

(** The state of a running call: its locals and the process state. *)
Record activation : Type := Activation {
  vars : locals;
  glob : process
}.

Definition global {A} (m : M process A) : M activation A :=
  zoom glob (fun w a => Activation (vars a) w) m.

Definition assign (f : locals -> locals) : M activation unit :=
  modify (fun a => Activation (f (vars a)) (glob a)).

(** The audio branch of the [try] body: the window of the spectrogram at
    the positive start when audio is loaded ([None] when the window has not
    the expected length, upon which the body executes [continue]), the
    empty list otherwise. *)
Definition audio_window (self : UNetDataset) (video_path : pystr)
    (start_idx : Z) : M process (option Sample.mel_t) :=
  if load_audio_data self then
    original_mel <- original_mel_of self video_path ;;
    mel <- call (crop_audio_window self original_mel start_idx) ;;
    if negb (shape_last mel =? mel_window_length self) then ret None
    else ret (Some (Sample.Tensor mel))
  else ret (Some Sample.EmptyList).

(** The reference images of the [try] body, by mask mode. *)
Definition reference_images (self : UNetDataset)
    (image_processor : ImageProcessor) (ref_frames : list Frame)
  : raises (list Image) :=
  if bool_decide (mask self = py "fix_mask") then
    and_then (prepare_masks_and_masked_images image_processor ref_frames false)
      (fun neg => inr (fst (fst neg)))
  else process_images image_processor ref_frames.

(** The body of the [try] statement.  [Some sample]: the body reached
    [break] with the variables the sample is built from; [None]: it
    executed [continue]. *)
Definition try_body (fuel : nat) (self : UNetDataset)
    (image_processor : ImageProcessor) : M activation (option Sample.t) :=
  idx <- global (randint 0 (__len__ self - 1)) ;;
  assign (fun l => Locals idx (l_video_path l) (l_vr l)) ;;;
  video_path <- call (getitem_list (video_paths self) idx) ;;
  assign (fun l => Locals (l_idx l) (Some video_path) (l_vr l)) ;;;
  vr <- call (new_VideoReader video_path (worker_id self)) ;;
  assign (fun l => Locals (l_idx l) (l_video_path l) (Some vr)) ;;;
  if vr_len vr <? 3 * num_frames self then ret None
  else
    fr <- global (get_frames fuel self vr) ;;
    let '(continuous_frames, ref_frames, start_idx) := fr in
    mel <- global (audio_window self video_path start_idx) ;;
    match mel with
    | None => ret None
    | Some mel =>
        pos <- call (prepare_masks_and_masked_images image_processor
                       continuous_frames false) ;;
        let '(gt, masked_gt, mask') := pos in
        ref <- call (reference_images self image_processor ref_frames) ;;
        call (vr_seek vr 0) ;;;
        ret (Some {| Sample.gt := gt; Sample.masked_gt := masked_gt;
                     Sample.ref := ref; Sample.mel := mel;
                     Sample.mask := mask'; Sample.video_path := video_path;
                     Sample.start_idx := start_idx |})
    end.

(** The [except Exception as e] clause: the message needs [video_path]
    bound; [vr] is reset when bound. *)
Definition handler (e : exn) : M activation unit :=
  video_path <- gets (fun a => l_video_path (vars a)) ;;
  match video_path with
  | None => throw UnboundLocalError
  | Some video_path =>
      global (print (e, video_path)) ;;;
      vr <- gets (fun a => l_vr (vars a)) ;;
      match vr with
      | Some vr => call (vr_seek vr 0)
      | None => ret tt
      end
  end.

(** One iteration of [while True]: the [try] statement. *)
Definition attempt (fuel : nat) (self : UNetDataset)
    (image_processor : ImageProcessor) : M activation (option Sample.t) :=
  try_except (try_body fuel self image_processor)
             (fun e => handler e ;;; ret None).

Fixpoint retry_loop (fuel : nat) (self : UNetDataset)
    (image_processor : ImageProcessor) : M activation Sample.t :=
  match fuel with
  | O => stall
  | S fuel' =>
      r <- attempt fuel' self image_processor ;;
      match r with
      | Some sample => ret sample
      | None => retry_loop fuel' self image_processor
      end
  end.

Definition __getitem__ (fuel : nat) (self : UNetDataset) (idx : Z)
  : M process Sample.t :=
  fun w =>
    match image_processors self !! worker_id self with
    | None => Raise AttributeError w
    | Some image_processor =>
        match retry_loop fuel self image_processor
                (Activation (Locals idx None None) w) with
        | Ret sample a => Ret sample (glob a)
        | Raise e a => Raise e (glob a)
        | Stall => Stall
        end
    end.
End Dataset.

(** ** Specification predicates *)

(** A line: no newline but possibly its last character, and not empty. *)
Definition is_line (l : pystr) : Prop :=
  exists body,
    (10%N ∉ body) /\ (l = body ++ [10%N] \/ (l = body /\ body <> [])).

(** [post m s Q E]: when [m] runs from [s] and ends, it returns a value and
    a state that satisfy [Q], or raises an exception in a state that
    satisfy [E]. *)
Definition post {S A} (m : M S A) (s : S)
    (Q : A -> S -> Prop) (E : exn -> S -> Prop) : Prop :=
  match m s with
  | Ret a s' => Q a s'
  | Raise e s' => E e s'
  | Stall => True
  end.

(** Rounding in binary64, for the analysis of [crop_start]. *)

(** The mantissa [binary_round_aux] rounds to, given [n] digits too many. *)
Definition round_shifted (m : Z) (n : nat) (lx : location) : Z :=
  let mrs := Nat.iter n shr_1 (shr_record_of_loc m lx) in
  round_nearest_even (shr_m mrs) (loc_of_shr_record mrs).

(** Round to nearest, ties to even, of [m / 2 ^ k]. *)
Definition rne (m k : Z) : Z :=
  let q := m / 2 ^ k in
  let rem := m mod 2 ^ k in
  let h := 2 ^ (k - 1) in
  if rem <? h then q
  else if rem =? h then (if Z.even q then q else q + 1)
  else q + 1.

(** [extends m m']: wherever [m] ends, [m'] ends the same way (it was given
    at least as much fuel). *)
Definition extends {S A} (m m' : M S A) : Prop :=
  forall s, m s <> Stall -> m' s = m s.

Section Predicates.
Context {C : Collaborators}.

(** A sample that one complete pass through the loop body builds: one index
    of the dataset, its path, the two windows of one sampling of that
    video, their processed frames, and the audio window at the positive
    start (or the empty list). *)
Definition sample_ok (self : UNetDataset) (ip : ImageProcessor)
    (sample : Sample.t) : Prop :=
  let N := num_frames self in
  let s := Sample.start_idx sample in
  exists (idx : Z) (vr : VideoReader) (ws : Z) (frames ref_frames : list Frame),
    0 <= idx < __len__ self
    /\ video_paths self !! Z.to_nat idx = Some (Sample.video_path sample)
    /\ new_VideoReader (Sample.video_path sample) (worker_id self) = inr vr
    /\ 3 * N <= vr_len vr
    /\ N / 2 <= s <= vr_len vr - N - N / 2
    /\ (ws <= s - N \/ s + N <= ws)
    /\ vr_get_batch vr (arange s (s + N)) = inr frames
    /\ vr_get_batch vr (arange ws (ws + N)) = inr ref_frames
    /\ prepare_masks_and_masked_images ip frames false
       = inr (Sample.gt sample, Sample.masked_gt sample, Sample.mask sample)
    /\ reference_images self ip ref_frames = inr (Sample.ref sample)
    /\ (if load_audio_data self
        then exists original_mel window,
               crop_audio_window self original_mel s = inr [window]
               /\ Sample.mel sample = Sample.Tensor [window]
               /\ Z.of_nat (length window) = mel_window_length self
        else Sample.mel sample = Sample.EmptyList)
    /\ vr_seek vr 0 = inr tt.

(** What one pass through the [try] body from [a] leaves in [a']: the index
    it tried is the next draw of the generator, in range, and [video_path]
    is bound to the path at that index. *)
Definition tried (self : UNetDataset) (a a' : activation) : Prop :=
  l_idx (vars a') = draw_of 0 (__len__ self - 1) (rng (glob a) 0%nat)
  /\ 0 <= l_idx (vars a') < __len__ self
  /\ is_Some (l_video_path (vars a'))
  /\ l_video_path (vars a') = video_paths self !! Z.to_nat (l_idx (vars a')).

(** Two activations that differ at most in the local [idx]. *)
Definition same_but_idx (a b : activation) : Prop :=
  glob a = glob b
  /\ l_video_path (vars a) = l_video_path (vars b)
  /\ l_vr (vars a) = l_vr (vars b).

(** Two outcomes that differ at most in the local [idx] of their state. *)
Definition outcome_same_but_idx {A} (x y : outcome activation A) : Prop :=
  match x, y with
  | Ret u a, Ret v b => u = v /\ same_but_idx a b
  | Raise e a, Raise f b => e = f /\ same_but_idx a b
  | Stall, Stall => True
  | _, _ => False
  end.
End Predicates.

(** ** Frames: what a statement leaves of the process state *)

(** The generator after one draw. *)
Definition shift (r : nat -> Z) : nat -> Z := fun n => r (S n).

(** [draws k w w']: [w'] is [w] after [k] draws of the generator; the
    cache files and the output are as they were. *)
Definition draws {X} (k : nat) (w w' : world X) : Prop :=
  rng w' = Nat.iter k shift (rng w)
  /\ cache w' = cache w /\ stdout w' = stdout w.

(** [known self a]: the path the local [video_path] is bound to, if any, is
    one of the dataset's. *)
Definition known {C : Collaborators} (self : UNetDataset) (a : activation)
  : Prop :=
  forall p, l_video_path (vars a) = Some p -> p ∈ video_paths self.

(** The audio window of a sample, and the cache file it was cut from. *)
Definition cut_from_cache {C : Collaborators} (self : UNetDataset)
    (sample : Sample.t) (w : process) : Prop :=
  exists m window,
    cache w !! mel_cache_path self (Sample.video_path sample)
    = Some (Pickled m)
    /\ crop_audio_window self m (Sample.start_idx sample) = inr [window]
    /\ Sample.mel sample = Sample.Tensor [window]
    /\ Z.of_nat (length window) = mel_window_length self.

(** ** The specification's reading of the cache key

    The specification derives the cache key by replacing the extension of
    the base name by the cache suffix. *)
Definition replace_extension (ext suffix name : pystr) : pystr :=
  if endswith ext name
  then firstn (length name - length ext) name ++ suffix
  else name.

(** ** A test double

    Concrete collaborators on which the model runs: a directory [d] with a
    60-frame video [a.mp4], a 10-frame video [short.mp4] and a file
    [bad.mp4] the decoder rejects.  A frame is its index; a spectrogram
    column is its position. *)
Module Studio.
Definition nl : N := 10%N.

Definition a_mp4 : pystr := py "d/a.mp4".
Definition short_mp4 : pystr := py "d/short.mp4".
Definition bad_mp4 : pystr := py "d/bad.mp4".

Definition frame_count (p : pystr) : raises Z :=
  if bool_decide (p = a_mp4) then inr 60
  else if bool_decide (p = short_mp4) then inr 10
  else if bool_decide (p = bad_mp4) then inl (LibraryError 2)
  else inl OSError.

Definition get_batch (total : Z) (idxs : list Z) : raises (list Z) :=
  if forallb (fun i => (0 <=? i) && (i <? total)) idxs then inr idxs
  else inl IndexError.

Definition collaborators : Collaborators := {|
  Frame := Z;
  Image := Z;
  Mask := unit;
  MaskImage := unit;
  ImageProcessor := unit;
  VideoReader := Z;
  Waveform := list Z;
  MelColumn := Z;
  open_text := fun p =>
    if bool_decide (p = py "list.txt")
    then inr (a_mp4 ++ [nl] ++ bad_mp4 ++ py "  " ++ [nl] ++ short_mp4)
    else inl OSError;
  os_listdir := fun p =>
    if bool_decide (p = py "d")
    then inr [py "a.mp4"; py "notes.txt"; py "short.mp4"; py "bad.mp4"]
    else inl OSError;
  os_makedirs := fun _ => inr tt;
  load_fixed_mask := fun _ => inr tt;
  new_ImageProcessor := fun _ _ _ => inr tt;
  prepare_masks_and_masked_images := fun _ fr _ => inr (fr, map Z.opp fr, tt);
  process_images := fun _ fr => inr fr;
  new_VideoReader := fun p _ => frame_count p;
  vr_len := fun total => total;
  vr_get_batch := get_batch;
  vr_seek := fun _ _ => inr tt;
  new_AudioReader := fun p _ _ =>
    if bool_decide (p = a_mp4) then inr (seqZ 0 200) else inl (LibraryError 3);
  melspectrogram := fun wf => inr wf
|}.

Definition data (fileslist : pystr) (num_frames : Z) : config.data_t :=
  {| config.train_fileslist := fileslist;
     config.resolution := 256;
     config.num_frames := num_frames;
     config.audio_sample_rate := 16000;
     config.video_fps := 25;
     config.mask := py "fix_mask";
     config.audio_mel_cache_dir := py "cache" |}.

Definition cfg (fileslist : pystr) (num_frames : Z) (audio : bool) : config.t :=
  {| config.data := data fileslist num_frames;
     config.model := config.Model audio;
     config.run := config.Run true |}.

(** The dataset over the given paths, as [__init__] leaves it. *)
Definition dataset (paths : list pystr) (num_frames mel_window_length : Z)
    (audio : bool) : @UNetDataset collaborators :=
  {| video_paths := paths;
     resolution := 256;
     num_frames := num_frames;
     mel_window_length := mel_window_length;
     audio_sample_rate := 16000;
     video_fps := 25;
     mask := py "fix_mask";
     mask_image := tt : @MaskImage collaborators;
     load_audio_data := audio;
     audio_mel_cache_dir := py "cache";
     worker_id := 0;
     image_processors := {[ 0 := tt : @ImageProcessor collaborators ]} |}.

(** The same dataset at another frame rate. *)
Definition at_fps (fps : Z) (self : @UNetDataset collaborators)
  : @UNetDataset collaborators :=
  {| video_paths := video_paths self; resolution := resolution self;
     num_frames := num_frames self;
     mel_window_length := mel_window_length self;
     audio_sample_rate := audio_sample_rate self;
     video_fps := fps; mask := mask self;
     mask_image := mask_image self;
     load_audio_data := load_audio_data self;
     audio_mel_cache_dir := audio_mel_cache_dir self;
     worker_id := worker_id self;
     image_processors := image_processors self |}.

(** The random generator that will produce the given raw draws, then
    zeros. *)
Definition tape (raw : list Z) : nat -> Z := fun n => nth n raw 0.

(** A process with an empty cache directory and nothing printed. *)
Definition fresh (raw : list Z) : @world (list (@MelColumn collaborators)) :=
  World (tape raw) ∅ [].
End Studio.

(** ** A second test double: collaborators that fail

    The directory [empty] holds no video; the manifest [list.txt] holds an
    empty line and a line of blanks; frames from index 50 on do not decode;
    an image processor is built at resolution 256 only; [seek] raises. *)
Module Flaky.
Definition get_batch (total : Z) (idxs : list Z) : raises (list Z) :=
  if forallb (fun i => i <? 50) idxs then Studio.get_batch total idxs
  else inl (LibraryError 6).

Definition collaborators : Collaborators := {|
  Frame := Z;
  Image := Z;
  Mask := unit;
  MaskImage := unit;
  ImageProcessor := unit;
  VideoReader := Z;
  Waveform := list Z;
  MelColumn := Z;
  open_text := fun p =>
    if bool_decide (p = py "list.txt")
    then inr (Studio.a_mp4 ++ [Studio.nl] ++ [Studio.nl] ++ py "  "
              ++ [Studio.nl] ++ Studio.a_mp4)
    else inl OSError;
  os_listdir := fun p =>
    if bool_decide (p = py "empty") then inr [py "notes.txt"]
    else inl OSError;
  os_makedirs := fun _ => inr tt;
  load_fixed_mask := fun _ => inr tt;
  new_ImageProcessor := fun resolution _ _ =>
    if resolution =? 256 then inr tt else inl (LibraryError 5);
  prepare_masks_and_masked_images := fun _ fr _ => inr (fr, map Z.opp fr, tt);
  process_images := fun _ fr => inr fr;
  new_VideoReader := fun p _ => Studio.frame_count p;
  vr_len := fun total => total;
  vr_get_batch := get_batch;
  vr_seek := fun _ _ => inl (LibraryError 4);
  new_AudioReader := fun p _ _ =>
    if bool_decide (p = Studio.a_mp4) then inr (seqZ 0 200)
    else inl (LibraryError 3);
  melspectrogram := fun wf => inr wf
|}.

(** A dataset over the given paths, with the image processor of worker 0
    registered. *)
Definition dataset (paths : list pystr) (resolution num_frames : Z)
  : @UNetDataset collaborators :=
  {| video_paths := paths;
     resolution := resolution;
     num_frames := num_frames;
     mel_window_length := 16;
     audio_sample_rate := 16000;
     video_fps := 25;
     mask := py "fix_mask";
     mask_image := tt : @MaskImage collaborators;
     load_audio_data := false;
     audio_mel_cache_dir := py "cache";
     worker_id := 0;
     image_processors := {[ 0 := tt : @ImageProcessor collaborators ]} |}.

(** A process with an empty cache directory and nothing printed. *)
Definition fresh (raw : list Z) : @world (list (@MelColumn collaborators)) :=
  World (Studio.tape raw) ∅ [].
End Flaky.

(** The run at hand returned: the other outcomes are excluded by
    evaluation. *)
Ltac returned E :=
  exfalso;
  match type of E with
  | ?o = _ =>
      let Hr := fresh "Hr" in
      assert (Hr : match o with Ret _ _ => True | _ => False end)
        by (vm_compute; exact I);
      rewrite E in Hr; exact Hr
  end.

(* ===================================================================== *)
(** * Part II. Properties                                                 *)
(* ===================================================================== *)

(** ** The monad *)

Lemma bind_Ret {S A B} (m : M S A) (k : A -> M S B) s b s' :
  bind m k s = Ret b s' ->
  exists a s1, m s = Ret a s1 /\ k a s1 = Ret b s'.
Proof.
  unfold bind. destruct (m s) as [a s1|e s1|] eqn:E; try discriminate.
  intros H. exists a, s1. auto.
Qed.

Lemma bind_Raise {S A B} (m : M S A) (k : A -> M S B) s e s' :
  bind m k s = Raise e s' ->
  m s = Raise e s' \/ exists a s1, m s = Ret a s1 /\ k a s1 = Raise e s'.
Proof.
  unfold bind. destruct (m s) as [a s1|e1 s1|] eqn:E; try discriminate.
  - intros H. right. exists a, s1. auto.
  - intros H. inversion H. subst. left. reflexivity.
Qed.

Lemma call_Ret {S A} (r : raises A) (s s' : S) a :
  call r s = Ret a s' -> r = inr a /\ s' = s.
Proof.
  destruct r as [e|x]; unfold call, ret, throw; intros H; inversion H; auto.
Qed.

Lemma zoom_Ret {S W A} (g : S -> W) (st : W -> S -> S) (m : M W A) s a s' :
  zoom g st m s = Ret a s' ->
  exists w, m (g s) = Ret a w /\ s' = st w s.
Proof.
  unfold zoom. destruct (m (g s)) as [x w|e w|]; try discriminate.
  intros H. inversion H. subst. eauto.
Qed.

(** ** [random.randint] *)

Lemma draw_of_range a b raw : a <= b -> a <= draw_of a b raw <= b.
Proof.
  intros H. unfold draw_of.
  pose proof (Z.mod_pos_bound raw (b - a + 1)). lia.
Qed.

(** Every value of the range is the outcome of some raw draw. *)
Lemma draw_of_onto a b v : a <= v <= b -> draw_of a b (v - a) = v.
Proof.
  intros H. unfold draw_of. rewrite Z.mod_small; lia.
Qed.

Lemma randint_Ret {X} a b (w w' : world X) v :
  randint a b w = Ret v w' ->
  a <= v <= b /\ v = draw_of a b (rng w 0%nat)
  /\ w' = set_rng (fun n => rng w (S n)) w.
Proof.
  unfold randint. destruct (b <? a) eqn:E; [discriminate|].
  apply Z.ltb_ge in E. intros H. inversion H. subst.
  split; [apply draw_of_range; lia|]. auto.
Qed.

Lemma randint_total {X} a b (w : world X) :
  a <= b ->
  randint a b w = Ret (draw_of a b (rng w 0%nat))
                      (set_rng (fun n => rng w (S n)) w).
Proof.
  intros H. unfold randint.
  destruct (b <? a) eqn:E; [apply Z.ltb_lt in E; lia | reflexivity].
Qed.

(** ** The window sampler *)

Section Sampler.
Context {C : Collaborators}.
Variable self : UNetDataset.
Local Abbreviation N := (num_frames self).

Lemma too_close_false s ws :
  too_close self s ws = false <-> ws <= s - N \/ s + N <= ws.
Proof.
  unfold too_close. rewrite andb_false_iff, !Z.ltb_ge. reflexivity.
Qed.

Lemma arange_length a b : 0 <= b - a -> Z.of_nat (length (arange a b)) = b - a.
Proof. intros H. unfold arange. rewrite length_seqZ. lia. Qed.

Lemma elem_of_arange a b i : i ∈ arange a b <-> a <= i < b.
Proof. unfold arange. rewrite elem_of_seqZ. lia. Qed.

(** What the rejection loop returns: the window of an accepted start. *)
Lemma wrong_window_Ret fuel T s w wfi w' :
  wrong_window fuel self T s w = Ret wfi w' ->
  exists ws, 0 <= ws <= T - N /\ too_close self s ws = false
             /\ wfi = arange ws (ws + N).
Proof.
  revert w. induction fuel as [|fuel IH]; intros w; simpl; [discriminate|].
  intros H. apply bind_Ret in H as (ws & w1 & Hd & Hk).
  apply randint_Ret in Hd as (Hr & _ & _).
  destruct (too_close self s ws) eqn:E.
  - eapply IH; eauto.
  - inversion Hk. subst. exists ws. auto.
Qed.

(** The rejection loop never raises when its range is not empty. *)
Lemma wrong_window_no_Raise fuel T s w e w' :
  N <= T -> wrong_window fuel self T s w <> Raise e w'.
Proof.
  intros HT. revert w. induction fuel as [|fuel IH]; intros w; simpl;
    [discriminate|].
  unfold bind. rewrite randint_total by lia.
  destruct (too_close self s _); [apply IH | discriminate].
Qed.

(** The rejection loop returns as soon as the generator presents an
    accepted start, whatever it presented before. *)
Lemma wrong_window_returns fuel T s w k :
  N <= T -> (k < fuel)%nat ->
  too_close self s (draw_of 0 (T - N) (rng w k)) = false ->
  exists wfi w', wrong_window fuel self T s w = Ret wfi w'.
Proof.
  intros HT. revert w k.
  induction fuel as [|fuel IH]; intros w k Hk Hacc; [lia|].
  simpl. unfold bind. rewrite randint_total by lia.
  destruct (too_close self s (draw_of 0 (T - N) (rng w 0%nat))) eqn:E.
  - destruct k as [|k]; [congruence|].
    apply (IH _ k); [lia | exact Hacc].
  - eexists _, _. reflexivity.
Qed.

(** What [sample_windows] returns. *)
Lemma sample_windows_Ret fuel T w fi wfi s w' :
  sample_windows fuel self T w = Ret (fi, wfi, s) w' ->
  N / 2 <= s <= T - N - N / 2 /\ fi = arange s (s + N)
  /\ exists ws, 0 <= ws <= T - N /\ too_close self s ws = false
                /\ wfi = arange ws (ws + N).
Proof.
  unfold sample_windows. intros H.
  apply bind_Ret in H as (s0 & w1 & Hs & H).
  apply bind_Ret in H as (wfi0 & w2 & Hw & H).
  inversion H. subst.
  apply randint_Ret in Hs as (Hs & _).
  apply wrong_window_Ret in Hw. auto.
Qed.

(** With at least [3 * N] frames both ranges of [randint] are inhabited,
    so sampling the windows never raises. *)
Lemma sample_windows_no_Raise fuel T w e w' :
  0 <= N -> 3 * N <= T -> sample_windows fuel self T w <> Raise e w'.
Proof.
  intros HN HT. unfold sample_windows, bind.
  assert (N / 2 * 2 <= N) by (pose proof (Z.mul_div_le N 2); lia).
  rewrite randint_total by lia.
  destruct (wrong_window _ _ _ _ _) as [a s1|e1 s1|] eqn:E; try discriminate.
  exfalso. eapply wrong_window_no_Raise; [|exact E]. lia.
Qed.

Lemma get_frames_Ret fuel vr w frames wrong s w' :
  get_frames fuel self vr w = Ret (frames, wrong, s) w' ->
  exists fi wfi w1,
    sample_windows fuel self (vr_len vr) w = Ret (fi, wfi, s) w1
    /\ vr_get_batch vr fi = inr frames
    /\ vr_get_batch vr wfi = inr wrong.
Proof.
  unfold get_frames. intros H.
  apply bind_Ret in H as ([[fi wfi] s0] & w1 & Hs & H).
  apply bind_Ret in H as (fr & w2 & H1 & H).
  apply bind_Ret in H as (wr & w3 & H2 & H).
  apply call_Ret in H1 as (H1 & ->). apply call_Ret in H2 as (H2 & ->).
  inversion H. subst. eauto 10.
Qed.
End Sampler.

(** C1.  Every pair of windows [get_frames] returns is made of the frames
    of a positive window [arange s (s + N)] and of a negative window
    [arange ws (ws + N)] whose start was accepted: [ws <= s - N] or
    [s + N <= ws]; hence no frame index belongs to both windows. *)
Theorem negative_window_separated {C : Collaborators} (self : UNetDataset)
    fuel vr w frames wrong s w' :
  get_frames fuel self vr w = Ret (frames, wrong, s) w' ->
  exists ws,
    vr_get_batch vr (arange s (s + num_frames self)) = inr frames
    /\ vr_get_batch vr (arange ws (ws + num_frames self)) = inr wrong
    /\ (ws <= s - num_frames self \/ s + num_frames self <= ws)
    /\ (forall i, i ∈ arange s (s + num_frames self) ->
                  i ∈ arange ws (ws + num_frames self) -> False).
Proof.
  intros H. apply get_frames_Ret in H as (fi & wfi & w1 & Hs & Hf & Hw).
  apply sample_windows_Ret in Hs as (_ & -> & ws & _ & Hacc & ->).
  apply too_close_false in Hacc.
  exists ws. repeat split; auto.
  intros i Hi Hj. rewrite elem_of_arange in Hi, Hj. lia.
Qed.

(** C2.  On a video of [T >= 3 * N] frames, every result of [get_frames]
    has its positive start [s] in [N / 2 .. T - N - N / 2]; both windows are
    runs of exactly [N] consecutive indices, and every index of the positive
    window (and of the negative one) lies in [0 .. T - 1]. *)
Theorem positive_window_in_range {C : Collaborators} (self : UNetDataset)
    fuel vr w frames wrong s w' :
  0 <= num_frames self ->
  3 * num_frames self <= vr_len vr ->
  get_frames fuel self vr w = Ret (frames, wrong, s) w' ->
  let N := num_frames self in
  let T := vr_len vr in
  N / 2 <= s <= T - N - N / 2
  /\ exists ws,
      vr_get_batch vr (arange s (s + N)) = inr frames
      /\ vr_get_batch vr (arange ws (ws + N)) = inr wrong
      /\ Z.of_nat (length (arange s (s + N))) = N
      /\ Z.of_nat (length (arange ws (ws + N))) = N
      /\ (forall i, i ∈ arange s (s + N) -> 0 <= i < T)
      /\ (forall i, i ∈ arange ws (ws + N) -> 0 <= i < T).
Proof.
  intros HN HT H N T.
  apply get_frames_Ret in H as (fi & wfi & w1 & Hs & Hf & Hw).
  apply sample_windows_Ret in Hs as (Hr & -> & ws & Hws & _ & ->).
  fold N T in Hr, Hws. split; [exact Hr|].
  assert (0 <= N / 2) by (apply Z.div_pos; lia).
  exists ws. repeat split; auto;
    try (rewrite arange_length; lia);
    match goal with
    | Hi : _ ∈ arange _ _ |- _ => rewrite elem_of_arange in Hi; subst N T; lia
    end.
Qed.

(** C10.  With [T >= 3 * N], [N >= 1] and the positive start [s] in
    [N / 2 .. T - N - N / 2], the rejection loop has a start to accept in
    [0 .. T - N]: [0] when [s >= N], [T - N] otherwise.  The generator can
    present it, and as soon as it presents an accepted start the loop
    returns. *)
Theorem rejection_loop_accepts {C : Collaborators} (self : UNetDataset) T s :
  1 <= num_frames self ->
  3 * num_frames self <= T ->
  num_frames self / 2 <= s <= T - num_frames self - num_frames self / 2 ->
  let N := num_frames self in
  (N <= s -> too_close self s 0 = false)
  /\ (s < N -> too_close self s (T - N) = false)
  /\ (exists ws, 0 <= ws <= T - N /\ too_close self s ws = false
                 /\ exists raw, draw_of 0 (T - N) raw = ws)
  /\ (forall fuel w k, (k < fuel)%nat ->
        too_close self s (draw_of 0 (T - N) (rng w k)) = false ->
        exists ws w',
          wrong_window fuel self T s w = Ret (arange ws (ws + N)) w'
          /\ 0 <= ws <= T - N /\ too_close self s ws = false).
Proof.
  intros HN HT Hs N. fold N in HN, HT, Hs.
  assert (H0 : N <= s -> too_close self s 0 = false)
    by (intros; apply too_close_false; lia).
  assert (H1 : s < N -> too_close self s (T - N) = false)
    by (intros; apply too_close_false; lia).
  split; [exact H0|]. split; [exact H1|]. split.
  - destruct (Z_le_gt_dec N s).
    + exists 0. split; [lia|]. split; [auto|].
      exists (0 - 0). apply (draw_of_onto 0 (T - N) 0). lia.
    + exists (T - N). split; [lia|]. split; [apply H1; lia|].
      exists (T - N - 0). apply (draw_of_onto 0 (T - N) (T - N)). lia.
  - intros fuel w k Hk Hacc.
    destruct (wrong_window_returns self fuel T s w k) as (wfi & w' & Hret);
      auto; [subst N; lia|].
    destruct (wrong_window_Ret self _ _ _ _ _ _ Hret) as (ws & ? & ? & ->).
    exists ws, w'. auto.
Qed.

(** Witnesses on the test double: a 60-frame video, [N = 5]. *)

Lemma negative_window_separated_witness :
  get_frames (C := Studio.collaborators) 5
    (Studio.dataset [Studio.a_mp4] 5 16 false) 60 (Studio.fresh [10; 14; 40])
  = Ret ([12; 13; 14; 15; 16], [40; 41; 42; 43; 44], 12)
        (World (fun n => Studio.tape [10; 14; 40] (S (S (S n)))) ∅ [])
  /\ exists ws : Z,
      Studio.get_batch 60 (arange 12 (12 + 5)) = inr [12; 13; 14; 15; 16]
      /\ Studio.get_batch 60 (arange ws (ws + 5)) = inr [40; 41; 42; 43; 44]
      /\ (ws <= 12 - 5 \/ 12 + 5 <= ws)
      /\ (forall i, i ∈ arange 12 (12 + 5) -> i ∈ arange ws (ws + 5) -> False).
Proof.
  assert (H : get_frames (C := Studio.collaborators) 5
                (Studio.dataset [Studio.a_mp4] 5 16 false) 60
                (Studio.fresh [10; 14; 40])
              = Ret ([12; 13; 14; 15; 16], [40; 41; 42; 43; 44], 12)
                  (World (fun n => Studio.tape [10; 14; 40] (S (S (S n)))) ∅ []))
    by (vm_compute; reflexivity).
  split; [exact H|].
  exact (negative_window_separated _ _ _ _ _ _ _ _ H).
Defined.

Lemma positive_window_in_range_witness :
  (0 <= 5 /\ 3 * 5 <= 60)
  /\ 5 / 2 <= 12 <= 60 - 5 - 5 / 2
  /\ exists ws : Z,
      Studio.get_batch 60 (arange 12 (12 + 5)) = inr [12; 13; 14; 15; 16]
      /\ Studio.get_batch 60 (arange ws (ws + 5)) = inr [40; 41; 42; 43; 44]
      /\ Z.of_nat (length (arange 12 (12 + 5))) = 5
      /\ Z.of_nat (length (arange ws (ws + 5))) = 5
      /\ (forall i, i ∈ arange 12 (12 + 5) -> 0 <= i < 60)
      /\ (forall i, i ∈ arange ws (ws + 5) -> 0 <= i < 60).
Proof.
  split; [lia|].
  apply (positive_window_in_range (C := Studio.collaborators)
           (Studio.dataset [Studio.a_mp4] 5 16 false) 5 60
           (Studio.fresh [10; 40]) [12; 13; 14; 15; 16] [40; 41; 42; 43; 44] 12
           (World (fun n => Studio.tape [10; 40] (S (S n))) ∅ [])).
  - simpl. lia.
  - simpl. lia.
  - vm_compute. reflexivity.
Defined.

Lemma rejection_loop_accepts_witness :
  (1 <= 5 /\ 3 * 5 <= 60 /\ 5 / 2 <= 2 <= 60 - 5 - 5 / 2)
  /\ too_close (Studio.dataset [Studio.a_mp4] 5 16 false) 2 (60 - 5) = false.
Proof.
  split; [repeat split; try lia; vm_compute; discriminate|].
  refine (proj1 (proj2 (rejection_loop_accepts (C := Studio.collaborators)
           (Studio.dataset [Studio.a_mp4] 5 16 false) 60 2 _ _ _)) _).
  - simpl. lia.
  - simpl. lia.
  - vm_compute. split; discriminate.
  - simpl. lia.
Defined.

(** ** Strings *)

Lemma startswith_spec p s :
  startswith p s = true <-> exists suf, s = p ++ suf.
Proof.
  revert s. induction p as [|a p IH]; intros s; simpl.
  - split; eauto.
  - destruct s as [|b s].
    + split; [discriminate | intros (suf & H); discriminate].
    + rewrite andb_true_iff, N.eqb_eq, IH. split.
      * intros (-> & suf & ->). eauto.
      * intros (suf & H). inversion H. eauto.
Qed.

Lemma endswith_spec p s :
  endswith p s = true <-> exists pre, s = pre ++ p.
Proof.
  unfold endswith. rewrite startswith_spec. split.
  - intros (suf & H). exists (rev suf).
    rewrite <- (rev_involutive s), H, rev_app_distr, rev_involutive.
    reflexivity.
  - intros (pre & ->). exists (rev pre). apply rev_app_distr.
Qed.

(** [rstrip] removes a suffix of whitespace, and all of it. *)
Lemma rstrip_spec s :
  exists ws,
    s = rstrip s ++ ws
    /\ forallb isspace ws = true
    /\ forall c, last (rstrip s) = Some c -> isspace c = false.
Proof.
  induction s as [|c s (ws & Hs & Hws & Hlast)]; simpl.
  - exists []. split; [reflexivity|]. split; [reflexivity|]. discriminate.
  - destruct (rstrip s) as [|r0 r] eqn:E.
    + simpl in Hs. subst ws. destruct (isspace c) eqn:Ec.
      * exists (c :: s). simpl. rewrite Ec, Hws.
        split; [reflexivity|]. split; [reflexivity|]. discriminate.
      * exists s. split; [reflexivity|]. split; [exact Hws|].
        intros c' H. cbn in H. inversion H. subst. exact Ec.
    + exists ws. split; [simpl; f_equal; exact Hs|]. split; [exact Hws|].
      intros c' H. apply Hlast. exact H.
Qed.

Lemma rstrip_idempotent s : rstrip (rstrip s) = rstrip s.
Proof.
  induction s as [|c s IH]; simpl; [reflexivity|].
  destruct (rstrip s) as [|r0 r] eqn:E.
  - destruct (isspace c) eqn:Ec; simpl; [reflexivity | rewrite Ec; reflexivity].
  - simpl. simpl in IH. destruct (rstrip r) as [|q0 q] eqn:Er.
    + destruct (isspace r0); [discriminate|]. inversion IH. reflexivity.
    + rewrite IH. reflexivity.
Qed.

(** The lines of a text are the text, cut after each newline. *)
Lemma readlines_from_concat cur s :
  concat (readlines_from cur s) = rev cur ++ s.
Proof.
  revert cur. induction s as [|c s IH]; intros cur; simpl.
  - destruct cur; simpl; rewrite ?app_nil_r; reflexivity.
  - destruct (c =? 10)%N.
    + simpl. rewrite IH. simpl. rewrite <- app_assoc. reflexivity.
    + rewrite IH. simpl. rewrite <- app_assoc. reflexivity.
Qed.

Lemma readlines_concat s : concat (readlines s) = s.
Proof. apply readlines_from_concat. Qed.

Lemma elem_of_rev {A} (x : A) l : x ∈ rev l <-> x ∈ l.
Proof. rewrite !list_elem_of_In. symmetry. apply in_rev. Qed.

Lemma readlines_from_lines cur s :
  10%N ∉ cur -> Forall is_line (readlines_from cur s).
Proof.
  revert cur. induction s as [|c s IH]; intros cur Hcur; simpl.
  - destruct cur as [|c0 cur']; constructor; [|constructor].
    exists (rev (c0 :: cur')). split.
    + rewrite elem_of_rev. exact Hcur.
    + right. split; [reflexivity|].
      simpl. intros H. apply app_eq_nil in H as [_ H]. discriminate.
  - destruct (c =? 10)%N eqn:Ec.
    + apply N.eqb_eq in Ec. subst c. constructor.
      * exists (rev cur). split; [rewrite elem_of_rev; exact Hcur|].
        left. reflexivity.
      * apply IH. apply not_elem_of_nil.
    + apply N.eqb_neq in Ec. apply IH. rewrite elem_of_cons.
      intros [H|H]; [congruence | auto].
Qed.

Lemma readlines_lines s : Forall is_line (readlines s).
Proof. apply readlines_from_lines, not_elem_of_nil. Qed.

(** The directory scan keeps, in listing order, the entries that end in
    [.mp4], each joined to the directory. *)
Lemma scan_dir_filter {C : Collaborators} dir files :
  scan_dir dir files
  = map (path_join dir) (List.filter (endswith (py ".mp4")) files).
Proof.
  unfold scan_dir.
  enough (H : forall acc,
    fold_left (fun video_paths file =>
                 if endswith (py ".mp4") file
                 then video_paths ++ [path_join dir file] else video_paths)
              files acc
    = acc ++ map (path_join dir) (List.filter (endswith (py ".mp4")) files))
    by apply (H []).
  induction files as [|f files IH]; intros acc; simpl.
  - rewrite app_nil_r. reflexivity.
  - rewrite IH. destruct (endswith _ f); simpl.
    + rewrite <- app_assoc. reflexivity.
    + reflexivity.
Qed.

(** ** Construction *)

Section Construction.
Context {C : Collaborators}.
Variables (train_data_dir : pystr) (cfg : config.t).

Lemma and_then_inr {A B} (r : raises A) (k : A -> raises B) b :
  and_then r k = inr b -> exists a, r = inr a /\ k a = inr b.
Proof. destruct r as [e|a]; simpl; [discriminate | eauto]. Qed.

(** What a successful construction has set. *)
Lemma init_inr self :
  __init__ train_data_dir cfg = inr self ->
  resolve_paths train_data_dir cfg = inr (video_paths self)
  /\ num_frames self = config.num_frames (config.data cfg)
  /\ (num_frames self = 16 /\ mel_window_length self = 52
      \/ num_frames self = 5 /\ mel_window_length self = 16)
  /\ video_fps self = config.video_fps (config.data cfg)
  /\ load_audio_data self
     = config.add_audio_layer (config.model cfg)
       && config.use_syncnet (config.run cfg)
  /\ worker_id self = 0
  /\ is_Some (image_processors self !! worker_id self).
Proof.
  unfold __init__. intros H.
  apply and_then_inr in H as (paths & Hp & H).
  apply and_then_inr in H as (mwl & Hm & H).
  apply and_then_inr in H as (mi & Hmi & H).
  apply and_then_inr in H as ([] & Hmk & H).
  apply and_then_inr in H as (ip & Hip & H).
  inversion H; subst; clear H; simpl.
  split; [exact Hp|]. split; [reflexivity|]. split.
  - destruct (config.num_frames (config.data cfg) =? 16) eqn:E16.
    + apply Z.eqb_eq in E16. inversion Hm. auto.
    + destruct (config.num_frames (config.data cfg) =? 5) eqn:E5;
        [|discriminate].
      apply Z.eqb_eq in E5. inversion Hm. auto.
  - repeat (split; [reflexivity|]).
    rewrite lookup_singleton_eq. eauto.
Qed.

(** A constructed dataset meets what the properties below ask of [self]:
    window lengths are positive and the image processor of its worker is
    registered. *)
Lemma init_invariants self :
  __init__ train_data_dir cfg = inr self ->
  1 <= num_frames self /\ 0 <= mel_window_length self
  /\ exists ip, image_processors self !! worker_id self = Some ip.
Proof.
  intros H. apply init_inr in H as (_ & _ & Hm & _ & _ & _ & Hip).
  split; [|split].
  - destruct Hm as [[-> _]|[-> _]]; lia.
  - destruct Hm as [[_ ->]|[_ ->]]; lia.
  - destruct Hip as [ip Hip]. eauto.
Qed.
End Construction.

(** C6.  A dataset constructed with [num_frames = 16] has
    [mel_window_length = 52], one constructed with [num_frames = 5] has 16,
    and with any other [num_frames] the constructor raises: the error of
    the index when the index cannot be built, [NotImplementedError]
    otherwise. *)
Theorem mel_window_length_by_num_frames {C : Collaborators}
    (train_data_dir : pystr) (cfg : config.t) :
  let n := config.num_frames (config.data cfg) in
  (forall self, __init__ train_data_dir cfg = inr self ->
     n = 16 -> num_frames self = 16 /\ mel_window_length self = 52)
  /\ (forall self, __init__ train_data_dir cfg = inr self ->
     n = 5 -> num_frames self = 5 /\ mel_window_length self = 16)
  /\ (n <> 16 -> n <> 5 ->
      __init__ train_data_dir cfg
      = match resolve_paths train_data_dir cfg with
        | inl e => inl e
        | inr _ => inl NotImplementedError
        end).
Proof.
  intros n. split; [|split].
  - intros self H Hn. apply init_inr in H as (_ & Hnf & Hm & _).
    fold n in Hnf. destruct Hm as [[? ?]|[? ?]]; split; congruence.
  - intros self H Hn. apply init_inr in H as (_ & Hnf & Hm & _).
    fold n in Hnf. destruct Hm as [[? ?]|[? ?]]; split; congruence.
  - intros H16 H5. unfold __init__.
    destruct (resolve_paths train_data_dir cfg) as [e|paths]; simpl;
      [reflexivity|].
    fold n. apply Z.eqb_neq in H16, H5. rewrite H16, H5. reflexivity.
Qed.

(** C6 on the test double: 16 and 5 construct, 8 does not. *)
Lemma mel_window_length_by_num_frames_witness :
  (exists self,
     __init__ (C := Studio.collaborators) (py "d") (Studio.cfg [] 16 true)
     = inr self /\ num_frames self = 16 /\ mel_window_length self = 52)
  /\ (exists self,
     __init__ (C := Studio.collaborators) (py "d") (Studio.cfg [] 5 true)
     = inr self /\ num_frames self = 5 /\ mel_window_length self = 16)
  /\ __init__ (C := Studio.collaborators) (py "d") (Studio.cfg [] 8 true)
     = inl NotImplementedError.
Proof.
  split; [|split].
  - eexists. split; [vm_compute; reflexivity|].
    eapply (proj1 (mel_window_length_by_num_frames
                     (C := Studio.collaborators) (py "d") (Studio.cfg [] 16 true)));
      [vm_compute; reflexivity | reflexivity].
  - eexists. split; [vm_compute; reflexivity|].
    eapply (proj1 (proj2 (mel_window_length_by_num_frames
                     (C := Studio.collaborators) (py "d") (Studio.cfg [] 5 true))));
      [vm_compute; reflexivity | reflexivity].
  - rewrite (proj2 (proj2 (mel_window_length_by_num_frames
               (C := Studio.collaborators) (py "d") (Studio.cfg [] 8 true))));
      [vm_compute; reflexivity | vm_compute; discriminate
       | vm_compute; discriminate].
Defined.

(** C7.  The index of a constructed dataset: with a manifest named, the
    lines of the manifest in order, each without its trailing whitespace
    (newline included); otherwise, with a directory named, the entries of
    the listing that end in [.mp4], in listing order, as paths under the
    directory; with neither, construction raises [ValueError].  The length
    of the dataset is the number of paths of the index. *)
Theorem index_of_manifest_or_directory {C : Collaborators}
    (train_data_dir : pystr) (cfg : config.t) :
  let fileslist := config.train_fileslist (config.data cfg) in
  (fileslist <> [] ->
   forall self, __init__ train_data_dir cfg = inr self ->
   exists text,
     open_text fileslist = inr text
     /\ video_paths self = map rstrip (readlines text)
     /\ concat (readlines text) = text
     /\ Forall is_line (readlines text)
     /\ forall i line, readlines text !! i = Some line ->
        exists p ws,
          video_paths self !! i = Some p
          /\ line = p ++ ws
          /\ forallb isspace ws = true
          /\ (forall c, last p = Some c -> isspace c = false))
  /\ (fileslist = [] -> train_data_dir <> [] ->
      forall self, __init__ train_data_dir cfg = inr self ->
      exists files,
        os_listdir train_data_dir = inr files
        /\ video_paths self
           = map (path_join train_data_dir)
               (List.filter (endswith (py ".mp4")) files))
  /\ (fileslist = [] -> train_data_dir = [] ->
      __init__ train_data_dir cfg = inl ValueError)
  /\ (forall self, __init__ train_data_dir cfg = inr self ->
      exists paths,
        resolve_paths train_data_dir cfg = inr paths
        /\ __len__ self = Z.of_nat (length paths)).
Proof.
  intros fileslist. split; [|split; [|split]].
  - intros Hfl self H. apply init_inr in H as (Hp & _).
    unfold resolve_paths in Hp. fold fileslist in Hp.
    destruct fileslist as [|c0 fl]; [congruence|]. simpl in Hp.
    apply and_then_inr in Hp as (text & Ht & Hp). inversion Hp as [Hv].
    exists text. split; [exact Ht|]. split; [reflexivity|].
    split; [apply readlines_concat|]. split; [apply readlines_lines|].
    intros i line Hi.
    destruct (rstrip_spec line) as (ws & Hl & Hws & Hlast).
    exists (rstrip line), ws. split; [|auto].
    rewrite list_lookup_fmap, Hi. reflexivity.
  - intros Hfl Hd self H. apply init_inr in H as (Hp & _).
    unfold resolve_paths in Hp. fold fileslist in Hp. rewrite Hfl in Hp.
    destruct train_data_dir as [|c0 d]; [congruence|]. simpl in Hp.
    apply and_then_inr in Hp as (files & Hf & Hp). inversion Hp as [Hv].
    exists files. split; [exact Hf|]. apply scan_dir_filter.
  - intros Hfl Hd. unfold __init__, resolve_paths. fold fileslist.
    rewrite Hfl, Hd. reflexivity.
  - intros self H. apply init_inr in H as (Hp & _).
    exists (video_paths self). split; [exact Hp | reflexivity].
Qed.

(** C7 on the test double: the manifest [list.txt] (three lines, the second
    with trailing blanks, the last without newline), and the directory [d]
    (four entries, one of them not a video). *)
Lemma index_of_manifest_or_directory_witness :
  (exists self,
     __init__ (C := Studio.collaborators) [] (Studio.cfg (py "list.txt") 5 true)
     = inr self
     /\ video_paths self = [Studio.a_mp4; Studio.bad_mp4; Studio.short_mp4]
     /\ __len__ self = 3)
  /\ (exists self,
     __init__ (C := Studio.collaborators) (py "d") (Studio.cfg [] 5 true)
     = inr self
     /\ video_paths self = [Studio.a_mp4; Studio.short_mp4; Studio.bad_mp4]
     /\ exists files,
         os_listdir (Collaborators := Studio.collaborators) (py "d") = inr files
         /\ video_paths self
            = map (path_join (py "d")) (List.filter (endswith (py ".mp4")) files))
  /\ __init__ (C := Studio.collaborators) [] (Studio.cfg [] 5 true)
     = inl ValueError.
Proof.
  split; [|split].
  - eexists. split; [vm_compute; reflexivity|].
    split; vm_compute; reflexivity.
  - eexists. split; [vm_compute; reflexivity|].
    split; [vm_compute; reflexivity|].
    eapply (proj1 (proj2 (index_of_manifest_or_directory
              (C := Studio.collaborators) (py "d") (Studio.cfg [] 5 true)))).
    + reflexivity.
    + vm_compute. discriminate.
    + vm_compute. reflexivity.
  - apply (proj1 (proj2 (proj2 (index_of_manifest_or_directory
              (C := Studio.collaborators) [] (Studio.cfg [] 5 true)))));
      reflexivity.
Defined.

(** ** The spectrogram cache *)

Lemma replace_from_skip old new k s :
  (length s <= k)%nat -> replace_from old new k s = [].
Proof.
  revert k. induction s as [|c s IH]; intros k Hk; simpl; [reflexivity|].
  destruct k as [|k]; simpl in Hk; [lia|]. apply IH. lia.
Qed.

Lemma startswith_refl p : startswith p p = true.
Proof. apply startswith_spec. exists []. symmetry. apply app_nil_r. Qed.

(** When [old] occurs in [stem ++ old] at the end only, [replace] swaps that
    suffix and nothing else. *)
Lemma replace_only_suffix old new stem :
  old <> [] ->
  (forall pre suf, stem ++ old = pre ++ old ++ suf -> suf = []) ->
  replace old new (stem ++ old) = stem ++ new.
Proof.
  intros Hold. unfold replace.
  induction stem as [|c stem IH]; intros Honly.
  - destruct old as [|c old]; [congruence|]. simpl app.
    cbn [replace_from]. rewrite startswith_refl.
    rewrite replace_from_skip by (simpl; lia).
    apply app_nil_r.
  - change ((c :: stem) ++ old) with (c :: (stem ++ old)).
    cbn [replace_from].
    destruct (startswith old (c :: stem ++ old)) eqn:E.
    + apply startswith_spec in E as (suf & E).
      pose proof (Honly [] suf E) as ->.
      apply (f_equal (@length N)) in E.
      rewrite app_nil_r in E. simpl in E. rewrite length_app in E. lia.
    + simpl. f_equal. apply IH. intros pre suf H.
      apply (Honly (c :: pre) suf). simpl. f_equal. exact H.
Qed.

Section Cache.
Context {C : Collaborators}.
Variables (self : UNetDataset) (video_path : pystr).
Local Abbreviation key := (mel_cache_path self video_path).

Lemma original_mel_of_hit (w : process) m :
  cache w !! key = Some (Pickled m) ->
  original_mel_of self video_path w = Ret m w.
Proof.
  intros H. unfold original_mel_of, bind, os_path_isfile, gets.
  rewrite bool_decide_eq_true_2 by (rewrite H; eauto).
  unfold try_except, torch_load. rewrite H. reflexivity.
Qed.

Lemma original_mel_of_corrupt (w : process) :
  cache w !! key = Some Unreadable ->
  original_mel_of self video_path w
  = match read_audio self video_path with
    | inr m =>
        Ret m (World (rng w) (<[key := Pickled m]> (delete key (cache w)))
                 (stdout w ++ [(LibraryError 0, key)]))
    | inl e =>
        Raise e (World (rng w) (delete key (cache w))
                   (stdout w ++ [(LibraryError 0, key)]))
    end.
Proof.
  intros H. unfold original_mel_of, bind, os_path_isfile, gets.
  rewrite bool_decide_eq_true_2 by (rewrite H; eauto).
  unfold try_except, torch_load. rewrite H.
  unfold print, modify, os_remove. simpl. rewrite H.
  destruct (read_audio self video_path) as [e|m]; reflexivity.
Qed.

Lemma original_mel_of_miss (w : process) :
  cache w !! key = None ->
  original_mel_of self video_path w
  = match read_audio self video_path with
    | inr m => Ret m (World (rng w) (<[key := Pickled m]> (cache w)) (stdout w))
    | inl e => Raise e w
    end.
Proof.
  intros H. unfold original_mel_of, bind, os_path_isfile, gets.
  rewrite bool_decide_eq_false_2
    by (rewrite H; intros [? ?]; discriminate).
  destruct (read_audio self video_path) as [e|m]; reflexivity.
Qed.

(** Whatever path was taken, the spectrogram returned is the one the cache
    file now holds. *)
Lemma original_mel_of_persisted (w w' : process) m :
  original_mel_of self video_path w = Ret m w' ->
  cache w' !! key = Some (Pickled m).
Proof.
  destruct (cache w !! key) as [[m0|]|] eqn:E.
  - rewrite (original_mel_of_hit w m0 E). intros H. inversion H. subst.
    exact E.
  - rewrite (original_mel_of_corrupt w E).
    destruct (read_audio self video_path) as [e|m1]; [discriminate|].
    intros H. inversion H. subst. simpl. apply lookup_insert_eq.
  - rewrite (original_mel_of_miss w E).
    destruct (read_audio self video_path) as [e|m1]; [discriminate|].
    intros H. inversion H. subst. simpl. apply lookup_insert_eq.
Qed.
End Cache.

(** C9 (as amended).  The cache key of a video is the cache directory
    joined with the base name of the video in which every occurrence of
    [.mp4] is replaced by [_mel.pt]; for a base name [stem.mp4] that holds
    [.mp4] nowhere else, this is [stem_mel.pt].  At that key: a file that
    loads is returned and nothing changes; a file that does not load is
    reported and deleted, and the spectrogram is computed from the video's
    audio and saved; with no file the spectrogram is computed and saved; a
    failure to compute is raised after the deletion.  The spectrogram
    returned is the content of the cache file afterwards, and the next call
    returns it from there. *)
Theorem spectrogram_cache_protocol {C : Collaborators}
    (self : UNetDataset) (video_path : pystr) (w : process) :
  let key :=
    path_join (audio_mel_cache_dir self)
      (replace (py ".mp4") (py "_mel.pt") (basename video_path)) in
  mel_cache_path self video_path = key
  /\ (forall stem,
        basename video_path = stem ++ py ".mp4" ->
        (forall pre suf,
           stem ++ py ".mp4" = pre ++ py ".mp4" ++ suf -> suf = []) ->
        key = path_join (audio_mel_cache_dir self) (stem ++ py "_mel.pt"))
  /\ original_mel_of self video_path w
     = match cache w !! key, read_audio self video_path with
       | Some (Pickled m), _ => Ret m w
       | Some Unreadable, inr m =>
           Ret m (World (rng w) (<[key := Pickled m]> (delete key (cache w)))
                    (stdout w ++ [(LibraryError 0, key)]))
       | Some Unreadable, inl e =>
           Raise e (World (rng w) (delete key (cache w))
                      (stdout w ++ [(LibraryError 0, key)]))
       | None, inr m =>
           Ret m (World (rng w) (<[key := Pickled m]> (cache w)) (stdout w))
       | None, inl e => Raise e w
       end
  /\ (forall m w',
        original_mel_of self video_path w = Ret m w' ->
        cache w' !! key = Some (Pickled m)
        /\ original_mel_of self video_path w' = Ret m w').
Proof.
  intros key. split; [reflexivity|]. split; [|split].
  - intros stem Hb Honly. unfold key. rewrite Hb.
    rewrite replace_only_suffix; [reflexivity | discriminate | exact Honly].
  - destruct (cache w !! key) as [[m0|]|] eqn:E.
    + apply original_mel_of_hit. exact E.
    + apply original_mel_of_corrupt. exact E.
    + apply original_mel_of_miss. exact E.
  - intros m w' H.
    pose proof (original_mel_of_persisted self video_path w w' m H) as Hc.
    split; [exact Hc|]. apply original_mel_of_hit. exact Hc.
Qed.

(** C9 as stated fails on a base name that holds [.mp4] twice: the key is
    not the base name with its extension replaced. *)
Lemma cache_key_not_extension_swap :
  let self := Studio.dataset [py "d/a.mp4.mp4"] 5 16 true in
  mel_cache_path self (py "d/a.mp4.mp4") = py "cache/a_mel.pt_mel.pt"
  /\ path_join (audio_mel_cache_dir self)
       (replace_extension (py ".mp4") (py "_mel.pt")
          (basename (py "d/a.mp4.mp4")))
     = py "cache/a.mp4_mel.pt"
  /\ mel_cache_path self (py "d/a.mp4.mp4")
     <> path_join (audio_mel_cache_dir self)
          (replace_extension (py ".mp4") (py "_mel.pt")
             (basename (py "d/a.mp4.mp4"))).
Proof.
  split; [vm_compute; reflexivity|].
  split; [vm_compute; reflexivity|].
  vm_compute. discriminate.
Qed.

(** The three paths of the protocol on the test double: a cold cache, the
    warm cache, and a cache file that does not load. *)
Lemma spectrogram_cache_protocol_witness :
  let self := Studio.dataset [Studio.a_mp4] 5 16 true in
  let key := py "cache/a_mel.pt" in
  let cold := Studio.fresh [] in
  let warm := World (rng cold) (<[key := Pickled (seqZ 0 200)]> ∅) [] in
  let torn := World (rng cold) (<[key := Unreadable]> ∅) [] in
  mel_cache_path self Studio.a_mp4 = key
  /\ original_mel_of self Studio.a_mp4 cold = Ret (seqZ 0 200) warm
  /\ original_mel_of self Studio.a_mp4 warm = Ret (seqZ 0 200) warm
  /\ exists healed,
      original_mel_of self Studio.a_mp4 torn = Ret (seqZ 0 200) healed
      /\ cache healed !! key = Some (Pickled (seqZ 0 200))
      /\ stdout healed = [(LibraryError 0, key)].
Proof.
  intros self key cold warm torn.
  split; [vm_compute; reflexivity|].
  split; [vm_compute; reflexivity|].
  split; [vm_compute; reflexivity|].
  eexists. split; [vm_compute; reflexivity|].
  split; [|reflexivity].
  refine (proj1 (proj2 (proj2 (proj2
    (spectrogram_cache_protocol (C := Studio.collaborators)
       self Studio.a_mp4 torn))) _ _ _)).
  vm_compute. reflexivity.
Defined.

(** ** The retry loop *)

Lemma post_intro {S A} (m : M S A) s (Q : A -> S -> Prop) (E : exn -> S -> Prop) :
  (forall a s', m s = Ret a s' -> Q a s') ->
  (forall e s', m s = Raise e s' -> E e s') ->
  post m s Q E.
Proof. unfold post. destruct (m s); auto. Qed.

Lemma post_Ret {S A} (m : M S A) s Q E a s' :
  post m s Q E -> m s = Ret a s' -> Q a s'.
Proof. unfold post. intros H Hm. rewrite Hm in H. exact H. Qed.

Lemma post_Raise {S A} (m : M S A) s Q E e s' :
  post m s Q E -> m s = Raise e s' -> E e s'.
Proof. unfold post. intros H Hm. rewrite Hm in H. exact H. Qed.

Lemma post_bind {S A B} (m : M S A) (k : A -> M S B) s Q E :
  post m s (fun a s' => post (k a) s' Q E) E -> post (bind m k) s Q E.
Proof. unfold post, bind. destruct (m s); auto. Qed.

Lemma post_ret {S A} (a : A) (s : S) (Q : A -> S -> Prop) E :
  Q a s -> post (ret a) s Q E.
Proof. auto. Qed.

Lemma post_call {S A} (r : raises A) (s : S) (Q : A -> S -> Prop)
    (E : exn -> S -> Prop) :
  (forall a, r = inr a -> Q a s) -> (forall e, r = inl e -> E e s) ->
  post (call r) s Q E.
Proof. destruct r; unfold post, call, ret, throw; auto. Qed.

Lemma post_weaken {S A} (m : M S A) s (Q Q' : A -> S -> Prop)
    (E E' : exn -> S -> Prop) :
  post m s Q E ->
  (forall a s', Q a s' -> Q' a s') -> (forall e s', E e s' -> E' e s') ->
  post m s Q' E'.
Proof. unfold post. destruct (m s); auto. Qed.

Section Loop.
Context {C : Collaborators}.
Variables (self : UNetDataset) (image_processor : ImageProcessor).
Local Abbreviation N := (num_frames self).

Lemma post_global {A} (m : M process A) (a : activation) Q E :
  post m (glob a)
    (fun x w => Q x (Activation (vars a) w))
    (fun e w => E e (Activation (vars a) w)) ->
  post (global m) a Q E.
Proof. unfold post, global, zoom. destruct (m (glob a)); auto. Qed.

Lemma post_assign f (a : activation) (Q : unit -> activation -> Prop) E :
  Q tt (Activation (f (vars a)) (glob a)) -> post (assign f) a Q E.
Proof. auto. Qed.

Lemma getitem_list_inr {A} (xs : list A) i x :
  getitem_list xs i = inr x ->
  xs !! Z.to_nat (if i <? 0 then i + Z.of_nat (length xs) else i) = Some x.
Proof.
  unfold getitem_list.
  destruct (_ || _); [discriminate|].
  destruct (xs !! _) eqn:E; [|discriminate]. intros H. inversion H. subst.
  reflexivity.
Qed.

Lemma getitem_list_in_range {A} (xs : list A) i :
  0 <= i < Z.of_nat (length xs) ->
  exists x, getitem_list xs i = inr x /\ xs !! Z.to_nat i = Some x.
Proof.
  intros H. unfold getitem_list.
  destruct (i <? 0) eqn:E0; [apply Z.ltb_lt in E0; lia|].
  destruct (_ || _) eqn:E1.
  - apply orb_true_iff in E1 as [E1|E1];
      [apply Z.ltb_lt in E1 | apply Z.leb_le in E1]; lia.
  - destruct (lookup_lt_is_Some_2 xs (Z.to_nat i)) as [x Hx]; [lia|].
    rewrite Hx. eauto.
Qed.

(** The audio branch keeps what the sample needs of it. *)
Lemma audio_window_Ret video_path s (w w' : process) mel :
  audio_window self video_path s w = Ret (Some mel) w' ->
  if load_audio_data self
  then exists original_mel window,
         crop_audio_window self original_mel s = inr [window]
         /\ mel = Sample.Tensor [window]
         /\ Z.of_nat (length window) = mel_window_length self
  else mel = Sample.EmptyList.
Proof.
  unfold audio_window. destruct (load_audio_data self).
  - intros H. apply bind_Ret in H as (original_mel & w1 & _ & H).
    apply bind_Ret in H as (t & w2 & Hc & H).
    apply call_Ret in Hc as (Hc & ->).
    destruct (shape_last t =? mel_window_length self) eqn:E;
      simpl in H; [|discriminate].
    inversion H; subst; clear H. apply Z.eqb_eq in E.
    pose proof Hc as Hc'. unfold crop_audio_window in Hc'.
    destruct (crop_start self s) as [e|c]; [discriminate|]. simpl in Hc'.
    inversion Hc' as [Ht]. rewrite <- Ht in E. simpl in E.
    exists original_mel, (slice original_mel c (c + mel_window_length self)).
    rewrite Hc, <- Ht. auto.
  - intros H. inversion H. reflexivity.
Qed.

(** What one pass through the [try] body leaves behind, and what it
    returns. *)
Lemma try_body_post fuel (a : activation) :
  video_paths self <> [] ->
  post (try_body fuel self image_processor) a
    (fun r a' =>
       tried self a a'
       /\ match r with
          | Some sample => sample_ok self image_processor sample
          | None => True
          end)
    (fun _ a' => tried self a a').
Proof.
  intros Hne.
  assert (Hlen : 1 <= __len__ self).
  { unfold __len__. destruct (video_paths self); [congruence|]. simpl. lia. }
  unfold try_body.
  apply post_bind, post_global. unfold post at 1.
  rewrite randint_total by lia.
  set (idx := draw_of 0 (__len__ self - 1) (rng (glob a) 0%nat)).
  assert (Hidx : 0 <= idx < __len__ self)
    by (pose proof (draw_of_range 0 (__len__ self - 1) (rng (glob a) 0%nat));
        unfold idx; lia).
  set (w1 := set_rng _ (glob a)).
  apply post_bind, post_assign. cbn [vars glob].
  destruct (getitem_list_in_range (video_paths self) idx Hidx)
    as (video_path & Hget & Hlook).
  apply post_bind. rewrite Hget. apply post_ret.
  apply post_bind, post_assign. cbn [vars glob l_idx l_video_path l_vr].
  assert (Htried : forall v w,
            tried self a (Activation (Locals idx (Some video_path) v) w)).
  { intros v w. unfold tried. cbn. rewrite Hlook. fold idx. eauto. }
  apply post_bind, post_call; [|intros e _; apply Htried].
  intros vr Hvr.
  apply post_bind, post_assign. cbn [vars glob l_idx l_video_path l_vr].
  destruct (vr_len vr <? 3 * N) eqn:Elen; [apply post_ret; auto|].
  apply Z.ltb_ge in Elen.
  apply post_bind, post_global, post_intro; [|intros e w2 _; apply Htried].
  intros [[continuous_frames ref_frames] s] w2 Hfr. cbn [vars glob].
  apply post_bind, post_global, post_intro; [|intros e w3 _; apply Htried].
  intros [mel|] w3 Hmel;
    [|apply post_ret; cbn [vars glob]; split; [apply Htried | exact I]].
  cbn [vars glob].
  apply post_bind, post_call; [|intros e _; apply Htried].
  intros [[gt masked_gt] mask'] Hpos.
  apply post_bind, post_call; [|intros e _; apply Htried].
  intros ref Href.
  apply post_bind, post_call; [|intros e _; apply Htried].
  intros [] Hseek. apply post_ret. split; [apply Htried|].
  pose proof (audio_window_Ret _ _ _ _ _ Hmel) as Hmel'.
  apply get_frames_Ret in Hfr as (fi & wfi & w1' & Hs & Hf & Hw).
  apply sample_windows_Ret in Hs as (Hr & -> & ws & _ & Hacc & ->).
  apply too_close_false in Hacc.
  exists idx, vr, ws, continuous_frames, ref_frames.
  cbn [Sample.start_idx Sample.video_path Sample.gt Sample.masked_gt
       Sample.mask Sample.ref Sample.mel].
  split_and!; try assumption; try lia.
Qed.


(** A failure in the [try] body is handled: it is printed with the path
    that was being tried, and the iteration ends without a sample.  Only
    [vr.seek(0)] of the handler itself can make the iteration raise. *)
Lemma attempt_after_failure fuel (a a1 : activation) e :
  video_paths self <> [] ->
  try_body fuel self image_processor a = Raise e a1 ->
  exists p,
    l_video_path (vars a1) = Some p
    /\ video_paths self !! Z.to_nat (l_idx (vars a1)) = Some p
    /\ let a2 := Activation (vars a1)
                   (set_stdout (stdout (glob a1) ++ [(e, p)]) (glob a1)) in
       attempt fuel self image_processor a
       = match l_vr (vars a1) with
         | Some vr =>
             match vr_seek vr 0 with
             | inr _ => Ret None a2
             | inl e' => Raise e' a2
             end
         | None => Ret None a2
         end.
Proof.
  intros Hne H.
  pose proof (post_Raise _ _ _ _ _ _ (try_body_post fuel a Hne) H)
    as (_ & _ & [p Hp] & Hlook).
  exists p. split; [exact Hp|]. split; [congruence|].
  unfold attempt, try_except. rewrite H.
  unfold bind, handler, bind, gets. rewrite Hp.
  unfold global, zoom, print, modify. cbn [vars glob].
  destruct (l_vr (vars a1)) as [vr|]; [|reflexivity].
  unfold call. destruct (vr_seek vr 0) as [e'|[]]; reflexivity.
Qed.

Lemma attempt_post fuel (a : activation) :
  video_paths self <> [] ->
  post (attempt fuel self image_processor) a
    (fun r _ => match r with
                | Some sample => sample_ok self image_processor sample
                | None => True
                end)
    (fun e _ => exists vr, vr_seek vr 0 = inl e).
Proof.
  intros Hne. apply post_intro.
  - intros r a' H. unfold attempt, try_except in H.
    destruct (try_body fuel self image_processor a) as [r0 a0|e a0|] eqn:E;
      [| |discriminate].
    + inversion H; subst.
      exact (proj2 (post_Ret _ _ _ _ _ _ (try_body_post fuel a Hne) E)).
    + unfold bind in H. destruct (handler e a0); inversion H. exact I.
  - intros e a' H. pose proof H as H'. unfold attempt, try_except in H'.
    destruct (try_body fuel self image_processor a) as [r0 a0|e0 a0|] eqn:E;
      try discriminate.
    destruct (attempt_after_failure fuel a a0 e0 Hne E) as (p & _ & _ & Ha).
    cbv zeta in Ha. rewrite Ha in H.
    destruct (l_vr (vars a0)) as [vr|]; [|discriminate].
    destruct (vr_seek vr 0) as [e'|] eqn:Es; [|discriminate].
    inversion H; subst. eauto.
Qed.

Lemma retry_loop_post fuel (a : activation) :
  video_paths self <> [] ->
  post (retry_loop fuel self image_processor) a
    (fun sample _ => sample_ok self image_processor sample)
    (fun e _ => exists vr, vr_seek vr 0 = inl e).
Proof.
  intros Hne. revert a. induction fuel as [|fuel IH]; intros a; [exact I|].
  cbn [retry_loop]. apply post_bind.
  eapply post_weaken; [apply (attempt_post fuel a Hne)| |auto].
  intros [sample|] a' H; [exact H | apply IH].
Qed.

(** The argument [idx] is overwritten before it is read: runs from
    activations that differ in it only end alike. *)
Lemma outcome_same_refl {A} (x : outcome activation A) :
  outcome_same_but_idx x x.
Proof. destruct x; simpl; unfold same_but_idx; auto. Qed.

Lemma try_body_same_but_idx fuel (a b : activation) :
  same_but_idx a b ->
  outcome_same_but_idx (try_body fuel self image_processor a)
                       (try_body fuel self image_processor b).
Proof.
  destruct a as [[ia pa va] wa], b as [[ib pb vb] wb].
  unfold same_but_idx. cbn. intros (-> & -> & ->).
  unfold try_body, bind, global, zoom, assign, modify.
  cbn [glob vars l_idx l_video_path l_vr].
  destruct (randint 0 (__len__ self - 1) wb) as [idx w1|e w1|].
  - apply outcome_same_refl.
  - cbn. unfold same_but_idx. auto.
  - exact I.
Qed.

Lemma handler_same_but_idx e (a b : activation) :
  same_but_idx a b ->
  outcome_same_but_idx (handler e a) (handler e b).
Proof.
  destruct a as [[ia pa va] wa], b as [[ib pb vb] wb].
  unfold same_but_idx. cbn. intros (-> & -> & ->).
  unfold handler, bind, gets, global, zoom, print, modify, throw. cbn.
  destruct pb as [p|]; cbn; [|unfold same_but_idx; auto].
  destruct vb as [vr|]; cbn; [|unfold same_but_idx; auto].
  unfold call. destruct (vr_seek vr 0); cbn; unfold same_but_idx; auto.
Qed.

Lemma attempt_same_but_idx fuel (a b : activation) :
  same_but_idx a b ->
  outcome_same_but_idx (attempt fuel self image_processor a)
                       (attempt fuel self image_processor b).
Proof.
  intros H. pose proof (try_body_same_but_idx fuel a b H) as Hb.
  unfold attempt, try_except.
  destruct (try_body fuel self image_processor a) as [r a'|e a'|];
    destruct (try_body fuel self image_processor b) as [r' b'|e' b'|];
    simpl in Hb; try contradiction; auto.
  destruct Hb as [-> Hab]. unfold bind.
  pose proof (handler_same_but_idx e' a' b' Hab) as Hh.
  destruct (handler e' a'); destruct (handler e' b'); simpl in Hh;
    try contradiction; auto.
  simpl. tauto.
Qed.

Lemma retry_loop_same_but_idx fuel (a b : activation) :
  same_but_idx a b ->
  outcome_same_but_idx (retry_loop fuel self image_processor a)
                       (retry_loop fuel self image_processor b).
Proof.
  revert a b. induction fuel as [|fuel IH]; intros a b H; [exact I|].
  cbn [retry_loop]. unfold bind.
  pose proof (attempt_same_but_idx fuel a b H) as Ha.
  destruct (attempt fuel self image_processor a) as [r a'|e a'|];
    destruct (attempt fuel self image_processor b) as [r' b'|e' b'|];
    simpl in Ha; try contradiction; auto.
  destruct Ha as [-> Hab]. destruct r' as [sample|]; [simpl; auto|].
  apply IH. exact Hab.
Qed.

End Loop.

(** ** More fuel changes no result *)

Lemma extends_refl {S A} (m : M S A) : extends m m.
Proof. intros s _. reflexivity. Qed.

Lemma extends_bind {S A B} (m m' : M S A) (k k' : A -> M S B) :
  extends m m' -> (forall a, extends (k a) (k' a)) ->
  extends (bind m k) (bind m' k').
Proof.
  intros Hm Hk s H. unfold bind in *.
  destruct (m s) as [a s1|e s1|] eqn:E; [| |congruence].
  - rewrite (Hm s) by congruence. rewrite E. apply Hk. exact H.
  - rewrite (Hm s) by congruence. rewrite E. reflexivity.
Qed.

Lemma extends_zoom {S W A} (g : S -> W) (st : W -> S -> S) (m m' : M W A) :
  extends m m' -> extends (zoom g st m) (zoom g st m').
Proof.
  intros Hm s H. unfold zoom in *.
  destruct (m (g s)) as [a w|e w|] eqn:E; [| |congruence];
    rewrite (Hm (g s)) by congruence; rewrite E; reflexivity.
Qed.

Lemma extends_try_except {S A} (m m' : M S A) (h : exn -> M S A) :
  extends m m' -> extends (try_except m h) (try_except m' h).
Proof.
  intros Hm s H. unfold try_except in *.
  destruct (m s) as [a w|e w|] eqn:E; [| |congruence];
    rewrite (Hm s) by congruence; rewrite E; reflexivity.
Qed.

Section Fuel.
Context {C : Collaborators}.
Variables (self : UNetDataset) (image_processor : ImageProcessor).

Lemma wrong_window_extends fuel fuel' T s :
  (fuel <= fuel')%nat ->
  extends (wrong_window fuel self T s) (wrong_window fuel' self T s).
Proof.
  revert fuel'. induction fuel as [|fuel IH]; intros fuel' Hle.
  - intros w H. exfalso. apply H. reflexivity.
  - destruct fuel' as [|fuel']; [lia|]. cbn [wrong_window].
    apply extends_bind; [apply extends_refl|].
    intros ws. destruct (too_close self s ws); [|apply extends_refl].
    apply IH. lia.
Qed.

Lemma get_frames_extends fuel fuel' vr :
  (fuel <= fuel')%nat ->
  extends (get_frames fuel self vr) (get_frames fuel' self vr).
Proof.
  intros Hle. unfold get_frames, sample_windows.
  apply extends_bind; [|intros; apply extends_refl].
  apply extends_bind; [apply extends_refl|]. intros s.
  apply extends_bind; [|intros; apply extends_refl].
  apply wrong_window_extends. exact Hle.
Qed.

Lemma try_body_extends fuel fuel' :
  (fuel <= fuel')%nat ->
  extends (try_body fuel self image_processor)
          (try_body fuel' self image_processor).
Proof.
  intros Hle. unfold try_body.
  repeat (apply extends_bind; [apply extends_refl|]; intros ?).
  destruct (_ <? _); [apply extends_refl|].
  apply extends_bind; [|intros; apply extends_refl].
  apply extends_zoom, get_frames_extends. exact Hle.
Qed.

Lemma attempt_extends fuel fuel' :
  (fuel <= fuel')%nat ->
  extends (attempt fuel self image_processor)
          (attempt fuel' self image_processor).
Proof.
  intros Hle. apply extends_try_except, try_body_extends. exact Hle.
Qed.

Lemma retry_loop_extends fuel fuel' :
  (fuel <= fuel')%nat ->
  extends (retry_loop fuel self image_processor)
          (retry_loop fuel' self image_processor).
Proof.
  revert fuel'. induction fuel as [|fuel IH]; intros fuel' Hle.
  - intros w H. exfalso. apply H. reflexivity.
  - destruct fuel' as [|fuel']; [lia|]. cbn [retry_loop].
    apply extends_bind; [apply attempt_extends; lia|].
    intros [sample|]; [apply extends_refl | apply IH; lia].
Qed.

End Fuel.

Lemma getitem_extends {C : Collaborators} (self : UNetDataset) fuel fuel' idx :
  (fuel <= fuel')%nat ->
  extends (__getitem__ fuel self idx) (__getitem__ fuel' self idx).
Proof.
  intros Hle w H. unfold __getitem__ in *.
  destruct (image_processors self !! worker_id self) as [ip|];
    [|reflexivity].
  pose proof (retry_loop_extends self ip fuel fuel' Hle
                (Activation (Locals idx None None) w)) as Hx.
  destruct (retry_loop fuel self ip _) as [r a|e a|] eqn:E; [| |congruence];
    rewrite Hx by congruence; reflexivity.
Qed.

(** ** [__getitem__] *)

Lemma getitem_post {C : Collaborators} (self : UNetDataset) ip fuel idx w :
  video_paths self <> [] ->
  image_processors self !! worker_id self = Some ip ->
  post (__getitem__ fuel self idx) w
    (fun sample _ => sample_ok self ip sample)
    (fun e _ => exists vr, vr_seek vr 0 = inl e).
Proof.
  intros Hne Hip. unfold post, __getitem__. rewrite Hip.
  pose proof (retry_loop_post self ip fuel
                (Activation (Locals idx None None) w) Hne) as H.
  unfold post in H. destruct (retry_loop fuel self ip _); exact H.
Qed.

(** C3 (as amended).  On a dataset with at least one path, whose decoder's
    [seek(0)] does not raise, no exception leaves [__getitem__]: a call
    returns a sample built by one complete pass through the loop body, or
    is still retrying.  A failure in the body is printed with the path that
    was tried, and the next pass draws its index afresh from
    [0 .. len - 1]: the next draw of the generator, whatever index failed.
    The first pass that completes ends the call with its sample, and a
    sample returned with some fuel is returned with any more. *)
Theorem retry_loop_contains_failures {C : Collaborators}
    (self : UNetDataset) (ip : ImageProcessor) :
  video_paths self <> [] ->
  image_processors self !! worker_id self = Some ip ->
  (forall vr, vr_seek vr 0 = inr tt) ->
  (forall fuel idx w,
     match __getitem__ fuel self idx w with
     | Ret sample _ => sample_ok self ip sample
     | Raise _ _ => False
     | Stall => True
     end)
  /\ (forall fuel a e a1,
        try_body fuel self ip a = Raise e a1 ->
        exists p,
          video_paths self !! Z.to_nat (l_idx (vars a1)) = Some p
          /\ l_idx (vars a1)
             = draw_of 0 (__len__ self - 1) (rng (glob a) 0%nat)
          /\ let a2 := Activation (vars a1)
                         (set_stdout (stdout (glob a1) ++ [(e, p)]) (glob a1)) in
             attempt fuel self ip a = Ret None a2
             /\ retry_loop (S fuel) self ip a = retry_loop fuel self ip a2
             /\ forall fuel' a3,
                  ((exists r, try_body fuel' self ip a2 = Ret r a3)
                   \/ (exists e', try_body fuel' self ip a2 = Raise e' a3)) ->
                  l_idx (vars a3)
                  = draw_of 0 (__len__ self - 1) (rng (glob a1) 0%nat)
                  /\ 0 <= l_idx (vars a3) < __len__ self)
  /\ (forall fuel a sample a',
        try_body fuel self ip a = Ret (Some sample) a' ->
        retry_loop (S fuel) self ip a = Ret sample a')
  /\ (forall fuel fuel' idx w sample w',
        (fuel <= fuel')%nat ->
        __getitem__ fuel self idx w = Ret sample w' ->
        __getitem__ fuel' self idx w = Ret sample w').
Proof.
  intros Hne Hip Hseek. split; [|split; [|split]].
  - intros fuel idx w. pose proof (getitem_post self ip fuel idx w Hne Hip) as H.
    unfold post in H. destruct (__getitem__ fuel self idx w) as [r s|e s|]; auto.
    destruct H as [vr H]. rewrite Hseek in H. discriminate.
  - intros fuel a e a1 H.
    destruct (attempt_after_failure self ip fuel a a1 e Hne H)
      as (p & Hp & Hlook & Ha).
    pose proof (post_Raise _ _ _ _ _ _ (try_body_post self ip fuel a Hne) H)
      as (Hidx & _).
    exists p. split; [exact Hlook|]. split; [exact Hidx|].
    cbv zeta in Ha |- *.
    assert (Ha' : attempt fuel self ip a
                  = Ret None (Activation (vars a1)
                      (set_stdout (stdout (glob a1) ++ [(e, p)]) (glob a1)))).
    { rewrite Ha. destruct (l_vr (vars a1)) as [vr|]; [|reflexivity].
      rewrite Hseek. reflexivity. }
    split; [exact Ha'|]. split.
    + cbn [retry_loop]. unfold bind. rewrite Ha'. reflexivity.
    + intros fuel' a3 [[r Hr]|[e' Hr]].
      * destruct (post_Ret _ _ _ _ _ _ (try_body_post self ip fuel' _ Hne) Hr)
          as ((H1 & H2 & _) & _). auto.
      * destruct (post_Raise _ _ _ _ _ _ (try_body_post self ip fuel' _ Hne) Hr)
          as (H1 & H2 & _). auto.
  - intros fuel a sample a' H. cbn [retry_loop].
    unfold bind, attempt, try_except. rewrite H. reflexivity.
  - intros fuel fuel' idx w sample w' Hle H.
    rewrite (getitem_extends self fuel fuel' idx Hle w); [exact H|].
    rewrite H. discriminate.
Qed.

(** C3 as stated fails: after a failure the loop may try the failing index
    again.  On the dataset [bad.mp4; a.mp4] the first pass tries index 0
    and fails, and so does the second; the third tries index 1. *)
Lemma retry_repeats_failing_index :
  let self := Studio.dataset [Studio.bad_mp4; Studio.a_mp4] 5 16 false in
  let ip := tt : @ImageProcessor Studio.collaborators in
  let a0 := Activation (Locals 7 None None) (Studio.fresh [0; 0; 1; 10; 40]) in
  exists a1 a2 a3 a4 sample,
    try_body 5 self ip a0 = Raise (LibraryError 2) a1
    /\ l_idx (vars a1) = 0
    /\ attempt 5 self ip a0 = Ret None a2
    /\ try_body 5 self ip a2 = Raise (LibraryError 2) a3
    /\ l_idx (vars a3) = l_idx (vars a1)
    /\ retry_loop 5 self ip a0 = Ret sample a4
    /\ Sample.video_path sample = Studio.a_mp4
    /\ stdout (glob a4)
       = [(LibraryError 2, Studio.bad_mp4); (LibraryError 2, Studio.bad_mp4)].
Proof.
  intros self ip a0.
  eexists _, _, _, _, _.
  split; [vm_compute; reflexivity|].
  split; [reflexivity|].
  split; [vm_compute; reflexivity|].
  split; [vm_compute; reflexivity|].
  split; [reflexivity|].
  split; [vm_compute; reflexivity|].
  split; vm_compute; reflexivity.
Qed.

(** C3 on the test double: two failures on [bad.mp4], then a sample of
    [a.mp4]. *)
Lemma retry_loop_contains_failures_witness :
  let self := Studio.dataset [Studio.bad_mp4; Studio.a_mp4] 5 16 false in
  let ip := tt : @ImageProcessor Studio.collaborators in
  (video_paths self <> []
   /\ image_processors self !! worker_id self = Some ip
   /\ forall vr, vr_seek (Collaborators := Studio.collaborators) vr 0 = inr tt)
  /\ exists sample w',
      __getitem__ 5 self 7 (Studio.fresh [0; 0; 1; 10; 40]) = Ret sample w'
      /\ sample_ok self ip sample
      /\ Sample.video_path sample = Studio.a_mp4
      /\ __getitem__ 9 self 7 (Studio.fresh [0; 0; 1; 10; 40]) = Ret sample w'.
Proof.
  intros self ip.
  assert (H1 : video_paths self <> []) by discriminate.
  assert (H2 : image_processors self !! worker_id self = Some ip)
    by (vm_compute; reflexivity).
  assert (H3 : forall vr,
             vr_seek (Collaborators := Studio.collaborators) vr 0 = inr tt)
    by reflexivity.
  split; [auto|].
  pose proof (retry_loop_contains_failures self ip H1 H2 H3)
    as (Hok & _ & _ & Hmono).
  specialize (Hok 5%nat 7 (Studio.fresh [0; 0; 1; 10; 40])).
  destruct (__getitem__ 5 self 7 (Studio.fresh [0; 0; 1; 10; 40]))
    as [sample w'|e w'|] eqn:E.
  - exists sample, w'. split; [reflexivity|]. split; [exact Hok|].
    split.
    + assert (Hp : match __getitem__ 5 self 7 (Studio.fresh [0; 0; 1; 10; 40])
                   with Ret s _ => Sample.video_path s = Studio.a_mp4
                      | _ => False end) by (vm_compute; reflexivity).
      rewrite E in Hp. exact Hp.
    + apply (Hmono 5%nat 9%nat); [lia | exact E].
  - contradiction.
  - exfalso.
    assert (Hp : __getitem__ 5 self 7 (Studio.fresh [0; 0; 1; 10; 40]) <> Stall)
      by (vm_compute; discriminate).
    congruence.
Defined.

(** C8.  The argument [idx] of [__getitem__] has no influence: from the
    same process state (generator, cache files, output) two calls with
    different arguments end alike, with the same sample and state.  The
    index a pass of the loop tries is the next draw of the generator
    reduced to [0 .. len - 1], whatever the local [idx] held before. *)
Theorem getitem_ignores_index {C : Collaborators} (self : UNetDataset) :
  (forall (fuel : nat) (i j : Z) (w : process),
     __getitem__ fuel self i w = __getitem__ fuel self j w)
  /\ (forall fuel ip (a a' : activation),
        video_paths self <> [] ->
        (exists r, try_body fuel self ip a = Ret r a')
        \/ (exists e, try_body fuel self ip a = Raise e a') ->
        l_idx (vars a')
        = draw_of 0 (__len__ self - 1) (rng (glob a) 0%nat)
        /\ 0 <= l_idx (vars a') < __len__ self).
Proof.
  split.
  - intros fuel i j w. unfold __getitem__.
    destruct (image_processors self !! worker_id self) as [ip|];
      [|reflexivity].
    pose proof (retry_loop_same_but_idx self ip fuel
                  (Activation (Locals i None None) w)
                  (Activation (Locals j None None) w)) as H.
    destruct (retry_loop fuel self ip (Activation (Locals i None None) w));
      destruct (retry_loop fuel self ip (Activation (Locals j None None) w));
      simpl in H; unfold same_but_idx in H;
      try (exfalso; apply H; cbn; auto; fail);
      try reflexivity.
    + destruct H as (-> & -> & _); [cbn; auto|reflexivity].
    + destruct H as (-> & -> & _); [cbn; auto|reflexivity].
  - intros fuel ip a a' Hne [[r Hr]|[e Hr]].
    + destruct (post_Ret _ _ _ _ _ _ (try_body_post self ip fuel a Hne) Hr)
        as ((H1 & H2 & _) & _). auto.
    + destruct (post_Raise _ _ _ _ _ _ (try_body_post self ip fuel a Hne) Hr)
        as (H1 & H2 & _). auto.
Qed.

(** C8 on the test double: arguments 0 and 7, same sample. *)
Lemma getitem_ignores_index_witness :
  let self := Studio.dataset [Studio.bad_mp4; Studio.a_mp4] 5 16 true in
  let w := Studio.fresh [0; 1; 10; 40] in
  __getitem__ 5 self 0 w = __getitem__ 5 self 7 w
  /\ exists sample w', __getitem__ 5 self 7 w = Ret sample w'
                       /\ Sample.video_path sample = Studio.a_mp4.
Proof.
  intros self w. split.
  - exact (proj1 (getitem_ignores_index self) 5%nat 0 7 w).
  - eexists _, _. split; vm_compute; reflexivity.
Defined.

(** ** One video of 60 frames, windows of 5, no audio *)

Lemma reference_images_length {C : Collaborators} {FP : FramePreserving C}
    (self : UNetDataset) ip ref_frames ref :
  reference_images self ip ref_frames = inr ref ->
  length ref = length ref_frames.
Proof.
  unfold reference_images. destruct (bool_decide _).
  - intros H. apply and_then_inr in H as ([[g mg] m] & Hp & H).
    inversion H; subst. simpl. eapply prepare_length. exact Hp.
  - apply process_length.
Qed.

(** C4 (as amended).  On a dataset of one video of 60 frames, with
    [num_frames = 5] and audio loading off, every sample [__getitem__]
    returns has [mel] the empty list, 5 frames in [gt] and 5 in [ref], the
    video as its path, and [start_idx] in [2 .. 53]. *)
Theorem single_video_sample {C : Collaborators} {FP : FramePreserving C}
    (self : UNetDataset) (p : pystr) (vr : VideoReader)
    fuel idx w sample w' :
  video_paths self = [p] ->
  num_frames self = 5 ->
  load_audio_data self = false ->
  new_VideoReader p (worker_id self) = inr vr ->
  vr_len vr = 60 ->
  __getitem__ fuel self idx w = Ret sample w' ->
  Sample.mel sample = Sample.EmptyList
  /\ length (Sample.gt sample) = 5%nat
  /\ length (Sample.ref sample) = 5%nat
  /\ 2 <= Sample.start_idx sample <= 53
  /\ Sample.video_path sample = p.
Proof.
  intros Hpaths HN Haudio Hopen Hlen H.
  assert (Hne : video_paths self <> []) by (rewrite Hpaths; discriminate).
  assert (Hok : exists ip, sample_ok self ip sample).
  { pose proof H as H'. unfold __getitem__ in H'.
    destruct (image_processors self !! worker_id self) as [ip|] eqn:Hip;
      [|discriminate].
    exists ip. exact (post_Ret _ _ _ _ _ _ (getitem_post self ip fuel idx w Hne Hip) H). }
  destruct Hok as (ip & i & vr' & ws & frames & ref_frames & Hi & Hlook & Hvr
                   & HT & Hs & Hacc & Hf & Hw & Hpos & Href & Hmel & Hseek).
  rewrite HN in *. rewrite Haudio in Hmel.
  assert (Hp : Sample.video_path sample = p).
  { unfold __len__ in Hi. rewrite Hpaths in Hi, Hlook. simpl in Hi.
    replace (Z.to_nat i) with 0%nat in Hlook by lia.
    simpl in Hlook. congruence. }
  rewrite Hp, Hopen in Hvr. inversion Hvr; subst vr'. rewrite Hlen in Hs.
  apply get_batch_length in Hf, Hw. apply prepare_length in Hpos.
  apply reference_images_length in Href.
  unfold arange in Hf, Hw. rewrite length_seqZ in Hf, Hw.
  change (5 / 2) with 2 in Hs.
  split; [exact Hmel|]. split; [lia|]. split; [lia|]. split; [lia|]. exact Hp.
Qed.

Lemma studio_frame_preserving : FramePreserving Studio.collaborators.
Proof.
  constructor.
  - intros v idxs fr. cbn. unfold Studio.get_batch.
    destruct (forallb _ _); [|discriminate]. intros H. inversion H. reflexivity.
  - intros ip fr aff g mg m. cbn. intros H. inversion H. reflexivity.
  - intros ip fr g. cbn. intros H. inversion H. reflexivity.
Qed.

(** C4 as stated fails: [start_idx = 53] is returned, outside [2 .. 52]. *)
Lemma single_video_start_53 :
  let self := Studio.dataset [Studio.a_mp4] 5 16 false in
  (video_paths self = [Studio.a_mp4]
   /\ num_frames self = 5
   /\ load_audio_data self = false
   /\ new_VideoReader (Collaborators := Studio.collaborators)
        Studio.a_mp4 (worker_id self) = inr 60
   /\ vr_len (Collaborators := Studio.collaborators) 60 = 60)
  /\ exists sample w',
      __getitem__ 3 self 0 (Studio.fresh [0; 51; 0]) = Ret sample w'
      /\ Sample.start_idx sample = 53
      /\ ~ (2 <= Sample.start_idx sample <= 52).
Proof.
  intros self. split; [repeat split; vm_compute; reflexivity|].
  eexists _, _. split; [vm_compute; reflexivity|].
  split; [reflexivity|]. cbn. lia.
Qed.

(** C4 on the test double. *)
Lemma single_video_sample_witness :
  let self := Studio.dataset [Studio.a_mp4] 5 16 false in
  exists sample w',
    __getitem__ 5 self 0 (Studio.fresh [0; 10; 40]) = Ret sample w'
    /\ Sample.mel sample = Sample.EmptyList
    /\ length (Sample.gt sample) = 5%nat
    /\ length (Sample.ref sample) = 5%nat
    /\ 2 <= Sample.start_idx sample <= 53
    /\ Sample.video_path sample = Studio.a_mp4.
Proof.
  intros self. eexists _, _. split; [vm_compute; reflexivity|].
  eapply (single_video_sample (C := Studio.collaborators)
            (FP := studio_frame_preserving) self Studio.a_mp4 60
            5 0 (Studio.fresh [0; 10; 40])).
  - reflexivity.
  - reflexivity.
  - reflexivity.
  - vm_compute. reflexivity.
  - reflexivity.
  - vm_compute. reflexivity.
Defined.

(** ** Python floats: [int(80.0 * (s / float(fps)))]

    The operations of [crop_start] are followed through the binary64
    algorithms: conversion of the two integers, correctly rounded division,
    correctly rounded product by [80.0], truncation. *)

Lemma digits2_pos_size p : digits2_pos p = Pos.size p.
Proof. induction p; simpl; congruence. Qed.

Lemma digits2_pos_bounds p :
  2 ^ (Zpos (digits2_pos p) - 1) <= Zpos p < 2 ^ Zpos (digits2_pos p).
Proof.
  rewrite digits2_pos_size.
  pose proof (Pos.size_gt p) as Hgt. pose proof (Pos.size_le p) as Hle.
  apply Pos2Z.pos_lt_pos in Hgt. apply Pos2Z.pos_le_pos in Hle.
  rewrite Pos2Z.inj_pow in Hgt, Hle.
  replace (Zpos (Pos.size p)) with ((Zpos (Pos.size p) - 1) + 1) in Hle at 1 by lia.
  rewrite Z.pow_add_r in Hle by lia. change (Zpos p~0) with (2 * Zpos p) in Hle.
  lia.
Qed.

Lemma Zdigits2_unique m k :
  0 < m -> 2 ^ (k - 1) <= m < 2 ^ k -> Zdigits2 m = k.
Proof.
  intros Hm [Hlo Hhi]. destruct m as [|p|p]; try lia. simpl.
  pose proof (digits2_pos_bounds p) as [Blo Bhi].
  set (d := Zpos (digits2_pos p)) in *.
  assert (0 < k).
  { destruct (Z_lt_le_dec 0 k); auto. exfalso.
    destruct (Z.eq_dec k 0) as [->|]; [simpl in Hhi; lia|].
    rewrite Z.pow_neg_r in Hhi; lia. }
  destruct (Z_lt_le_dec d k) as [H1|H1].
  - assert (2 ^ d <= 2 ^ (k - 1)) by (apply Z.pow_le_mono_r; lia). lia.
  - destruct (Z_lt_le_dec k d) as [H2|H2]; [|lia].
    assert (2 ^ k <= 2 ^ (d - 1)) by (apply Z.pow_le_mono_r; lia). lia.
Qed.

Lemma shr_1_spec m r s :
  0 <= m ->
  shr_1 (Build_shr_record m r s) = Build_shr_record (m / 2) (Z.odd m) (r || s).
Proof.
  intros Hm. rewrite <- Z.div2_div.
  destruct m as [|p|p]; [reflexivity| |lia].
  destruct p; reflexivity.
Qed.

Lemma iter_pos_nat {A} (f : A -> A) p x :
  SpecFloat.iter_pos f p x = Nat.iter (Pos.to_nat p) f x.
Proof.
  revert x. induction p as [p IH|p IH|]; intros x; cbn [SpecFloat.iter_pos].
  - rewrite !IH, Pos2Nat.inj_xI.
    replace (S (2 * Pos.to_nat p))%nat with (Pos.to_nat p + S (Pos.to_nat p))%nat
      by lia.
    rewrite Nat.iter_add, Nat.iter_succ_r. reflexivity.
  - rewrite !IH, Pos2Nat.inj_xO.
    replace (2 * Pos.to_nat p)%nat with (Pos.to_nat p + Pos.to_nat p)%nat by lia.
    rewrite Nat.iter_add. reflexivity.
  - reflexivity.
Qed.

(** [n + 1] shifts: quotient, round bit and sticky bit of [m / 2 ^ (n + 1)]. *)
Lemma shr_iter n m r s :
  0 <= m ->
  Nat.iter (S n) shr_1 (Build_shr_record m r s)
  = Build_shr_record (m / 2 ^ (Z.of_nat n + 1))
      (2 ^ Z.of_nat n <=? m mod 2 ^ (Z.of_nat n + 1))
      (negb (m mod 2 ^ Z.of_nat n =? 0) || r || s).
Proof.
  intros Hm. induction n as [|n IH].
  - cbn [Nat.iter]. rewrite shr_1_spec by lia. cbn [Z.of_nat].
    change (2 ^ (0 + 1)) with 2. change (2 ^ 0) with 1.
    rewrite Z.mod_1_r. simpl negb. f_equal.
    rewrite Zmod_odd. destruct (Z.odd m); reflexivity.
  - change (Nat.iter (S (S n)) shr_1 ?x) with (shr_1 (Nat.iter (S n) shr_1 x)).
    rewrite IH.
    assert (Hp : 0 < 2 ^ Z.of_nat n) by (apply Z.pow_pos_nonneg; lia).
    rewrite shr_1_spec by (apply Z.div_pos; [lia | apply Z.pow_pos_nonneg; lia]).
    replace (Z.of_nat (S n)) with (Z.of_nat n + 1) by lia.
    set (k := Z.of_nat n) in *.
    assert (E1 : 2 ^ (k + 1) = 2 * 2 ^ k) by (rewrite Z.pow_add_r by lia; lia).
    assert (E2 : 2 ^ (k + 1 + 1) = 4 * 2 ^ k) by (rewrite !Z.pow_add_r by lia; lia).
    rewrite E1 in *. rewrite E2.
    pose proof (Z.div_mod m (4 * 2 ^ k) ltac:(lia)) as D4.
    pose proof (Z.mod_pos_bound m (4 * 2 ^ k) ltac:(lia)) as B4.
    pose proof (Z.div_mod m (2 * 2 ^ k) ltac:(lia)) as D2.
    pose proof (Z.mod_pos_bound m (2 * 2 ^ k) ltac:(lia)) as B2.
    pose proof (Z.div_mod m (2 ^ k) ltac:(lia)) as D1.
    pose proof (Z.mod_pos_bound m (2 ^ k) ltac:(lia)) as B1.
    pose proof (Z.div_mod (m / (2 * 2 ^ k)) 2 ltac:(lia)) as Dq.
    pose proof (Z.mod_pos_bound (m / (2 * 2 ^ k)) 2 ltac:(lia)) as Bq.
    pose proof (Z.div_mod (m / 2 ^ k) 2 ltac:(lia)) as Dq1.
    pose proof (Z.mod_pos_bound (m / 2 ^ k) 2 ltac:(lia)) as Bq1.
    assert (Q2 : m / (2 * 2 ^ k) = m / 2 ^ k / 2)
      by (rewrite Z.div_div by lia; f_equal; lia).
    assert (Q4 : m / (4 * 2 ^ k) = m / (2 * 2 ^ k) / 2)
      by (rewrite Z.div_div by lia; f_equal; lia).
    f_equal.
    + lia.
    + rewrite Zmod_odd in Dq, Bq.
      destruct (Z.odd (m / (2 * 2 ^ k))); symmetry;
        [apply Z.leb_le | apply Z.leb_gt]; nia.
    + assert (Hb : (m / 2 ^ k) mod 2 = 0 \/ (m / 2 ^ k) mod 2 = 1) by lia.
      assert (R2 : m mod (2 * 2 ^ k) = 2 ^ k * ((m / 2 ^ k) mod 2) + m mod 2 ^ k).
      { rewrite Q2 in D2. destruct Hb as [Hb|Hb]; rewrite Hb in *; nia. }
      rewrite R2.
      destruct Hb as [Hb|Hb]; rewrite Hb;
        destruct (m mod 2 ^ k =? 0) eqn:E';
        [apply Z.eqb_eq in E'|apply Z.eqb_neq in E'
        |apply Z.eqb_eq in E'|apply Z.eqb_neq in E'].
      * rewrite E'. replace (2 ^ k * 0 + 0) with 0 by lia.
        replace (2 ^ k <=? 0) with false by (symmetry; apply Z.leb_gt; lia).
        reflexivity.
      * replace (2 ^ k * 0 + m mod 2 ^ k =? 0) with false
          by (symmetry; apply Z.eqb_neq; lia).
        replace (2 ^ k <=? 2 ^ k * 0 + m mod 2 ^ k) with false
          by (symmetry; apply Z.leb_gt; lia).
        reflexivity.
      * replace (2 ^ k * 1 + m mod 2 ^ k =? 0) with false
          by (symmetry; apply Z.eqb_neq; lia).
        replace (2 ^ k <=? 2 ^ k * 1 + m mod 2 ^ k) with true
          by (symmetry; apply Z.leb_le; lia).
        reflexivity.
      * replace (2 ^ k * 1 + m mod 2 ^ k =? 0) with false
          by (symmetry; apply Z.eqb_neq; lia).
        replace (2 ^ k <=? 2 ^ k * 1 + m mod 2 ^ k) with true
          by (symmetry; apply Z.leb_le; lia).
        reflexivity.
Qed.

Lemma shr_fexp_spec (n : nat) m e lx :
  2 ^ (52 + Z.of_nat n) <= m < 2 ^ (53 + Z.of_nat n) ->
  -1074 <= e + Z.of_nat n ->
  shr_fexp 53 1024 m e lx
  = (Nat.iter n shr_1 (shr_record_of_loc m lx), e + Z.of_nat n).
Proof.
  intros Hm He.
  assert (0 < m).
  { assert (0 < 2 ^ (52 + Z.of_nat n)) by (apply Z.pow_pos_nonneg; lia). lia. }
  unfold shr_fexp, shr.
  rewrite (Zdigits2_unique m (53 + Z.of_nat n)); [|lia|].
  2:{ replace (53 + Z.of_nat n - 1) with (52 + Z.of_nat n) by lia. exact Hm. }
  unfold fexp, emin.
  replace (Z.max (53 + Z.of_nat n + e - 53) (3 - 1024 - 53) - e)
    with (Z.of_nat n) by lia.
  destruct n as [|n].
  - simpl. rewrite Z.add_0_r. reflexivity.
  - destruct (Z.of_nat (S n)) as [|p|p] eqn:Ez; try lia.
    assert (Hp : Pos.to_nat p = S n) by lia.
    rewrite iter_pos_nat, Hp. reflexivity.
Qed.


Lemma round_shifted_0 m lx :
  round_shifted m 0 lx = round_nearest_even m lx.
Proof. destruct lx as [|[]]; reflexivity. Qed.

Lemma binary_round_aux_spec (n : nat) m e lx :
  2 ^ (52 + Z.of_nat n) <= m < 2 ^ (53 + Z.of_nat n) ->
  -1074 <= e + Z.of_nat n -> e + Z.of_nat n + 1 <= 971 ->
  2 ^ 52 <= round_shifted m n lx <= 2 ^ 53 ->
  binary_round_aux 53 1024 false m e lx
  = if round_shifted m n lx <? 2 ^ 53
    then S754_finite false (Z.to_pos (round_shifted m n lx)) (e + Z.of_nat n)
    else S754_finite false (Z.to_pos (2 ^ 52)) (e + Z.of_nat n + 1).
Proof.
  intros Hm He1 He2 Hr. unfold binary_round_aux.
  rewrite (shr_fexp_spec n) by assumption.
  fold (round_shifted m n lx). set (m' := round_shifted m n lx) in *.
  destruct (m' <? 2 ^ 53) eqn:E.
  - apply Z.ltb_lt in E.
    rewrite (shr_fexp_spec 0) by (cbn [Z.of_nat]; rewrite ?Z.add_0_r; lia).
    cbn [Nat.iter shr_record_of_loc shr_m Z.of_nat]. rewrite Z.add_0_r.
    destruct m' as [|p|p]; try lia.
    replace (e + Z.of_nat n <=? 1024 - 53) with true
      by (symmetry; apply Z.leb_le; lia).
    reflexivity.
  - apply Z.ltb_ge in E. assert (Hm' : m' = 2 ^ 53) by lia. rewrite Hm'.
    rewrite (shr_fexp_spec 1)
      by (cbn [Z.of_nat];
          first [lia | split; [vm_compute; discriminate | vm_compute; reflexivity]]).
    cbn [Nat.iter shr_record_of_loc orb].
    change (shr_1 {| shr_m := 2 ^ 53; shr_r := false; shr_s := false |})
      with {| shr_m := 2 ^ 52; shr_r := false; shr_s := false |}.
    cbn [shr_m]. change (2 ^ 52) with (Zpos (Z.to_pos (2 ^ 52))) at 1.
    cbv iota beta.
    replace (e + Z.of_nat n + Z.of_nat 1 <=? 1024 - 53) with true
      by (symmetry; apply Z.leb_le; lia).
    reflexivity.
Qed.


Lemma mod_pow2_split m k :
  0 <= k ->
  m mod 2 ^ (k + 1) = 2 ^ k * ((m / 2 ^ k) mod 2) + m mod 2 ^ k.
Proof.
  intros Hk.
  assert (Hp : 0 < 2 ^ k) by (apply Z.pow_pos_nonneg; lia).
  assert (E1 : 2 ^ (k + 1) = 2 ^ k * 2) by (rewrite Z.pow_add_r by lia; lia).
  rewrite E1. rewrite Z.rem_mul_r by lia. lia.
Qed.

Lemma round_shifted_exact n m :
  0 <= m -> round_shifted m (S n) loc_Exact = rne m (Z.of_nat n + 1).
Proof.
  intros Hm. unfold round_shifted. cbn [shr_record_of_loc].
  rewrite shr_iter by lia. cbn [shr_m loc_of_shr_record]. unfold rne.
  replace (Z.of_nat n + 1 - 1) with (Z.of_nat n) by lia.
  set (k := Z.of_nat n). assert (Hk : 0 <= k) by lia.
  assert (Hp : 0 < 2 ^ k) by (apply Z.pow_pos_nonneg; lia).
  pose proof (mod_pow2_split m k Hk) as R2.
  pose proof (Z.mod_pos_bound (m / 2 ^ k) 2 ltac:(lia)) as Bb.
  pose proof (Z.mod_pos_bound m (2 ^ k) Hp) as B1.
  set (rem := m mod 2 ^ (k + 1)) in *.
  assert (Hb : (m / 2 ^ k) mod 2 = 0 \/ (m / 2 ^ k) mod 2 = 1) by lia.
  destruct (2 ^ k <=? rem) eqn:Er.
  - apply Z.leb_le in Er.
    replace (rem <? 2 ^ k) with false by (symmetry; apply Z.ltb_ge; lia).
    destruct (m mod 2 ^ k =? 0) eqn:Es.
    + apply Z.eqb_eq in Es.
      replace (rem =? 2 ^ k) with true
        by (symmetry; apply Z.eqb_eq; destruct Hb as [Hb|Hb]; rewrite Hb in R2; lia).
      reflexivity.
    + apply Z.eqb_neq in Es.
      replace (rem =? 2 ^ k) with false
        by (symmetry; apply Z.eqb_neq; destruct Hb as [Hb|Hb]; rewrite Hb in R2; lia).
      reflexivity.
  - apply Z.leb_gt in Er.
    replace (rem <? 2 ^ k) with true by (symmetry; apply Z.ltb_lt; lia).
    destruct (negb (m mod 2 ^ k =? 0) || false || false); reflexivity.
Qed.

Lemma rne_cases m k :
  rne m k = m / 2 ^ k \/ rne m k = m / 2 ^ k + 1.
Proof.
  unfold rne. destruct (_ <? _); auto. destruct (_ =? _); auto.
  destruct (Z.even _); auto.
Qed.

(** Rounding moves by at most half a unit. *)
Lemma rne_error m k :
  1 <= k -> 2 * Z.abs (2 ^ k * rne m k - m) <= 2 ^ k.
Proof.
  intros Hk.
  assert (Hp : 0 < 2 ^ (k - 1)) by (apply Z.pow_pos_nonneg; lia).
  assert (E : 2 ^ k = 2 * 2 ^ (k - 1)).
  { replace k with (k - 1 + 1) at 1 by lia. rewrite Z.pow_add_r by lia. lia. }
  pose proof (Z.div_mod m (2 ^ k) ltac:(lia)) as D.
  pose proof (Z.mod_pos_bound m (2 ^ k) ltac:(lia)) as B.
  unfold rne.
  destruct (_ <? _) eqn:E1; [apply Z.ltb_lt in E1; lia|apply Z.ltb_ge in E1].
  destruct (_ =? _) eqn:E2; [apply Z.eqb_eq in E2|apply Z.eqb_neq in E2].
  - destruct (Z.even _); lia.
  - lia.
Qed.

(** A value within half a unit of a multiple rounds to it (an even one on a
    tie). *)
Lemma rne_near_multiple k A t :
  1 <= k ->
  2 * Z.abs t < 2 ^ k \/ (2 * Z.abs t = 2 ^ k /\ Z.even A = true) ->
  rne (2 ^ k * A - t) k = A.
Proof.
  intros Hk Ht.
  assert (Hp : 0 < 2 ^ (k - 1)) by (apply Z.pow_pos_nonneg; lia).
  assert (E : 2 ^ k = 2 * 2 ^ (k - 1)).
  { replace k with (k - 1 + 1) at 1 by lia. rewrite Z.pow_add_r by lia. lia. }
  unfold rne. set (h := 2 ^ (k - 1)) in *. rewrite E in *.
  destruct (Z_le_gt_dec t 0) as [Hneg|Hpos].
  - (* at or above the multiple *)
    assert (Hq : (2 * h * A - t) / (2 * h) = A)
      by (symmetry; apply (Z.div_unique _ _ A (- t)); lia).
    assert (Hr : (2 * h * A - t) mod (2 * h) = - t)
      by (symmetry; apply (Z.mod_unique _ _ A (- t)); lia).
    rewrite Hq, Hr.
    destruct (- t <? h) eqn:E1; [reflexivity|apply Z.ltb_ge in E1].
    destruct Ht as [Ht|[Ht Hev]]; [lia|].
    replace (- t =? h) with true by (symmetry; apply Z.eqb_eq; lia).
    rewrite Hev. reflexivity.
  - (* below the multiple *)
    assert (Hq : (2 * h * A - t) / (2 * h) = A - 1)
      by (symmetry; apply (Z.div_unique _ _ (A - 1) (2 * h - t)); lia).
    assert (Hr : (2 * h * A - t) mod (2 * h) = 2 * h - t)
      by (symmetry; apply (Z.mod_unique _ _ (A - 1) (2 * h - t)); lia).
    rewrite Hq, Hr.
    replace (2 * h - t <? h) with false by (symmetry; apply Z.ltb_ge; lia).
    destruct (2 * h - t =? h) eqn:E2;
      [apply Z.eqb_eq in E2|apply Z.eqb_neq in E2]; [|lia].
    destruct Ht as [Ht|[Ht Hev]]; [lia|].
    replace (Z.even (A - 1)) with false; [lia|].
    rewrite Z.even_sub, Hev. reflexivity.
Qed.

Lemma rne_scale j x k :
  0 <= j -> 1 <= k -> rne (2 ^ j * x) (j + k) = rne x k.
Proof.
  intros Hj Hk.
  assert (Hpj : 0 < 2 ^ j) by (apply Z.pow_pos_nonneg; lia).
  assert (Hpk : 0 < 2 ^ k) by (apply Z.pow_pos_nonneg; lia).
  assert (Hph : 0 < 2 ^ (k - 1)) by (apply Z.pow_pos_nonneg; lia).
  unfold rne.
  replace (j + k - 1) with (j + (k - 1)) by lia.
  rewrite !Z.pow_add_r by lia.
  rewrite Z.div_mul_cancel_l by lia.
  rewrite Z.mul_mod_distr_l by lia.
  set (r := x mod 2 ^ k). set (h := 2 ^ (k - 1)) in *.
  replace (2 ^ j * r <? 2 ^ j * h) with (r <? h).
  2:{ destruct (r <? h) eqn:E; symmetry;
        [apply Z.ltb_lt in E; apply Z.ltb_lt | apply Z.ltb_ge in E; apply Z.ltb_ge];
        nia. }
  replace (2 ^ j * r =? 2 ^ j * h) with (r =? h).
  2:{ destruct (r =? h) eqn:E; symmetry;
        [apply Z.eqb_eq in E; apply Z.eqb_eq | apply Z.eqb_neq in E; apply Z.eqb_neq];
        nia. }
  reflexivity.
Qed.

Lemma iter_xO_pow p d : Zpos (Pos.iter xO p d) = Zpos p * 2 ^ Zpos d.
Proof.
  rewrite <- Z.shiftl_mul_pow2 by lia.
  exact (shift_equiv (Zpos d) p ltac:(lia)).
Qed.

Lemma pow2_pos k : 0 <= k -> 0 < 2 ^ k.
Proof. intros. apply Z.pow_pos_nonneg; lia. Qed.

(** [float(z)] is exact below [2 ^ 53]: the mantissa is [z] shifted to 53
    digits. *)
Lemma float_of_int_exact z :
  0 < z < 2 ^ 53 ->
  exists d,
    1 <= d <= 53 /\ 2 ^ (d - 1) <= z < 2 ^ d
    /\ 2 ^ 52 <= z * 2 ^ (53 - d) < 2 ^ 53
    /\ float_of_int z
       = inr (S754_finite false (Z.to_pos (z * 2 ^ (53 - d))) (d - 53)).
Proof.
  intros Hz. destruct z as [|p|p]; try lia.
  pose proof (digits2_pos_bounds p) as Hd.
  set (d := Zpos (digits2_pos p)) in *.
  assert (Hd53 : d <= 53).
  { destruct (Z_le_gt_dec d 53); [assumption|].
    assert (2 ^ 53 <= 2 ^ (d - 1)) by (apply Z.pow_le_mono_r; lia). lia. }
  assert (Hm : 2 ^ 52 <= Zpos p * 2 ^ (53 - d) < 2 ^ 53).
  { assert (E52 : 2 ^ 52 = 2 ^ (d - 1) * 2 ^ (53 - d))
      by (rewrite <- Z.pow_add_r by lia; f_equal; lia).
    assert (E53 : 2 ^ 53 = 2 ^ d * 2 ^ (53 - d))
      by (rewrite <- Z.pow_add_r by lia; f_equal; lia).
    rewrite E52, E53.
    pose proof (pow2_pos (53 - d) ltac:(lia)). nia. }
  exists d. split; [subst d; lia|]. split; [exact Hd|]. split; [exact Hm|].
  unfold float_of_int, binary_normalize, binary_round.
  fold d. unfold shl_align, fexp, emin.
  replace (Z.max (d + 0 - 53) (3 - 1024 - 53) - 0) with (d - 53) by lia.
  replace (Z.max (d + 0 - 53) (3 - 1024 - 53)) with (d - 53) by lia.
  destruct (d - 53) as [|q|q] eqn:Edq; try lia.
  - (* 53 digits already *)
    replace (53 - d) with 0 in * by lia. rewrite Z.mul_1_r in *.
    rewrite (binary_round_aux_spec 0);
      rewrite ?round_shifted_0; cbn [Z.of_nat round_nearest_even];
      rewrite ?Z.add_0_r; try lia.
    replace (Zpos p <? 2 ^ 53) with true by (symmetry; apply Z.ltb_lt; lia).
    reflexivity.
  - (* shifted left *)
    assert (Eq : Zpos (Pos.iter xO p q) = Zpos p * 2 ^ (53 - d)).
    { rewrite iter_xO_pow. f_equal. f_equal. lia. }
    rewrite (binary_round_aux_spec 0);
      rewrite ?round_shifted_0; cbn [Z.of_nat round_nearest_even];
      rewrite ?Z.add_0_r, ?Eq; try lia.
    replace (Zpos p * 2 ^ (53 - d) <? 2 ^ 53) with true
      by (symmetry; apply Z.ltb_lt; lia).
    reflexivity.
Qed.

Lemma new_location_spec b r :
  0 < b -> 0 <= r < b ->
  new_location b r
  = if r =? 0 then loc_Exact else loc_Inexact (2 * r ?= b).
Proof.
  intros Hb Hr. unfold new_location, new_location_even, new_location_odd.
  destruct (Z.even b) eqn:Ev; destruct (r =? 0) eqn:E0; try reflexivity.
  f_equal.
  assert (Hodd : 2 * r <> b).
  { intros H. rewrite <- H, Z.even_mul in Ev. discriminate. }
  destruct (2 * r + 1 ?= b) eqn:E1; destruct (2 * r ?= b) eqn:E2;
    try reflexivity;
    try (apply Z.compare_eq in E1); try (apply Z.compare_eq in E2);
    rewrite ?Z.compare_lt_iff, ?Z.compare_gt_iff in *; lia.
Qed.

(** The quotient [(q * b + r) / b] rounded at its last digit, or at the
    digit before: the result is within half a unit of the exact value. *)
Lemma round_shifted_div b q r (n : nat) :
  0 < b -> 0 <= r < b -> 0 <= q -> (n <= 1)%nat ->
  let M := round_shifted q n (new_location b r) in
  q / 2 ^ Z.of_nat n <= M <= q / 2 ^ Z.of_nat n + 1
  /\ 2 * Z.abs (q * b + r - 2 ^ Z.of_nat n * M * b) <= 2 ^ Z.of_nat n * b.
Proof.
  intros Hb Hr Hq Hn. rewrite new_location_spec by lia.
  destruct n as [|[|n]]; [| |lia]; cbv zeta.
  - rewrite round_shifted_0.
    cbn [Z.of_nat]. change (2 ^ 0) with 1. rewrite Z.div_1_r.
    destruct (r =? 0) eqn:E0; [apply Z.eqb_eq in E0|apply Z.eqb_neq in E0].
    + cbn. nia.
    + destruct (2 * r ?= b) eqn:E2; cbn;
        [apply Z.compare_eq in E2|rewrite Z.compare_lt_iff in E2
        |rewrite Z.compare_gt_iff in E2];
        try (destruct (Z.even q)); nia.
  - unfold round_shifted.
    change (Nat.iter 1 shr_1 ?x) with (shr_1 x).
    change (Z.of_nat 1) with 1. change (2 ^ 1) with 2.
    pose proof (Z.div_mod q 2 ltac:(lia)) as D.
    pose proof (Zmod_odd q) as Ho.
    destruct (r =? 0) eqn:E0; [apply Z.eqb_eq in E0|apply Z.eqb_neq in E0].
    + cbn [shr_record_of_loc]. rewrite shr_1_spec by lia.
      cbn [shr_m loc_of_shr_record orb].
      destruct (Z.odd q); cbn [round_nearest_even];
        try (destruct (Z.even (q / 2))); nia.
    + assert (Hs : forall c, exists r0 s0,
                 shr_record_of_loc q (loc_Inexact c)
                 = Build_shr_record q r0 s0 /\ r0 || s0 = true).
      { intros []; cbn; eauto. }
      destruct (Hs (2 * r ?= b)) as (r0 & s0 & -> & Hrs).
      rewrite shr_1_spec by lia. rewrite Hrs.
      cbn [shr_m loc_of_shr_record].
      destruct (Z.odd q); cbn [round_nearest_even]; nia.
Qed.

Lemma mul_between a b f : - b <= a <= b -> 0 <= f -> - b * f <= a * f <= b * f.
Proof. intros. nia. Qed.

Lemma mul_ge_self P R : 1 <= R -> 0 <= P -> P <= R * P.
Proof. intros. nia. Qed.

Lemma mul_le_pred P R f : R <= f - 1 -> 0 <= P -> R * P <= f * P - P.
Proof. intros. nia. Qed.

(** The arithmetic of [int(80.0 * (s / fps))]: [M / 2 ^ k] is the rounded
    quotient, [rne (5 * M) n] the mantissa of the rounded product. *)
Lemma crop_arith s f M k n :
  0 < s < 2 ^ 44 -> 0 < f ->
  2 ^ 52 <= M < 2 ^ 53 -> 8 <= k ->
  2 * Z.abs (s * 2 ^ k - M * f) <= f ->
  n = 2 \/ n = 3 ->
  rne (5 * M) n / 2 ^ (k - 4 - n) = 80 * s / f.
Proof.
  intros Hs Hf HM Hk Hdiv Hn.
  set (P := 2 ^ k) in *. set (Pn := 2 ^ (k - 4 - n)).
  assert (HPn : 0 < Pn) by (apply pow2_pos; lia).
  assert (HP : P = 2 ^ n * 16 * Pn).
  { unfold P, Pn. change 16 with (2 ^ 4).
    rewrite <- !Z.pow_add_r by lia. f_equal. lia. }
  assert (HPn4 : exists c, Pn = 2 * c /\ 0 < c).
  { exists (2 ^ (k - 4 - n - 1)). split; [|apply pow2_pos; lia].
    unfold Pn. replace (k - 4 - n) with (1 + (k - 4 - n - 1)) at 1 by lia.
    rewrite Z.pow_add_r by lia. reflexivity. }
  assert (H2n : 2 ^ n = 4 \/ 2 ^ n = 8) by (destruct Hn; subst n; auto).
  assert (H44 : 2 ^ 44 = 17592186044416) by reflexivity.
  assert (H52 : 2 ^ 52 = 4503599627370496) by reflexivity.
  assert (H53 : 2 ^ 53 = 9007199254740992) by reflexivity.
  rewrite H44 in Hs. rewrite H52, H53 in HM.
  (* the rounded quotient pins down [P] against [f] *)
  assert (HPf : 256 * f <= P) by nia.
  set (K := 80 * s / f). set (R := 80 * s mod f).
  assert (HKR : 80 * s = f * K + R) by (apply Z.div_mod; lia).
  assert (HR : 0 <= R < f) by (apply Z.mod_pos_bound; lia).
  assert (HK : 0 <= K) by (apply Z.div_pos; lia).
  set (M2 := rne (5 * M) n).
  assert (Herr : 2 * Z.abs (2 ^ n * M2 - 5 * M) <= 2 ^ n)
    by (apply rne_error; lia).
  destruct (Z.eq_dec R 0) as [HR0|HR0].
  - (* [80 * s / f] is exact: the product rounds back to it *)
    assert (HM2 : M2 = K * Pn).
    { unfold M2.
      replace (5 * M) with (2 ^ n * (K * Pn) - (2 ^ n * (K * Pn) - 5 * M)) by lia.
      apply rne_near_multiple; [lia|].
      set (t := 2 ^ n * (K * Pn) - 5 * M).
      assert (Ht : 16 * t * f = 80 * (s * P - M * f)) by (unfold t; nia).
      assert (Ht2 : Z.abs t <= 2) by nia.
      destruct Hn; subst n.
      - destruct (Z.eq_dec (Z.abs t) 2) as [E|E].
        + right. split; [change (2 ^ 2) with 4; lia|].
          destruct HPn4 as (c & -> & _).
          replace (K * (2 * c)) with (2 * (K * c)) by lia.
          rewrite Z.even_mul. reflexivity.
        + left. change (2 ^ 2) with 4. lia.
      - left. change (2 ^ 3) with 8. lia. }
    rewrite HM2. apply Z.div_mul. lia.
  - (* otherwise the error stays below the distance to the next integer *)
    symmetry. apply (Z.div_unique_pos _ _ K (M2 - K * Pn)); [|lia].
    set (r1 := s * P - M * f) in *.
    set (r2 := 2 ^ n * M2 - 5 * M) in *.
    assert (Hr2 : -4 <= r2 <= 4) by lia.
    assert (Hr2f : -4 * f <= r2 * f <= 4 * f)
      by (pose proof (mul_between r2 4 f ltac:(lia) ltac:(lia)); lia).
    assert (Hid : 16 * 2 ^ n * M2 * f - K * P * f
                  = R * P - 80 * r1 + 16 * (r2 * f))
      by (unfold r1, r2; clear - HKR; nia).
    assert (HRP1 : P <= R * P) by (apply mul_ge_self; lia).
    assert (HRP2 : R * P <= f * P - P) by (apply mul_le_pred; lia).
    assert (Hlo : 0 <= 16 * 2 ^ n * M2 * f - K * P * f) by lia.
    assert (Hhi : 16 * 2 ^ n * M2 * f - K * P * f < P * f) by lia.
    rewrite HP in Hlo, Hhi.
    assert (Hc : 0 < 16 * 2 ^ n * f) by lia.
    split.
    + apply (Z.mul_le_mono_pos_l _ _ (16 * 2 ^ n * f) Hc).
      replace (16 * 2 ^ n * f * (M2 - K * Pn))
        with (16 * 2 ^ n * M2 * f - K * (2 ^ n * 16 * Pn) * f) by ring.
      lia.
    + apply (Z.mul_lt_mono_pos_l (16 * 2 ^ n * f) _ _ Hc).
      replace (16 * 2 ^ n * f * (M2 - K * Pn))
        with (16 * 2 ^ n * M2 * f - K * (2 ^ n * 16 * Pn) * f) by ring.
      replace (16 * 2 ^ n * f * Pn) with (2 ^ n * 16 * Pn * f) by ring.
      lia.
Qed.

Lemma div_eucl_div_mod a b : Z.div_eucl a b = (a / b, a mod b).
Proof. unfold Z.div, Z.modulo. destruct (Z.div_eucl a b). reflexivity. Qed.

(** The quotient of two 53-digit mantissas, rounded: the mantissa [M] of
    the result, at [j] digits above the last digit of the exact quotient
    [m1 * 2 ^ 53 / m2], is within half a unit of it. *)
Lemma float_truediv_spec m1 e1 m2 e2 :
  2 ^ 52 <= m1 < 2 ^ 53 -> 2 ^ 52 <= m2 < 2 ^ 53 ->
  -1074 <= e1 - e2 - 53 -> e1 - e2 - 53 + 2 <= 971 ->
  exists M j,
    float_truediv (S754_finite false (Z.to_pos m1) e1)
                  (S754_finite false (Z.to_pos m2) e2)
    = inr (S754_finite false (Z.to_pos M) (e1 - e2 - 53 + j))
    /\ 2 ^ 52 <= M < 2 ^ 53 /\ 0 <= j <= 2
    /\ 2 * Z.abs (m1 * 2 ^ 53 - 2 ^ j * M * m2) <= 2 ^ j * m2.
Proof.
  intros H1 H2 He1 He2.
  assert (H52 : 2 ^ 52 = 4503599627370496) by reflexivity.
  assert (H53 : 2 ^ 53 = 9007199254740992) by reflexivity.
  unfold float_truediv, SFdiv, SFdiv_core_binary.
  rewrite !Z2Pos.id by lia.
  rewrite (Zdigits2_unique m1 53) by (change (53 - 1) with 52; lia).
  rewrite (Zdigits2_unique m2 53) by (change (53 - 1) with 52; lia).
  unfold fexp, emin.
  replace (Z.min (Z.max (53 + e1 - (53 + e2) - 53) (3 - 1024 - 53)) (e1 - e2))
    with (e1 - e2 - 53) by lia.
  replace (e1 - e2 - (e1 - e2 - 53)) with 53 by lia. cbv iota.
  rewrite Z.shiftl_mul_pow2 by lia.
  rewrite div_eucl_div_mod.
  set (a := m1 * 2 ^ 53). set (q := a / m2). set (r := a mod m2).
  assert (Ha : a = m2 * q + r) by (apply Z.div_mod; lia).
  assert (Hr : 0 <= r < m2) by (apply Z.mod_pos_bound; lia).
  assert (Hq : 2 ^ 52 <= q < 2 ^ 54).
  { split.
    - apply Z.div_le_lower_bound; [lia|]. unfold a. rewrite H52, H53. nia.
    - apply Z.div_lt_upper_bound; [lia|]. unfold a.
      change (2 ^ 54) with 18014398509481984. rewrite H53. nia. }
  set (n := if q <? 2 ^ 53 then 0%nat else 1%nat).
  assert (Hn : (n <= 1)%nat) by (unfold n; destruct (q <? 2 ^ 53); lia).
  assert (Hqn : 2 ^ (52 + Z.of_nat n) <= q < 2 ^ (53 + Z.of_nat n)).
  { unfold n. destruct (q <? 2 ^ 53) eqn:E;
      [apply Z.ltb_lt in E | apply Z.ltb_ge in E]; cbn [Z.of_nat];
      [change (2 ^ (52 + 0)) with (2 ^ 52); change (2 ^ (53 + 0)) with (2 ^ 53)
      |change (2 ^ (52 + 1)) with (2 ^ 53); change (2 ^ (53 + 1)) with (2 ^ 54)];
      lia. }
  pose proof (round_shifted_div m2 q r n ltac:(lia) Hr ltac:(lia) Hn) as Hrs.
  cbv zeta in Hrs. set (M0 := round_shifted q n (new_location m2 r)) in *.
  destruct Hrs as [HM0 Herr].
  assert (HM0r : 2 ^ 52 <= M0 <= 2 ^ 53).
  { assert (2 ^ 52 <= q / 2 ^ Z.of_nat n < 2 ^ 53); [|lia].
    unfold n. destruct (q <? 2 ^ 53) eqn:E;
      [apply Z.ltb_lt in E | apply Z.ltb_ge in E]; cbn [Z.of_nat].
    - change (2 ^ 0) with 1. rewrite Z.div_1_r. lia.
    - change (2 ^ 1) with 2. change (2 ^ 54) with 18014398509481984 in Hq.
      rewrite H52, H53 in *. split.
      + apply Z.div_le_lower_bound; lia.
      + apply Z.div_lt_upper_bound; lia. }
  cbn [xorb].
  rewrite (binary_round_aux_spec n q (e1 - e2 - 53) _ Hqn) by (fold M0; lia).
  fold M0.
  destruct (M0 <? 2 ^ 53) eqn:EM;
    [apply Z.ltb_lt in EM | apply Z.ltb_ge in EM].
  - exists M0, (Z.of_nat n). split; [reflexivity|]. split; [lia|].
    split; [lia|]. rewrite Ha.
    replace (m2 * q + r - 2 ^ Z.of_nat n * M0 * m2)
      with (q * m2 + r - 2 ^ Z.of_nat n * M0 * m2) by ring.
    exact Herr.
  - exists (2 ^ 52), (Z.of_nat n + 1). split; [f_equal; f_equal; lia|].
    split; [lia|]. split; [lia|].
    assert (HM0e : M0 = 2 ^ 53) by lia. rewrite HM0e in Herr.
    rewrite Ha.
    assert (Hp : 0 < 2 ^ Z.of_nat n) by (apply pow2_pos; lia).
    rewrite Z.pow_add_r by lia. change (2 ^ 1) with 2.
    rewrite H52, H53 in *.
    replace (m2 * q + r - 2 ^ Z.of_nat n * 2 * 4503599627370496 * m2)
      with (q * m2 + r - 2 ^ Z.of_nat n * 9007199254740992 * m2) by ring.
    nia.
Qed.

Lemma float_80_eq : float_80 = S754_finite false 5629499534213120 (-46).
Proof. reflexivity. Qed.

(** The product by [80.0], rounded. *)
Lemma float_mul_80_spec M E :
  2 ^ 52 <= M < 2 ^ 53 -> -1000 <= E <= 900 ->
  exists n,
    (n = 2 \/ n = 3)
    /\ 2 ^ 52 <= rne (5 * M) n <= 2 ^ 53
    /\ float_mul float_80 (S754_finite false (Z.to_pos M) E)
       = if rne (5 * M) n <? 2 ^ 53
         then S754_finite false (Z.to_pos (rne (5 * M) n)) (E + 4 + n)
         else S754_finite false (Z.to_pos (2 ^ 52)) (E + 5 + n).
Proof.
  intros HM HE.
  assert (H52 : 2 ^ 52 = 4503599627370496) by reflexivity.
  assert (H53 : 2 ^ 53 = 9007199254740992) by reflexivity.
  rewrite float_80_eq. unfold float_mul, SFmul. cbn [xorb].
  rewrite Pos2Z.inj_mul, Z2Pos.id by lia.
  change (Zpos 5629499534213120) with (2 ^ 50 * 5).
  replace (2 ^ 50 * 5 * M) with (2 ^ 50 * (5 * M)) by ring.
  set (n := if 5 * M <? 2 ^ 55 then 2 else 3).
  assert (Hn : n = 2 \/ n = 3) by (unfold n; destruct (_ <? _); auto).
  assert (Hn5 : 2 ^ (52 + n) <= 5 * M < 2 ^ (53 + n)).
  { unfold n. destruct (5 * M <? 2 ^ 55) eqn:Ec;
      [apply Z.ltb_lt in Ec | apply Z.ltb_ge in Ec].
    - change (2 ^ (52 + 2)) with 18014398509481984.
      change (2 ^ (53 + 2)) with (2 ^ 55). lia.
    - change (2 ^ (52 + 3)) with (2 ^ 55).
      change (2 ^ (53 + 3)) with 72057594037927936. lia. }
  exists n. split; [exact Hn|].
  set (N := Z.to_nat (49 + n)).
  assert (HN : Z.of_nat (S N) = 50 + n) by (unfold N; lia).
  assert (Hrs : round_shifted (2 ^ 50 * (5 * M)) (S N) loc_Exact = rne (5 * M) n).
  { rewrite round_shifted_exact by lia.
    replace (Z.of_nat N + 1) with (50 + n) by lia.
    apply rne_scale; lia. }
  assert (Hm : 2 ^ (52 + Z.of_nat (S N)) <= 2 ^ 50 * (5 * M)
               < 2 ^ (53 + Z.of_nat (S N))).
  { rewrite HN.
    replace (52 + (50 + n)) with (50 + (52 + n)) by lia.
    replace (53 + (50 + n)) with (50 + (53 + n)) by lia.
    rewrite !(Z.pow_add_r 2 50) by lia.
    assert (0 < 2 ^ 50) by (apply pow2_pos; lia). nia. }
  assert (Hr : 2 ^ 52 <= rne (5 * M) n <= 2 ^ 53).
  { destruct (rne_cases (5 * M) n) as [-> | ->].
    - split; [apply Z.div_le_lower_bound|]; try (apply pow2_pos; lia).
      + rewrite <- Z.pow_add_r by lia. replace (n + 52) with (52 + n) by lia. lia.
      + assert (5 * M / 2 ^ n < 2 ^ 53); [|lia].
        apply Z.div_lt_upper_bound; [apply pow2_pos; lia|].
        rewrite <- Z.pow_add_r by lia. replace (n + 53) with (53 + n) by lia. lia.
    - assert (2 ^ 52 <= 5 * M / 2 ^ n < 2 ^ 53); [|lia]. split.
      + apply Z.div_le_lower_bound; [apply pow2_pos; lia|].
        rewrite <- Z.pow_add_r by lia. replace (n + 52) with (52 + n) by lia. lia.
      + apply Z.div_lt_upper_bound; [apply pow2_pos; lia|].
        rewrite <- Z.pow_add_r by lia. replace (n + 53) with (53 + n) by lia. lia. }
  split; [exact Hr|].
  rewrite (binary_round_aux_spec (S N) _ _ _ Hm) by (rewrite ?Hrs, ?HN; lia).
  rewrite Hrs, HN.
  destruct (rne (5 * M) n <? 2 ^ 53); f_equal; lia.
Qed.

Lemma int_of_float_finite M E :
  0 < M -> E <= 0 ->
  int_of_float (S754_finite false (Z.to_pos M) E) = inr (M / 2 ^ (- E)).
Proof.
  intros HM HE. unfold int_of_float. rewrite Z2Pos.id by lia.
  destruct (E <? 0) eqn:E0.
  - rewrite Z.shiftr_div_pow2 by lia. reflexivity.
  - apply Z.ltb_ge in E0. replace E with 0 by lia.
    rewrite Z.shiftl_0_r. change (2 ^ (- 0)) with 1. rewrite Z.div_1_r.
    reflexivity.
Qed.

(** [int(80.0 * (s / float(fps)))] is [floor(80 * s / fps)] for a frame rate
    below [2 ^ 53] and a start index below [2 ^ 44]. *)
Lemma crop_start_floor {C : Collaborators} (self : UNetDataset) s :
  1 <= video_fps self < 2 ^ 53 -> 0 <= s < 2 ^ 44 ->
  crop_start self s = inr (80 * s / video_fps self).
Proof.
  intros Hf Hs. unfold crop_start. set (f := video_fps self) in *.
  destruct (float_of_int_exact f ltac:(lia)) as (df & Hdf & Hfb & Hm2 & ->).
  cbn [and_then].
  destruct (Z.eq_dec s 0) as [->|Hs0].
  { rewrite Z.mul_0_r, Z.div_0_l by lia. reflexivity. }
  assert (Hs53 : 0 < s < 2 ^ 53).
  { change (2 ^ 44) with 17592186044416 in Hs.
    change (2 ^ 53) with 9007199254740992. lia. }
  destruct (float_of_int_exact s Hs53) as (ds & Hds & Hsb & Hm1 & ->).
  cbn [and_then].
  assert (Hds44 : ds <= 44).
  { destruct (Z_le_gt_dec ds 44); [assumption|].
    assert (2 ^ 44 <= 2 ^ (ds - 1)) by (apply Z.pow_le_mono_r; lia). lia. }
  set (m1 := s * 2 ^ (53 - ds)) in *. set (m2 := f * 2 ^ (53 - df)) in *.
  destruct (float_truediv_spec m1 (ds - 53) m2 (df - 53) Hm1 Hm2
              ltac:(lia) ltac:(lia)) as (M & j & -> & HM & Hj & Herr).
  cbn [and_then].
  set (k := 53 - ds + df - j).
  replace (ds - 53 - (df - 53) - 53 + j) with (- k) by (unfold k; lia).
  assert (Hk : 8 <= k) by (unfold k; lia).
  assert (Hdiv : 2 * Z.abs (s * 2 ^ k - M * f) <= f).
  { set (c := 2 ^ j * 2 ^ (53 - df)).
    assert (Hc : 0 < c)
      by (unfold c; apply Z.mul_pos_pos; apply pow2_pos; lia).
    assert (E1 : m1 * 2 ^ 53 = c * (s * 2 ^ k)).
    { transitivity (s * 2 ^ (106 - ds)).
      - unfold m1. rewrite <- Z.mul_assoc, <- Z.pow_add_r by lia.
        f_equal. f_equal. lia.
      - unfold c.
        replace (2 ^ j * 2 ^ (53 - df) * (s * 2 ^ k))
          with (s * (2 ^ j * 2 ^ (53 - df) * 2 ^ k)) by ring.
        rewrite <- !Z.pow_add_r by lia. f_equal. f_equal. unfold k. lia. }
    assert (E2 : 2 ^ j * M * m2 = c * (M * f)) by (unfold m2, c; ring).
    rewrite E1, E2, <- Z.mul_sub_distr_l, Z.abs_mul, (Z.abs_eq c) in Herr by lia.
    apply (Z.mul_le_mono_pos_l _ _ c Hc).
    replace (c * (2 * Z.abs (s * 2 ^ k - M * f)))
      with (2 * (c * Z.abs (s * 2 ^ k - M * f))) by ring.
    replace (c * f) with (2 ^ j * m2) by (unfold m2, c; ring).
    exact Herr. }
  destruct (float_mul_80_spec M (- k) HM ltac:(unfold k; lia))
    as (n & Hn & Hr & ->).
  pose proof (crop_arith s f M k n ltac:(lia) ltac:(lia) HM Hk Hdiv Hn) as Har.
  destruct (rne (5 * M) n <? 2 ^ 53) eqn:Er;
    [apply Z.ltb_lt in Er | apply Z.ltb_ge in Er].
  - rewrite int_of_float_finite by (destruct Hn; subst n; lia).
    replace (- (- k + 4 + n)) with (k - 4 - n) by lia.
    rewrite Har. reflexivity.
  - rewrite int_of_float_finite
      by (first [apply pow2_pos; lia | destruct Hn; subst n; lia]).
    replace (- (- k + 5 + n)) with (k - 4 - n - 1) by lia.
    rewrite <- Har. f_equal.
    replace (rne (5 * M) n) with (2 ^ 53) by lia.
    replace (2 ^ (k - 4 - n)) with (2 * 2 ^ (k - 4 - n - 1)).
    2:{ replace (k - 4 - n) with (1 + (k - 4 - n - 1)) at 2 by lia.
        rewrite Z.pow_add_r by (destruct Hn; subst n; lia). reflexivity. }
    rewrite <- Z.div_div
      by (first [lia | apply pow2_pos; destruct Hn; subst n; lia]).
    reflexivity.
Qed.

(** ** The audio window *)

(** A slice with bounds [0 <= a <= b]: at most [b - a] elements from
    position [a], fewer when the sequence ends before [b]. *)
Lemma slice_nonneg {A} (xs : list A) a b :
  0 <= a <= b ->
  slice xs a b = firstn (Z.to_nat (b - a)) (skipn (Z.to_nat a) xs).
Proof.
  intros H. unfold slice, slice_bound.
  replace (a <? 0) with false by (symmetry; apply Z.ltb_ge; lia).
  replace (b <? 0) with false by (symmetry; apply Z.ltb_ge; lia).
  set (len := Z.of_nat (length xs)).
  destruct (Z_le_gt_dec a len) as [Ha|Ha].
  - rewrite (Z.min_l a len) by lia.
    destruct (Z_le_gt_dec b len) as [Hb|Hb].
    + rewrite (Z.min_l b len) by lia. reflexivity.
    + rewrite (Z.min_r b len) by lia.
      rewrite !firstn_all2; [reflexivity| |];
        rewrite length_skipn; unfold len in *; lia.
  - rewrite (Z.min_r a len), (Z.min_r b len) by lia.
    rewrite !skipn_all2 by (unfold len in *; lia).
    rewrite !firstn_nil. reflexivity.
Qed.

(** C5 (as amended).  For a frame rate [1 <= fps < 2 ^ 53] and a start
    index [0 <= s < 2 ^ 44], [crop_audio_window] starts at column
    [floor(80 * s / fps)], takes the [mel_window_length] columns from
    there, fewer when the spectrogram ends before, and returns them under
    one leading axis. *)
Theorem crop_audio_window_aligned {C : Collaborators} (self : UNetDataset)
    (original_mel : Spectrogram) (s : Z) :
  1 <= video_fps self < 2 ^ 53 ->
  0 <= s < 2 ^ 44 ->
  0 <= mel_window_length self ->
  let start_col := 80 * s / video_fps self in
  let window :=
    firstn (Z.to_nat (mel_window_length self))
           (skipn (Z.to_nat start_col) original_mel) in
  crop_start self s = inr start_col
  /\ crop_audio_window self original_mel s = inr [window]
  /\ window = slice original_mel start_col (start_col + mel_window_length self)
  /\ Z.of_nat (length window) <= mel_window_length self
  /\ (start_col + mel_window_length self <= Z.of_nat (length original_mel) ->
      Z.of_nat (length window) = mel_window_length self).
Proof.
  intros Hf Hs HL start_col window.
  pose proof (crop_start_floor self s Hf Hs) as Hc. fold start_col in Hc.
  assert (H0 : 0 <= start_col)
    by (unfold start_col; apply Z.div_pos; lia).
  assert (Hsl : window
                = slice original_mel start_col
                    (start_col + mel_window_length self)).
  { rewrite slice_nonneg by lia. unfold window. do 2 f_equal. lia. }
  split; [exact Hc|]. split.
  - unfold crop_audio_window. rewrite Hc. cbn [and_then]. rewrite Hsl.
    reflexivity.
  - split; [exact Hsl|]. unfold window.
    rewrite length_firstn, length_skipn. split; [lia|]. intros Hlen. lia.
Qed.

(** C5 as stated fails for large start indices: the two roundings of the
    division and of the product can carry the result past the floor. *)
Lemma crop_start_above_floor :
  let self := Studio.at_fps 17 (Studio.dataset [Studio.a_mp4] 5 16 true) in
  crop_start self 92479397376578 = inr 435197164125073
  /\ 80 * 92479397376578 / 17 = 435197164125072
  /\ crop_start self 92479397376578 <> inr (80 * 92479397376578 / video_fps self).
Proof.
  split; [vm_compute; reflexivity|].
  split; [vm_compute; reflexivity|].
  vm_compute. discriminate.
Qed.

(** C5 on the test double at 25 frames per second: start [0] gives column
    [0], start [25] column [80], and the window of 16 columns is cut
    where the 200-column spectrogram ends. *)
Lemma crop_audio_window_aligned_witness :
  let self := Studio.dataset [Studio.a_mp4] 5 16 true in
  (1 <= video_fps self < 2 ^ 53 /\ 0 <= 25 < 2 ^ 44
   /\ 0 <= mel_window_length self)
  /\ crop_start self 0 = inr 0
  /\ crop_start self 25 = inr 80
  /\ crop_audio_window self (seqZ 0 200) 25 = inr [seqZ 80 16]
  /\ crop_audio_window self (seqZ 0 200) 60 = inr [seqZ 192 8].
Proof.
  intros self.
  assert (Hf : 1 <= video_fps self < 2 ^ 53) by (vm_compute; split; discriminate || reflexivity).
  assert (H25 : 0 <= 25 < 2 ^ 44) by (vm_compute; split; discriminate || reflexivity).
  assert (H0 : 0 <= 0 < 2 ^ 44) by (vm_compute; split; discriminate || reflexivity).
  assert (H60 : 0 <= 60 < 2 ^ 44) by (vm_compute; split; discriminate || reflexivity).
  assert (HL : 0 <= mel_window_length self) by (vm_compute; discriminate).
  split; [auto|].
  split; [exact (proj1 (crop_audio_window_aligned self [] 0 Hf H0 HL))|].
  split; [exact (proj1 (crop_audio_window_aligned self [] 25 Hf H25 HL))|].
  split.
  - exact (proj1 (proj2 (crop_audio_window_aligned self (seqZ 0 200) 25 Hf H25 HL))).
  - exact (proj1 (proj2 (crop_audio_window_aligned self (seqZ 0 200) 60 Hf H60 HL))).
Defined.

(* ===================================================================== *)
(** * Part II, continued.  The methods at their limits                    *)
(* ===================================================================== *)

(** ** The random generator, draw by draw *)

Lemma iter_shift k r n : Nat.iter k shift r n = r (k + n)%nat.
Proof.
  revert n. induction k as [|k IH]; intros n; [reflexivity|].
  change (Nat.iter (S k) shift r n) with (Nat.iter k shift r (S n)).
  rewrite IH. f_equal. lia.
Qed.

Lemma draws_refl {X} (w : world X) : draws 0 w w.
Proof. unfold draws. auto. Qed.

Lemma draws_trans {X} j k (w1 w2 w3 : world X) :
  draws j w1 w2 -> draws k w2 w3 -> draws (k + j) w1 w3.
Proof.
  unfold draws. intros (Hr1 & Hc1 & Ho1) (Hr2 & Hc2 & Ho2).
  rewrite Hr2, Hr1, Hc2, Hc1, Ho2, Ho1, Nat.iter_add. auto.
Qed.

Lemma randint_draws {X} a b (w : world X) :
  post (randint a b) w
    (fun v w' => a <= v <= b /\ v = draw_of a b (rng w 0%nat) /\ draws 1 w w')
    (fun e w' => b < a /\ e = ValueError /\ w' = w).
Proof.
  unfold post, randint. destruct (b <? a) eqn:E.
  - apply Z.ltb_lt in E. auto.
  - apply Z.ltb_ge in E. split; [apply draw_of_range; lia|].
    split; [reflexivity|]. unfold draws. cbn. auto.
Qed.

Section Draws.
Context {C : Collaborators}.
Variable self : UNetDataset.
Local Abbreviation N := (num_frames self).

Lemma wrong_window_draws fuel T s (w : process) :
  post (wrong_window fuel self T s) w
    (fun _ w' => exists k, (1 <= k <= fuel)%nat /\ draws k w w')
    (fun e w' => T - N < 0 /\ e = ValueError /\ w' = w).
Proof.
  revert w. induction fuel as [|fuel IH]; intros w; [exact I|].
  cbn [wrong_window]. apply post_bind.
  eapply post_weaken; [apply randint_draws| |auto].
  intros ws w1 (Hr & _ & Hd). cbv beta.
  destruct (too_close self s ws).
  - eapply post_weaken; [apply IH| |].
    + intros _ w2 (k & Hk & Hd2). exists (k + 1)%nat. split; [lia|].
      eapply draws_trans; eauto.
    + intros e w2 (HT & _ & _). lia.
  - apply post_ret. exists 1%nat. split; [lia|]. exact Hd.
Qed.

Lemma sample_windows_draws fuel T (w : process) :
  post (sample_windows fuel self T) w
    (fun _ w' => exists k, (2 <= k <= S fuel)%nat /\ draws k w w')
    (fun e w' => e = ValueError
                 /\ (T - N - N / 2 < N / 2 /\ w' = w
                     \/ T - N < 0 /\ draws 1 w w')).
Proof.
  unfold sample_windows. apply post_bind.
  eapply post_weaken; [apply randint_draws| |].
  - intros s w1 (_ & _ & Hd). cbv beta. apply post_bind.
    eapply post_weaken; [apply wrong_window_draws| |].
    + intros wfi w2 (k & Hk & Hd2). apply post_ret.
      exists (k + 1)%nat. split; [lia|]. eapply draws_trans; eauto.
    + intros e w2 (HT & -> & ->). auto.
  - intros e w1 (Hr & -> & ->). auto.
Qed.

Lemma get_frames_draws fuel vr (w : process) :
  post (get_frames fuel self vr) w
    (fun _ w' => exists k, (2 <= k <= S fuel)%nat /\ draws k w w')
    (fun _ w' => exists k, (k <= S fuel)%nat /\ draws k w w').
Proof.
  unfold get_frames. apply post_bind.
  eapply post_weaken; [apply sample_windows_draws| |].
  - intros [[fi wfi] s] w1 (k & Hk & Hd).
    apply post_bind, post_call; [|intros; exists k; split; [lia|exact Hd]].
    intros frames _.
    apply post_bind, post_call; [|intros; exists k; split; [lia|exact Hd]].
    intros wrong _. apply post_ret. eauto.
  - intros e w1 (_ & [(_ & ->)|(_ & Hd)]).
    + exists 0%nat. split; [lia|apply draws_refl].
    + exists 1%nat. split; [lia|exact Hd].
Qed.
End Draws.

(** X1.  [get_frames] touches nothing but the random generator: whether it
    returns or raises, the cache files and the output are as before and the
    generator has advanced by some number [k] of draws, at least two when
    it returns (one for the positive start, one per round of the rejection
    loop). *)
Theorem get_frames_only_draws {C : Collaborators} (self : UNetDataset)
    (fuel : nat) (vr : VideoReader) (w : process) :
  match get_frames fuel self vr w with
  | Ret _ w' =>
      exists k, (2 <= k <= S fuel)%nat
                /\ (forall n, rng w' n = rng w (k + n)%nat)
                /\ cache w' = cache w /\ stdout w' = stdout w
  | Raise _ w' =>
      exists k, (k <= S fuel)%nat
                /\ (forall n, rng w' n = rng w (k + n)%nat)
                /\ cache w' = cache w /\ stdout w' = stdout w
  | Stall => True
  end.
Proof.
  pose proof (get_frames_draws self fuel vr w) as H. unfold post in H.
  destruct (get_frames fuel self vr w) as [r w'|e w'|]; [| |exact I];
    destruct H as (k & Hk & Hr & Hc & Ho); exists k;
    (split; [exact Hk|]); (split; [|auto]);
    intros n; rewrite Hr; apply iter_shift.
Qed.

Lemma get_frames_only_draws_witness :
  let self := Studio.dataset [Studio.a_mp4] 5 16 false in
  let w := Studio.fresh [10; 14; 40] in
  exists r w',
    get_frames (C := Studio.collaborators) 5 self 60 w = Ret r w'
    /\ exists k, (2 <= k <= 6)%nat
                 /\ (forall n, rng w' n = rng w (k + n)%nat)
                 /\ cache w' = cache w /\ stdout w' = stdout w.
Proof.
  intros self w.
  pose proof (get_frames_only_draws (C := Studio.collaborators) self 5 60 w)
    as H.
  destruct (get_frames (C := Studio.collaborators) 5 self 60 w)
    as [r w'|e w'|] eqn:E.
  - exists r, w'. split; [reflexivity | exact H].
  - returned E.
  - returned E.
Defined.

(** ** The sampler on videos that are too short *)

(** X2.  On a video of fewer than [N + 2 * (N / 2)] frames the range of the
    positive start is empty: [get_frames] raises [ValueError] before
    anything is drawn or decoded. *)
Theorem get_frames_short_video_raises {C : Collaborators}
    (self : UNetDataset) (fuel : nat) (vr : VideoReader) (w : process) :
  vr_len vr < num_frames self + 2 * (num_frames self / 2) ->
  get_frames fuel self vr w = Raise ValueError w.
Proof.
  intros H. unfold get_frames, sample_windows, bind, randint.
  destruct (_ <? _) eqn:E; [reflexivity|]. apply Z.ltb_ge in E. lia.
Qed.

Lemma get_frames_short_video_raises_witness :
  let self := Studio.dataset [Studio.a_mp4] 5 16 false in
  8 < num_frames self + 2 * (num_frames self / 2)
  /\ get_frames (C := Studio.collaborators) 3 self 8 (Studio.fresh [1; 2])
     = Raise ValueError (Studio.fresh [1; 2]).
Proof.
  intros self. split; [vm_compute; reflexivity|].
  apply (get_frames_short_video_raises (C := Studio.collaborators) self 3 8).
  vm_compute. reflexivity.
Defined.

(** X3.  For [N >= 1] and a video of [N + 2 * (N / 2) <= T <= 3 * N - 2]
    frames there is a positive start [s] in range from which no negative
    start can be separated: every [ws] in [0 .. T - N] fails the test of
    the rejection loop, and once the generator presents [s], [get_frames]
    never returns, whatever the generator presents next.  (The test
    [len(vr) < 3 * self.num_frames] of [__getitem__] keeps such videos
    away from it.) *)
Theorem get_frames_hangs_below_guard {C : Collaborators}
    (self : UNetDataset) (vr : VideoReader) :
  let N := num_frames self in
  let T := vr_len vr in
  1 <= N ->
  N + 2 * (N / 2) <= T <= 3 * N - 2 ->
  exists s,
    N / 2 <= s <= T - N - N / 2
    /\ (forall ws, 0 <= ws <= T - N -> too_close self s ws = true)
    /\ forall fuel w,
         draw_of (N / 2) (T - N - N / 2) (rng w 0%nat) = s ->
         get_frames fuel self vr w = Stall.
Proof.
  intros N T HN HT.
  assert (Hh : 0 <= N / 2 /\ 2 * (N / 2) <= N).
  { split; [apply Z.div_pos; lia|]. apply Z.mul_div_le. lia. }
  set (s := Z.max (N / 2) (T - 2 * N + 1)).
  assert (Hclose : forall ws, 0 <= ws <= T - N -> too_close self s ws = true).
  { intros ws Hws. unfold too_close. fold N.
    apply andb_true_iff. rewrite !Z.ltb_lt. lia. }
  exists s. split; [lia|]. split; [exact Hclose|].
  intros fuel w Hs. unfold get_frames, sample_windows. fold N T.
  unfold bind at 1 2. rewrite randint_total by lia. rewrite Hs.
  assert (Hw : forall fuel w, wrong_window fuel self T s w = Stall).
  { clear -Hclose HT Hh HN. intros fuel.
    induction fuel as [|fuel IH]; intros w; [reflexivity|].
    cbn [wrong_window]. unfold bind. fold N.
    rewrite randint_total by lia.
    rewrite Hclose by (apply draw_of_range; lia). apply IH. }
  unfold bind. rewrite Hw. reflexivity.
Qed.

Lemma get_frames_hangs_below_guard_witness :
  let self := Studio.dataset [Studio.a_mp4] 5 16 false in
  (1 <= 5 /\ 5 + 2 * (5 / 2) <= 12 <= 3 * 5 - 2)
  /\ exists s,
      5 / 2 <= s <= 12 - 5 - 5 / 2
      /\ (forall ws, 0 <= ws <= 12 - 5 -> too_close self s ws = true)
      /\ forall fuel w,
           draw_of (5 / 2) (12 - 5 - 5 / 2) (rng w 0%nat) = s ->
           get_frames (C := Studio.collaborators) fuel self 12 w = Stall.
Proof.
  intros self.
  assert (H1 : 1 <= 5) by lia.
  assert (H2 : 5 + 2 * (5 / 2) <= 12 <= 3 * 5 - 2)
    by (vm_compute; split; discriminate).
  split; [auto|].
  exact (get_frames_hangs_below_guard (C := Studio.collaborators) self 12 H1 H2).
Defined.

(** ** The sampler's exceptions *)

(** X4.  On a video of at least [3 * N] frames ([N >= 0]) the only
    exceptions [get_frames] raises are the decoder's: [get_batch] raised on
    the positive window, or on the negative window after the positive one
    was decoded; both windows were sampled as for a result. *)
Theorem get_frames_raises_only_decoder_errors {C : Collaborators}
    (self : UNetDataset) (fuel : nat) (vr : VideoReader) (w : process)
    (e : exn) (w' : process) :
  0 <= num_frames self ->
  3 * num_frames self <= vr_len vr ->
  get_frames fuel self vr w = Raise e w' ->
  let N := num_frames self in
  let T := vr_len vr in
  exists s ws,
    N / 2 <= s <= T - N - N / 2
    /\ 0 <= ws <= T - N
    /\ (ws <= s - N \/ s + N <= ws)
    /\ (vr_get_batch vr (arange s (s + N)) = inl e
        \/ (exists frames, vr_get_batch vr (arange s (s + N)) = inr frames)
           /\ vr_get_batch vr (arange ws (ws + N)) = inl e).
Proof.
  intros HN HT H N T. unfold get_frames in H.
  apply bind_Raise in H as [H|([[fi wfi] s] & w1 & Hs & H)].
  { exfalso. eapply sample_windows_no_Raise; eauto. }
  apply sample_windows_Ret in Hs as (Hr & -> & ws & Hws & Hacc & ->).
  apply too_close_false in Hacc.
  exists s, ws. split; [exact Hr|]. split; [exact Hws|]. split; [exact Hacc|].
  apply bind_Raise in H as [H|(frames & w2 & Hf & H)].
  - left. unfold call in H. destruct (vr_get_batch vr _) as [e'|fr];
      inversion H. reflexivity.
  - right. apply call_Ret in Hf as (Hf & ->). split; [eauto|].
    apply bind_Raise in H as [H|(wrong & w3 & _ & H)]; [|discriminate].
    unfold call in H. destruct (vr_get_batch vr (arange ws _)) as [e'|fr];
      inversion H. reflexivity.
Qed.

Lemma get_frames_raises_only_decoder_errors_witness :
  let self := Flaky.dataset [Studio.a_mp4] 256 5 in
  get_frames (C := Flaky.collaborators) 3 self 60 (Flaky.fresh [46; 0])
  = Raise (LibraryError 6)
      (World (fun n => Studio.tape [46; 0] (S (S n))) ∅ [])
  /\ exists s ws,
      5 / 2 <= s <= 60 - 5 - 5 / 2
      /\ 0 <= ws <= 60 - 5
      /\ (ws <= s - 5 \/ s + 5 <= ws)
      /\ (Flaky.get_batch 60 (arange s (s + 5)) = inl (LibraryError 6)
          \/ (exists frames, Flaky.get_batch 60 (arange s (s + 5)) = inr frames)
             /\ Flaky.get_batch 60 (arange ws (ws + 5)) = inl (LibraryError 6)).
Proof.
  intros self.
  assert (H : get_frames (C := Flaky.collaborators) 3 self 60
                (Flaky.fresh [46; 0])
              = Raise (LibraryError 6)
                  (World (fun n => Studio.tape [46; 0] (S (S n))) ∅ []))
    by (vm_compute; reflexivity).
  split; [exact H|].
  apply (get_frames_raises_only_decoder_errors (C := Flaky.collaborators)
           self 3 60 _ _ _ ltac:(simpl; lia) ltac:(simpl; lia) H).
Defined.

(** ** What a call leaves of the process state

    A relation between process states that holds across every step the
    loop takes holds across [__getitem__]. *)
Section Frame.
Context {C : Collaborators}.
Variables (self : UNetDataset) (image_processor : ImageProcessor).
Variable R : process -> process -> Prop.
Hypothesis R_refl : forall w, R w w.
Hypothesis R_trans : forall w1 w2 w3, R w1 w2 -> R w2 w3 -> R w1 w3.
Hypothesis R_draws : forall k w w', draws k w w' -> R w w'.
Hypothesis R_print : forall e p w,
  p ∈ video_paths self -> R w (set_stdout (stdout w ++ [(e, p)]) w).
Hypothesis R_mel : load_audio_data self = true -> forall p w,
  p ∈ video_paths self ->
  post (original_mel_of self p) w (fun _ w' => R w w') (fun _ w' => R w w').

Lemma audio_window_frame p s (w : process) :
  p ∈ video_paths self ->
  post (audio_window self p s) w (fun _ w' => R w w') (fun _ w' => R w w').
Proof.
  intros Hp. unfold audio_window.
  destruct (load_audio_data self) eqn:Ea; [|apply post_ret, R_refl].
  apply post_bind.
  eapply post_weaken; [apply (R_mel eq_refl p w Hp)| |auto].
  intros m w1 HR. cbv beta.
  apply post_bind, post_call; [|intros; exact HR].
  intros mel _. destruct (negb _); apply post_ret; exact HR.
Qed.

Lemma try_body_frame fuel (a : activation) :
  known self a ->
  post (try_body fuel self image_processor) a
    (fun _ a' => R (glob a) (glob a') /\ known self a')
    (fun _ a' => R (glob a) (glob a') /\ known self a').
Proof.
  intros Hk. unfold try_body.
  apply post_bind, post_global.
  eapply post_weaken; [apply randint_draws| |].
  2:{ intros e w1 (_ & _ & ->). split; [apply R_refl | exact Hk]. }
  intros idx w1 (_ & _ & Hd). apply R_draws in Hd.
  apply post_bind, post_assign. cbn [vars glob].
  apply post_bind, post_call; [|intros e _; split; [exact Hd | exact Hk]].
  intros video_path Hget. apply getitem_list_inr in Hget.
  apply list_elem_of_lookup_2 in Hget.
  apply post_bind, post_assign. cbn [vars glob l_idx l_video_path l_vr].
  assert (Hk' : forall i v w,
            known self (Activation (Locals i (Some video_path) v) w)).
  { intros i v w p Hp. cbn in Hp. inversion Hp. subst. exact Hget. }
  apply post_bind, post_call; [|intros e _; split; [exact Hd | apply Hk']].
  intros vr _.
  apply post_bind, post_assign. cbn [vars glob l_idx l_video_path l_vr].
  destruct (vr_len vr <? 3 * num_frames self);
    [apply post_ret; split; [exact Hd | apply Hk']|].
  apply post_bind, post_global. cbn [vars glob].
  assert (Hfr : post (get_frames fuel self vr) w1
                  (fun _ w' => R w1 w') (fun _ w' => R w1 w')).
  { eapply post_weaken; [apply get_frames_draws| |];
      intros ? w2 (k & _ & Hd2); eapply R_draws; eauto. }
  eapply post_weaken; [exact Hfr| |].
  2:{ intros e w2 H2. split; [eapply R_trans; eauto | apply Hk']. }
  intros [[continuous_frames ref_frames] s] w2 H2. cbv beta.
  assert (Hd2 : R (glob a) w2) by (eapply R_trans; eauto).
  apply post_bind, post_global. cbn [vars glob].
  eapply post_weaken; [apply (audio_window_frame video_path s w2 Hget)| |].
  2:{ intros e w3 H3. split; [eapply R_trans; eauto | apply Hk']. }
  intros mel w3 H3. cbv beta.
  assert (Hd3 : R (glob a) w3) by (eapply R_trans; eauto).
  destruct mel as [mel|]; [|apply post_ret; split; [exact Hd3 | apply Hk']].
  apply post_bind, post_call; [|intros e _; split; [exact Hd3 | apply Hk']].
  intros [[gt masked_gt] mask'] _.
  apply post_bind, post_call; [|intros e _; split; [exact Hd3 | apply Hk']].
  intros ref _.
  apply post_bind, post_call; [|intros e _; split; [exact Hd3 | apply Hk']].
  intros [] _. apply post_ret. split; [exact Hd3 | apply Hk'].
Qed.

Lemma handler_frame e (a : activation) :
  known self a ->
  post (handler e) a
    (fun _ a' => R (glob a) (glob a') /\ known self a')
    (fun _ a' => R (glob a) (glob a') /\ known self a').
Proof.
  intros Hk. unfold post, handler, bind, gets.
  destruct (l_video_path (vars a)) as [p|] eqn:Ep;
    [|unfold throw; split; [apply R_refl | exact Hk]].
  unfold global, zoom, print, modify. cbn [vars glob].
  assert (HR : R (glob a) (set_stdout (stdout (glob a) ++ [(e, p)]) (glob a)))
    by (apply R_print, Hk, Ep).
  destruct (l_vr (vars a)) as [vr|]; [|split; [exact HR | exact Hk]].
  unfold call. destruct (vr_seek vr 0) as [e'|[]]; split; auto.
Qed.

Lemma attempt_frame fuel (a : activation) :
  known self a ->
  post (attempt fuel self image_processor) a
    (fun _ a' => R (glob a) (glob a') /\ known self a')
    (fun _ a' => R (glob a) (glob a') /\ known self a').
Proof.
  intros Hk. pose proof (try_body_frame fuel a Hk) as Hb.
  unfold post, attempt, try_except in *.
  destruct (try_body fuel self image_processor a) as [r a1|e a1|];
    [exact Hb| |exact I].
  destruct Hb as (HR & Hk1).
  pose proof (handler_frame e a1 Hk1) as Hh. unfold post in Hh.
  unfold bind. destruct (handler e a1) as [[] a2|e2 a2|]; [| |exact I];
    destruct Hh as (HR2 & Hk2); (split; [eapply R_trans; eauto | exact Hk2]).
Qed.

Lemma retry_loop_frame fuel (a : activation) :
  known self a ->
  post (retry_loop fuel self image_processor) a
    (fun _ a' => R (glob a) (glob a')) (fun _ a' => R (glob a) (glob a')).
Proof.
  revert a. induction fuel as [|fuel IH]; intros a Hk; [exact I|].
  cbn [retry_loop]. apply post_bind.
  eapply post_weaken; [apply (attempt_frame fuel a Hk)| |intros e a1 (HR & _); exact HR].
  intros [sample|] a1 (HR & Hk1); [apply post_ret; exact HR|].
  eapply post_weaken; [apply (IH a1 Hk1)| |];
    intros ? a2 HR2; eapply R_trans; eauto.
Qed.
End Frame.

Lemma getitem_frame {C : Collaborators} (self : UNetDataset)
    (R : process -> process -> Prop) :
  (forall w, R w w) ->
  (forall w1 w2 w3, R w1 w2 -> R w2 w3 -> R w1 w3) ->
  (forall k w w', draws k w w' -> R w w') ->
  (forall e p w,
     p ∈ video_paths self -> R w (set_stdout (stdout w ++ [(e, p)]) w)) ->
  (load_audio_data self = true -> forall p w,
     p ∈ video_paths self ->
     post (original_mel_of self p) w (fun _ w' => R w w') (fun _ w' => R w w')) ->
  forall fuel idx w,
    post (__getitem__ fuel self idx) w (fun _ w' => R w w') (fun _ w' => R w w').
Proof.
  intros H1 H2 H3 H4 H5 fuel idx w. unfold post, __getitem__.
  destruct (image_processors self !! worker_id self) as [ip|]; [|apply H1].
  pose proof (retry_loop_frame self ip R H1 H2 H3 H4 H5 fuel
                (Activation (Locals idx None None) w)) as H.
  unfold post in H. cbn [glob] in H.
  destruct (retry_loop fuel self ip _); [| |exact I]; apply H;
    intros p Hp; discriminate.
Qed.

(** X5.  With audio loading off, [__getitem__] leaves the spectrogram cache
    as it was, whether it returns or raises. *)
Theorem getitem_without_audio_keeps_cache {C : Collaborators}
    (self : UNetDataset) (fuel : nat) (idx : Z) (w : process) :
  load_audio_data self = false ->
  match __getitem__ fuel self idx w with
  | Ret _ w' => cache w' = cache w
  | Raise _ w' => cache w' = cache w
  | Stall => True
  end.
Proof.
  intros Ha.
  pose proof (getitem_frame self (fun w w' => cache w' = cache w)) as H.
  unfold post in H.
  specialize (H ltac:(reflexivity) ltac:(congruence)).
  specialize (H ltac:(intros k w1 w2 (_ & Hc & _); exact Hc)).
  specialize (H ltac:(reflexivity) ltac:(congruence) fuel idx w).
  destruct (__getitem__ fuel self idx w); exact H.
Qed.

Lemma getitem_without_audio_keeps_cache_witness :
  let self := Studio.dataset [Studio.a_mp4] 5 16 false in
  let files : gmap pystr (blob (list Z)) :=
    <[py "cache/a_mel.pt" := Unreadable]> ∅ in
  let w := World (Studio.tape [0; 10; 40]) files [] in
  load_audio_data self = false
  /\ exists sample w',
      __getitem__ 5 self 0 w = Ret sample w' /\ cache w' = files.
Proof.
  intros self files w. split; [reflexivity|].
  pose proof (getitem_without_audio_keeps_cache (C := Studio.collaborators)
                self 5 0 w eq_refl) as H.
  destruct (__getitem__ 5 self 0 w) as [sample w'|e w'|] eqn:E.
  - exists sample, w'. split; [reflexivity | exact H].
  - returned E.
  - returned E.
Defined.

Lemma original_mel_of_keeps_readable {C : Collaborators}
    (self : UNetDataset) (p : pystr) (w : process) :
  post (original_mel_of self p) w
    (fun _ w' => forall k m, cache w !! k = Some (Pickled m) ->
                             cache w' !! k = Some (Pickled m))
    (fun _ w' => forall k m, cache w !! k = Some (Pickled m) ->
                             cache w' !! k = Some (Pickled m)).
Proof.
  unfold post.
  destruct (cache w !! mel_cache_path self p) as [[m0|]|] eqn:E.
  - rewrite (original_mel_of_hit self p w m0 E). auto.
  - rewrite (original_mel_of_corrupt self p w E).
    destruct (read_audio self p) as [e|m1]; cbn; intros k m Hk;
      (destruct (decide (k = mel_cache_path self p)) as [->|Hne];
       [congruence|]).
    + rewrite lookup_delete_ne by auto. exact Hk.
    + rewrite lookup_insert_ne, lookup_delete_ne by auto. exact Hk.
  - rewrite (original_mel_of_miss self p w E).
    destruct (read_audio self p) as [e|m1]; cbn; intros k m Hk; [exact Hk|].
    destruct (decide (k = mel_cache_path self p)) as [->|Hne]; [congruence|].
    rewrite lookup_insert_ne by auto. exact Hk.
Qed.

(** X6.  A cache file that loads is neither removed nor overwritten by
    [__getitem__]: it holds the same spectrogram when the call returns or
    raises. *)
Theorem getitem_keeps_readable_cache_entries {C : Collaborators}
    (self : UNetDataset) (fuel : nat) (idx : Z) (w : process)
    (key : pystr) (m : Spectrogram) :
  cache w !! key = Some (Pickled m) ->
  match __getitem__ fuel self idx w with
  | Ret _ w' => cache w' !! key = Some (Pickled m)
  | Raise _ w' => cache w' !! key = Some (Pickled m)
  | Stall => True
  end.
Proof.
  intros Hk.
  pose proof (getitem_frame self
    (fun w w' => forall k m, cache w !! k = Some (Pickled m) ->
                             cache w' !! k = Some (Pickled m))) as H.
  unfold post in H.
  specialize (H ltac:(auto) ltac:(auto)).
  specialize (H ltac:(intros k w1 w2 (_ & Hc & _); rewrite Hc; auto)).
  specialize (H ltac:(intros; cbn; auto)).
  specialize (H ltac:(intros _ p w1 _; apply original_mel_of_keeps_readable)
                fuel idx w).
  destruct (__getitem__ fuel self idx w); [| |exact I]; apply H; exact Hk.
Qed.

Lemma getitem_keeps_readable_cache_entries_witness :
  let self := Studio.dataset [Studio.a_mp4] 5 16 true in
  let files : gmap pystr (blob (list Z)) :=
    <[py "cache/b_mel.pt" := Pickled [7; 8]]>
      (<[py "cache/a_mel.pt" := Unreadable]> ∅) in
  let w := World (Studio.tape [0; 10; 40]) files [] in
  files !! py "cache/b_mel.pt" = Some (Pickled [7; 8])
  /\ exists sample w',
      __getitem__ 5 self 0 w = Ret sample w'
      /\ cache w' !! py "cache/b_mel.pt" = Some (Pickled [7; 8])
      /\ cache w' !! py "cache/a_mel.pt" = Some (Pickled (seqZ 0 200)).
Proof.
  intros self files w.
  assert (Hk : files !! py "cache/b_mel.pt" = Some (Pickled [7; 8]))
    by (vm_compute; reflexivity).
  split; [exact Hk|].
  pose proof (getitem_keeps_readable_cache_entries (C := Studio.collaborators)
                self 5 0 w (py "cache/b_mel.pt") [7; 8] Hk) as H.
  destruct (__getitem__ 5 self 0 w) as [sample w'|e w'|] eqn:E.
  - exists sample, w'. split; [reflexivity|]. split; [exact H|].
    assert (Hr : match __getitem__ 5 self 0 w with
                 | Ret _ w' => cache w' !! py "cache/a_mel.pt"
                               = Some (Pickled (seqZ 0 200))
                 | _ => False
                 end) by (vm_compute; reflexivity).
    rewrite E in Hr. exact Hr.
  - returned E.
  - returned E.
Defined.

Lemma original_mel_of_output {C : Collaborators}
    (self : UNetDataset) (p : pystr) (w : process) :
  post (original_mel_of self p) w
    (fun _ w' => stdout w' = stdout w
                 \/ stdout w' = stdout w ++ [(LibraryError 0, mel_cache_path self p)])
    (fun _ w' => stdout w' = stdout w
                 \/ stdout w' = stdout w ++ [(LibraryError 0, mel_cache_path self p)]).
Proof.
  unfold post.
  destruct (cache w !! mel_cache_path self p) as [[m0|]|] eqn:E.
  - rewrite (original_mel_of_hit self p w m0 E). auto.
  - rewrite (original_mel_of_corrupt self p w E).
    destruct (read_audio self p) as [e|m1]; cbn; auto.
  - rewrite (original_mel_of_miss self p w E).
    destruct (read_audio self p) as [e|m1]; cbn; auto.
Qed.

(** X7.  [__getitem__] only appends to the output, and every line it prints
    names a video of the dataset (a pass that failed) or, for a cache file
    that did not load, the cache path of a video of the dataset. *)
Theorem getitem_output_only_grows {C : Collaborators}
    (self : UNetDataset) (fuel : nat) (idx : Z) (w : process) :
  let logged (line : log_line) :=
    snd line ∈ video_paths self
    \/ fst line = LibraryError 0
       /\ exists p, p ∈ video_paths self /\ snd line = mel_cache_path self p in
  match __getitem__ fuel self idx w with
  | Ret _ w' =>
      exists lines, stdout w' = stdout w ++ lines /\ Forall logged lines
  | Raise _ w' =>
      exists lines, stdout w' = stdout w ++ lines /\ Forall logged lines
  | Stall => True
  end.
Proof.
  intros logged.
  pose proof (getitem_frame self
    (fun w w' => exists lines,
       stdout w' = stdout w ++ lines /\ Forall logged lines)) as H.
  unfold post in H.
  assert (H1 : forall w0 : process, exists lines,
             stdout w0 = stdout w0 ++ lines /\ Forall logged lines).
  { intros w0. exists []. rewrite app_nil_r. auto. }
  specialize (H H1).
  specialize (H ltac:(intros w1 w2 w3 (l1 & E1 & F1) (l2 & E2 & F2);
                      exists (l1 ++ l2); rewrite E2, E1, app_assoc;
                      split; [reflexivity | apply Forall_app; auto])).
  specialize (H ltac:(intros k w1 w2 (_ & _ & Ho); exists [];
                      rewrite Ho, app_nil_r; auto)).
  specialize (H ltac:(intros e p w1 Hp; exists [(e, p)]; cbn;
                      split; [reflexivity|];
                      apply Forall_cons; split; [left; exact Hp | constructor])).
  assert (H5 : load_audio_data self = true -> forall p (w0 : process),
             p ∈ video_paths self ->
             post (original_mel_of self p) w0
               (fun _ w' => exists lines,
                  stdout w' = stdout w0 ++ lines /\ Forall logged lines)
               (fun _ w' => exists lines,
                  stdout w' = stdout w0 ++ lines /\ Forall logged lines)).
  { intros _ p w0 Hp.
    eapply post_weaken; [apply original_mel_of_output| |];
      (intros ? w1 [Ho|Ho];
       [exists []; rewrite Ho, app_nil_r; auto
       |eexists; split; [exact Ho|];
        apply Forall_cons; split; [|constructor];
        right; cbn; eauto]). }
  specialize (H H5 fuel idx w).
  destruct (__getitem__ fuel self idx w); exact H.
Qed.

Lemma getitem_output_only_grows_witness :
  let self := Studio.dataset [Studio.bad_mp4; Studio.a_mp4] 5 16 true in
  let files : gmap pystr (blob (list Z)) :=
    <[py "cache/a_mel.pt" := Unreadable]> ∅ in
  let w := World (Studio.tape [0; 1; 10; 40]) files [] in
  exists sample w',
    __getitem__ 5 self 7 w = Ret sample w'
    /\ stdout w' = [(LibraryError 2, Studio.bad_mp4);
                    (LibraryError 0, py "cache/a_mel.pt")]
    /\ exists lines,
        stdout w' = stdout w ++ lines
        /\ Forall (fun line : log_line =>
             snd line ∈ video_paths self
             \/ fst line = LibraryError 0
                /\ exists p, p ∈ video_paths self
                             /\ snd line = mel_cache_path self p) lines.
Proof.
  intros self files w.
  pose proof (getitem_output_only_grows (C := Studio.collaborators)
                self 5 7 w) as H.
  cbv zeta in H.
  destruct (__getitem__ 5 self 7 w) as [sample w'|e w'|] eqn:E.
  - exists sample, w'. split; [reflexivity|]. split; [|exact H].
    assert (Hr : match __getitem__ 5 self 7 w with
                 | Ret _ w' => stdout w' = [(LibraryError 2, Studio.bad_mp4);
                                            (LibraryError 0, py "cache/a_mel.pt")]
                 | _ => False
                 end) by (vm_compute; reflexivity).
    rewrite E in Hr. exact Hr.
  - returned E.
  - returned E.
Defined.

(** ** The sample and the cache file it was cut from *)

Section Cached.
Context {C : Collaborators}.
Variables (self : UNetDataset) (image_processor : ImageProcessor).

Lemma audio_window_cached video_path s (w w' : process) mel :
  load_audio_data self = true ->
  audio_window self video_path s w = Ret (Some mel) w' ->
  exists m window,
    cache w' !! mel_cache_path self video_path = Some (Pickled m)
    /\ crop_audio_window self m s = inr [window]
    /\ mel = Sample.Tensor [window]
    /\ Z.of_nat (length window) = mel_window_length self.
Proof.
  intros Ha. unfold audio_window. rewrite Ha. intros H.
  apply bind_Ret in H as (original_mel & w1 & Hm & H).
  apply original_mel_of_persisted in Hm.
  apply bind_Ret in H as (t & w2 & Hc & H).
  apply call_Ret in Hc as (Hc & ->).
  destruct (shape_last t =? mel_window_length self) eqn:E;
    simpl in H; [|discriminate].
  inversion H; subst; clear H. apply Z.eqb_eq in E.
  pose proof Hc as Hc'. unfold crop_audio_window in Hc'.
  destruct (crop_start self s) as [e|c]; [discriminate|]. simpl in Hc'.
  inversion Hc' as [Ht]. rewrite <- Ht in E. simpl in E.
  exists original_mel, (slice original_mel c (c + mel_window_length self)).
  rewrite Hc, <- Ht. auto.
Qed.

Lemma try_body_cached fuel (a : activation) :
  load_audio_data self = true ->
  post (try_body fuel self image_processor) a
    (fun r a' => match r with
                 | Some sample => cut_from_cache self sample (glob a')
                 | None => True
                 end)
    (fun _ _ => True).
Proof.
  intros Ha. unfold try_body.
  apply post_bind, post_global, post_intro; [|auto]. intros idx w1 _.
  apply post_bind, post_assign. cbn [vars glob].
  apply post_bind, post_call; [|auto]. intros video_path _.
  apply post_bind, post_assign. cbn [vars glob].
  apply post_bind, post_call; [|auto]. intros vr _.
  apply post_bind, post_assign. cbn [vars glob].
  destruct (vr_len vr <? 3 * num_frames self); [apply post_ret; exact I|].
  apply post_bind, post_global, post_intro; [|auto].
  intros [[continuous_frames ref_frames] s] w2 _. cbn [vars glob].
  apply post_bind, post_global, post_intro; [|auto].
  intros [mel|] w3 Hmel; [|apply post_ret; exact I]. cbn [vars glob].
  apply post_bind, post_call; [|auto]. intros [[gt masked_gt] mask'] _.
  apply post_bind, post_call; [|auto]. intros ref _.
  apply post_bind, post_call; [|auto]. intros [] _.
  apply post_ret. cbn [glob].
  exact (audio_window_cached _ _ _ _ _ Ha Hmel).
Qed.

Lemma retry_loop_cached fuel (a : activation) :
  load_audio_data self = true ->
  post (retry_loop fuel self image_processor) a
    (fun sample a' => cut_from_cache self sample (glob a')) (fun _ _ => True).
Proof.
  intros Ha. revert a. induction fuel as [|fuel IH]; intros a; [exact I|].
  cbn [retry_loop]. apply post_bind. unfold attempt.
  pose proof (try_body_cached fuel a Ha) as Hb.
  unfold post at 1. unfold try_except. unfold post in Hb.
  destruct (try_body fuel self image_processor a) as [[sample|] a1|e a1|];
    [apply post_ret; exact Hb | apply IH | |exact I].
  unfold bind. destruct (handler e a1) as [[] a2|e2 a2|]; [|exact I|exact I].
  apply IH.
Qed.
End Cached.

(** X8.  With audio loading on, when [__getitem__] returns a sample the cache
    holds a spectrogram that loads at the cache path of the sample's video,
    and the sample's [mel] is the window [crop_audio_window] cuts from it at
    the sample's start, of the full [mel_window_length]. *)
Theorem sample_mel_is_cached {C : Collaborators} (self : UNetDataset)
    (fuel : nat) (idx : Z) (w : process) (sample : Sample.t) (w' : process) :
  load_audio_data self = true ->
  __getitem__ fuel self idx w = Ret sample w' ->
  exists m window,
    cache w' !! mel_cache_path self (Sample.video_path sample)
    = Some (Pickled m)
    /\ crop_audio_window self m (Sample.start_idx sample) = inr [window]
    /\ Sample.mel sample = Sample.Tensor [window]
    /\ Z.of_nat (length window) = mel_window_length self.
Proof.
  intros Ha H. unfold __getitem__ in H.
  destruct (image_processors self !! worker_id self) as [ip|]; [|discriminate].
  pose proof (retry_loop_cached self ip fuel
                (Activation (Locals idx None None) w) Ha) as Hp.
  unfold post in Hp.
  destruct (retry_loop fuel self ip _) as [s a'|e a'|]; [|discriminate..].
  inversion H; subst. exact Hp.
Qed.

Lemma sample_mel_is_cached_witness :
  let self := Studio.dataset [Studio.a_mp4] 5 16 true in
  let w := Studio.fresh [0; 10; 40] in
  load_audio_data self = true
  /\ exists sample w',
      __getitem__ 5 self 0 w = Ret sample w'
      /\ exists m window,
          cache w' !! mel_cache_path self (Sample.video_path sample)
          = Some (Pickled m)
          /\ crop_audio_window self m (Sample.start_idx sample) = inr [window]
          /\ Sample.mel sample = Sample.Tensor [window]
          /\ Z.of_nat (length window) = mel_window_length self.
Proof.
  intros self w. split; [reflexivity|].
  destruct (__getitem__ 5 self 0 w) as [sample w'|e w'|] eqn:E.
  - exists sample, w'. split; [reflexivity|].
    exact (sample_mel_is_cached (C := Studio.collaborators)
             self 5 0 w sample w' eq_refl E).
  - returned E.
  - returned E.
Defined.

(** ** Videos that share a cache file *)

(** X9.  Two videos with the same base name share one cache file: once the
    spectrogram of the first is obtained, the lookup for the second returns
    the first's from the cache and does not read the second's audio. *)
Theorem same_basename_shares_cache {C : Collaborators} (self : UNetDataset)
    (p q : pystr) (w : process) (m : Spectrogram) (w' : process) :
  basename p = basename q ->
  original_mel_of self p w = Ret m w' ->
  mel_cache_path self q = mel_cache_path self p
  /\ original_mel_of self q w' = Ret m w'.
Proof.
  intros Hb H.
  assert (Hk : mel_cache_path self q = mel_cache_path self p)
    by (unfold mel_cache_path; rewrite Hb; reflexivity).
  split; [exact Hk|].
  apply original_mel_of_hit. rewrite Hk.
  eapply original_mel_of_persisted. exact H.
Qed.

Lemma same_basename_shares_cache_witness :
  let self := Studio.dataset [Studio.a_mp4; py "e/a.mp4"] 5 16 true in
  let warm := World (Studio.tape []) (<[py "cache/a_mel.pt" := Pickled (seqZ 0 200)]> ∅) [] in
  (basename Studio.a_mp4 = basename (py "e/a.mp4")
   /\ original_mel_of self Studio.a_mp4 (Studio.fresh []) = Ret (seqZ 0 200) warm)
  /\ read_audio self (py "e/a.mp4") = inl (LibraryError 3)
  /\ mel_cache_path self (py "e/a.mp4") = mel_cache_path self Studio.a_mp4
  /\ original_mel_of self (py "e/a.mp4") warm = Ret (seqZ 0 200) warm.
Proof.
  intros self warm.
  assert (Hb : basename Studio.a_mp4 = basename (py "e/a.mp4"))
    by (vm_compute; reflexivity).
  assert (Hm : original_mel_of self Studio.a_mp4 (Studio.fresh [])
               = Ret (seqZ 0 200) warm) by (vm_compute; reflexivity).
  split; [auto|]. split; [vm_compute; reflexivity|].
  exact (same_basename_shares_cache (C := Studio.collaborators)
           self Studio.a_mp4 (py "e/a.mp4") _ _ _ Hb Hm).
Defined.

(** ** An empty index *)

(** X10.  On a dataset with no video ([__len__] is 0) [__getitem__] raises
    [UnboundLocalError] at its first pass: [random.randint(0, -1)] raises
    inside the [try], and the message of the handler reads [video_path],
    which is not bound yet.  Nothing is drawn and nothing is printed. *)
Theorem getitem_on_empty_dataset {C : Collaborators} (self : UNetDataset)
    (ip : ImageProcessor) (fuel : nat) (idx : Z) (w : process) :
  video_paths self = [] ->
  image_processors self !! worker_id self = Some ip ->
  __len__ self = 0
  /\ __getitem__ (S fuel) self idx w = Raise UnboundLocalError w.
Proof.
  intros He Hip. unfold __len__. rewrite He. split; [reflexivity|].
  unfold __getitem__. rewrite Hip. cbn [retry_loop].
  unfold attempt, try_except, try_body, global, zoom, randint, __len__.
  unfold bind at 1 2 3. rewrite He. reflexivity.
Qed.

Lemma getitem_on_empty_dataset_witness :
  let self := Studio.dataset [] 5 16 false in
  __len__ self = 0
  /\ __getitem__ 4 self 7 (Studio.fresh [3; 1])
     = Raise UnboundLocalError (Studio.fresh [3; 1]).
Proof.
  intros self.
  apply (getitem_on_empty_dataset (C := Studio.collaborators) self tt 3 7).
  - reflexivity.
  - vm_compute. reflexivity.
Defined.

(** ** Workers *)

(** X11.  When the image processor cannot be built, [worker_init_fn] raises
    after [worker_id] is set: if no processor was registered for the new
    worker id, every later [__getitem__] raises [AttributeError] at once,
    the process state untouched. *)
Theorem worker_init_fn_failure_breaks_getitem {C : Collaborators}
    (self : UNetDataset) (k : Z) (e : exn) :
  new_ImageProcessor (resolution self) (mask self) (mask_image self) = inl e ->
  image_processors self !! k = None ->
  snd (worker_init_fn self k) = inl e
  /\ worker_id (fst (worker_init_fn self k)) = k
  /\ forall fuel idx w,
       __getitem__ fuel (fst (worker_init_fn self k)) idx w
       = Raise AttributeError w.
Proof.
  intros He Hk. unfold worker_init_fn. rewrite He. cbn [fst snd worker_id].
  split; [reflexivity|]. split; [reflexivity|].
  intros fuel idx w. unfold __getitem__. cbn [worker_id image_processors].
  rewrite Hk. reflexivity.
Qed.

Lemma worker_init_fn_failure_breaks_getitem_witness :
  let self := Flaky.dataset [Studio.a_mp4] 512 5 in
  image_processors self !! 0 = Some tt
  /\ image_processors self !! 1 = None
  /\ snd (worker_init_fn self 1) = inl (LibraryError 5)
  /\ worker_id (fst (worker_init_fn self 1)) = 1
  /\ forall fuel idx w,
       __getitem__ fuel (fst (worker_init_fn self 1)) idx w
       = Raise AttributeError w.
Proof.
  intros self.
  assert (H0 : image_processors self !! 0 = Some tt) by (vm_compute; reflexivity).
  assert (H1 : image_processors self !! 1 = None) by (vm_compute; reflexivity).
  split; [exact H0|]. split; [exact H1|].
  apply (worker_init_fn_failure_breaks_getitem (C := Flaky.collaborators)
           self 1 (LibraryError 5)); [reflexivity | exact H1].
Defined.

(** X12.  A successful [worker_init_fn] sets [worker_id], registers under it
    an image processor built from the dataset's resolution, mask mode and
    mask image, keeps the processors of the other workers and leaves the
    index alone.  The samples [__getitem__] then returns are made with that
    processor, and only [seek(0)] can make it raise. *)
Theorem worker_init_fn_switches_processor {C : Collaborators}
    (self : UNetDataset) (k : Z) (self' : UNetDataset) :
  worker_init_fn self k = (self', inr tt) ->
  exists ip,
    new_ImageProcessor (resolution self) (mask self) (mask_image self) = inr ip
    /\ worker_id self' = k
    /\ image_processors self' !! k = Some ip
    /\ (forall j, j <> k ->
          image_processors self' !! j = image_processors self !! j)
    /\ video_paths self' = video_paths self
    /\ __len__ self' = __len__ self
    /\ (video_paths self <> [] ->
        forall fuel idx w,
          match __getitem__ fuel self' idx w with
          | Ret sample _ => sample_ok self' ip sample
          | Raise e _ => exists vr, vr_seek vr 0 = inl e
          | Stall => True
          end).
Proof.
  unfold worker_init_fn.
  destruct (new_ImageProcessor _ _ _) as [e|ip] eqn:E; intros H;
    inversion H; subst; clear H.
  exists ip. cbn [worker_id image_processors video_paths].
  split; [reflexivity|]. split; [reflexivity|].
  split; [apply lookup_insert_eq|].
  split; [intros j Hj; apply lookup_insert_ne; auto|].
  split; [reflexivity|]. split; [reflexivity|].
  intros Hne fuel idx w.
  match goal with |- context [__getitem__ fuel ?s idx w] => set (self' := s) end.
  assert (Hip : image_processors self' !! worker_id self' = Some ip)
    by apply lookup_insert_eq.
  pose proof (getitem_post self' ip fuel idx w Hne Hip) as Hp.
  unfold post in Hp. destruct (__getitem__ fuel self' idx w); exact Hp.
Qed.

Lemma worker_init_fn_switches_processor_witness :
  let self := Studio.dataset [Studio.a_mp4] 5 16 false in
  exists self',
    worker_init_fn self 3 = (self', inr tt)
    /\ worker_id self' = 3
    /\ image_processors self' !! 3 = Some tt
    /\ image_processors self' !! 0 = Some tt
    /\ __len__ self' = 1.
Proof.
  intros self. eexists. split; [reflexivity|].
  destruct (worker_init_fn_switches_processor (C := Studio.collaborators)
              self 3 _ eq_refl)
    as (ip & _ & Hw & Hk & Hj & _ & Hlen & _).
  split; [exact Hw|]. split; [destruct ip; exact Hk|].
  split; [rewrite Hj by discriminate; vm_compute; reflexivity|].
  rewrite Hlen. reflexivity.
Defined.

(** ** A dataset as constructed *)

(** X13.  A dataset returned by [__init__], with a non-empty index, is ready
    without [worker_init_fn]: the image processor of worker 0 is
    registered, [__getitem__] returns samples made with it, and raises only
    what [seek(0)] raises. *)
Theorem constructed_dataset_serves_samples {C : Collaborators}
    (train_data_dir : pystr) (cfg : config.t) (self : UNetDataset) :
  __init__ train_data_dir cfg = inr self ->
  video_paths self <> [] ->
  exists mask_image ip,
    load_fixed_mask (config.resolution (config.data cfg)) = inr mask_image
    /\ new_ImageProcessor (config.resolution (config.data cfg))
         (config.mask (config.data cfg)) mask_image = inr ip
    /\ worker_id self = 0
    /\ image_processors self !! 0 = Some ip
    /\ forall fuel idx w,
         match __getitem__ fuel self idx w with
         | Ret sample _ => sample_ok self ip sample
         | Raise e _ => exists vr, vr_seek vr 0 = inl e
         | Stall => True
         end.
Proof.
  intros H Hne. pose proof H as H0. unfold __init__ in H.
  apply and_then_inr in H as (paths & Hp & H).
  apply and_then_inr in H as (mwl & Hm & H).
  apply and_then_inr in H as (mi & Hmi & H).
  apply and_then_inr in H as ([] & Hmk & H).
  apply and_then_inr in H as (ip & Hip & H).
  inversion H; subst; clear H.
  exists mi, ip. split; [exact Hmi|]. split; [exact Hip|].
  split; [reflexivity|]. split; [apply lookup_singleton_eq|].
  intros fuel idx w.
  match goal with |- context [__getitem__ fuel ?s idx w] => set (self := s) end.
  assert (Hreg : image_processors self !! worker_id self = Some ip)
    by apply lookup_singleton_eq.
  pose proof (getitem_post self ip fuel idx w Hne Hreg) as Hpost.
  unfold post in Hpost. destruct (__getitem__ fuel self idx w); exact Hpost.
Qed.

Lemma constructed_dataset_serves_samples_witness :
  let self :=
    Studio.dataset [Studio.a_mp4; Studio.short_mp4; Studio.bad_mp4] 5 16 false in
  (__init__ (py "d") (Studio.cfg [] 5 false) = inr self
   /\ video_paths self <> [])
  /\ exists sample w',
      __getitem__ 5 self 0 (Studio.fresh [0; 10; 40]) = Ret sample w'
      /\ sample_ok self tt sample.
Proof.
  intros self.
  assert (Hinit : __init__ (py "d") (Studio.cfg [] 5 false) = inr self)
    by (vm_compute; reflexivity).
  assert (Hne : video_paths self <> []) by discriminate.
  split; [auto|].
  destruct (constructed_dataset_serves_samples (C := Studio.collaborators)
              (py "d") (Studio.cfg [] 5 false) self Hinit Hne)
    as (mi & ip & _ & _ & _ & _ & Hget).
  specialize (Hget 5%nat 0 (Studio.fresh [0; 10; 40])). destruct ip.
  destruct (__getitem__ 5 self 0 (Studio.fresh [0; 10; 40]))
    as [sample w'|e w'|] eqn:E.
  - exists sample, w'. split; [reflexivity | exact Hget].
  - exfalso.
    assert (Hr : match __getitem__ 5 self 0 (Studio.fresh [0; 10; 40]) with
                 | Ret _ _ => True | _ => False end)
      by (vm_compute; exact I).
    rewrite E in Hr. exact Hr.
  - exfalso.
    assert (Hr : match __getitem__ 5 self 0 (Studio.fresh [0; 10; 40]) with
                 | Ret _ _ => True | _ => False end)
      by (vm_compute; exact I).
    rewrite E in Hr. exact Hr.
Defined.

(** ** Passes that end early, and the handler *)

Section Passes.
Context {C : Collaborators}.
Variables (self : UNetDataset) (image_processor : ImageProcessor).

(** The first statements of the [try] body, up to the opening of the
    video: what is left to run once the index is drawn. *)
Lemma try_body_opens fuel (a : activation) p :
  video_paths self <> [] ->
  let idx := draw_of 0 (__len__ self - 1) (rng (glob a) 0%nat) in
  let w1 := set_rng (fun n => rng (glob a) (S n)) (glob a) in
  video_paths self !! Z.to_nat idx = Some p ->
  try_body fuel self image_processor a
  = match new_VideoReader p (worker_id self) with
    | inl e => Raise e (Activation (Locals idx (Some p) (l_vr (vars a))) w1)
    | inr vr =>
        if vr_len vr <? 3 * num_frames self
        then Ret None (Activation (Locals idx (Some p) (Some vr)) w1)
        else
          (fr <- global (get_frames fuel self vr) ;;
           let '(continuous_frames, ref_frames, start_idx) := fr in
           mel <- global (audio_window self p start_idx) ;;
           match mel with
           | None => ret None
           | Some mel =>
               pos <- call (prepare_masks_and_masked_images image_processor
                              continuous_frames false) ;;
               let '(gt, masked_gt, mask') := pos in
               ref <- call (reference_images self image_processor ref_frames) ;;
               call (vr_seek vr 0) ;;;
               ret (Some {| Sample.gt := gt; Sample.masked_gt := masked_gt;
                            Sample.ref := ref; Sample.mel := mel;
                            Sample.mask := mask'; Sample.video_path := p;
                            Sample.start_idx := start_idx |})
           end) (Activation (Locals idx (Some p) (Some vr)) w1)
    end.
Proof.
  intros Hne idx w1 Hp.
  assert (Hlen : 1 <= __len__ self).
  { unfold __len__. destruct (video_paths self); [congruence|]. simpl. lia. }
  assert (Hidx : 0 <= idx < __len__ self)
    by (pose proof (draw_of_range 0 (__len__ self - 1) (rng (glob a) 0%nat));
        unfold idx; lia).
  destruct (getitem_list_in_range (video_paths self) idx Hidx)
    as (p' & Hget & Hlook).
  assert (p' = p) by congruence. subst p'.
  unfold try_body. unfold bind at 1. unfold global at 1, zoom.
  rewrite randint_total by lia. fold idx w1.
  unfold bind at 1. unfold assign at 1, modify. cbn [vars glob].
  unfold bind at 1. rewrite Hget. unfold call at 1, ret at 1.
  unfold bind at 1. unfold assign at 1, modify.
  cbn [vars glob l_idx l_video_path l_vr].
  unfold bind at 1.
  destruct (new_VideoReader p (worker_id self)) as [e|vr]; [reflexivity|].
  unfold call at 1, ret at 1.
  unfold bind at 1. unfold assign at 1, modify.
  cbn [vars glob l_idx l_video_path l_vr].
  destruct (vr_len vr <? 3 * num_frames self); reflexivity.
Qed.

Lemma retry_loop_all_short fuel (a : activation) :
  video_paths self <> [] ->
  (forall p, p ∈ video_paths self ->
     exists vr, new_VideoReader p (worker_id self) = inr vr
                /\ vr_len vr < 3 * num_frames self) ->
  retry_loop fuel self image_processor a = Stall.
Proof.
  intros Hne Hshort. revert a.
  induction fuel as [|fuel IH]; intros a; [reflexivity|].
  cbn [retry_loop]. unfold bind, attempt, try_except.
  assert (Hlen : 1 <= __len__ self).
  { unfold __len__. destruct (video_paths self); [congruence|]. simpl. lia. }
  set (idx := draw_of 0 (__len__ self - 1) (rng (glob a) 0%nat)).
  assert (Hidx : 0 <= idx < __len__ self)
    by (pose proof (draw_of_range 0 (__len__ self - 1) (rng (glob a) 0%nat));
        unfold idx; lia).
  destruct (getitem_list_in_range (video_paths self) idx Hidx)
    as (p & _ & Hlook).
  rewrite (try_body_opens fuel a p Hne Hlook).
  destruct (Hshort p (list_elem_of_lookup_2 _ _ _ Hlook)) as (vr & -> & Hs).
  apply Z.ltb_lt in Hs. rewrite Hs. apply IH.
Qed.
End Passes.

(** X14.  A pass that draws a video of fewer than [3 * N] frames ends at
    [continue]: one draw is consumed, nothing is printed, the cache is not
    touched and [vr.seek(0)] is not called.  On a dataset where every video
    opens and is that short, [__getitem__] never returns. *)
Theorem short_videos_are_skipped_silently {C : Collaborators}
    (self : UNetDataset) (ip : ImageProcessor) :
  video_paths self <> [] ->
  (forall fuel a p vr,
     let idx := draw_of 0 (__len__ self - 1) (rng (glob a) 0%nat) in
     video_paths self !! Z.to_nat idx = Some p ->
     new_VideoReader p (worker_id self) = inr vr ->
     vr_len vr < 3 * num_frames self ->
     attempt fuel self ip a
     = Ret None (Activation (Locals idx (Some p) (Some vr))
                   (World (fun n => rng (glob a) (S n))
                      (cache (glob a)) (stdout (glob a)))))
  /\ ((forall p, p ∈ video_paths self ->
         exists vr, new_VideoReader p (worker_id self) = inr vr
                    /\ vr_len vr < 3 * num_frames self) ->
      image_processors self !! worker_id self = Some ip ->
      forall fuel idx w, __getitem__ fuel self idx w = Stall).
Proof.
  intros Hne. split.
  - intros fuel a p vr idx Hp Hvr Hs. unfold attempt, try_except.
    rewrite (try_body_opens self ip fuel a p Hne Hp), Hvr.
    apply Z.ltb_lt in Hs. rewrite Hs. reflexivity.
  - intros Hshort Hip fuel idx w. unfold __getitem__. rewrite Hip.
    rewrite (retry_loop_all_short self ip fuel _ Hne Hshort). reflexivity.
Qed.

Lemma short_videos_are_skipped_silently_witness :
  let self := Studio.dataset [Studio.short_mp4] 5 16 false in
  video_paths self <> []
  /\ attempt (C := Studio.collaborators) 3 self tt
       (Activation (Locals 7 None None) (Studio.fresh [4]))
     = Ret None (Activation (C := Studio.collaborators)
                   (Locals (C := Studio.collaborators) 0
                      (Some Studio.short_mp4) (Some 10))
                   (World (fun n => Studio.tape [4] (S n)) ∅ []))
  /\ forall fuel idx w, __getitem__ fuel self idx w = Stall.
Proof.
  intros self.
  assert (Hne : video_paths self <> []) by discriminate.
  split; [exact Hne|].
  destruct (short_videos_are_skipped_silently (C := Studio.collaborators)
              self tt Hne) as (Hpass & Hall).
  split.
  - apply (Hpass 3%nat (Activation (Locals 7 None None) (Studio.fresh [4]))
             Studio.short_mp4 10).
    + reflexivity.
    + vm_compute. reflexivity.
    + vm_compute. reflexivity.
  - apply Hall; [|vm_compute; reflexivity].
    intros p Hp. apply list_elem_of_singleton in Hp. subst p.
    exists 10. split; vm_compute; reflexivity.
Defined.

(** X15.  The local [vr] outlives an iteration: when a later pass fails to
    open its video, the handler prints the failure with the new path and
    calls [seek(0)] on the reader the earlier pass left; if that raises,
    the exception leaves the loop. *)
Theorem handler_seeks_previous_reader {C : Collaborators}
    (self : UNetDataset) (ip : ImageProcessor) (fuel : nat) (a : activation)
    (vr_old : VideoReader) (p : pystr) (e : exn) :
  video_paths self <> [] ->
  l_vr (vars a) = Some vr_old ->
  let idx := draw_of 0 (__len__ self - 1) (rng (glob a) 0%nat) in
  video_paths self !! Z.to_nat idx = Some p ->
  new_VideoReader p (worker_id self) = inl e ->
  let a2 := Activation (Locals idx (Some p) (Some vr_old))
              (World (fun n => rng (glob a) (S n)) (cache (glob a))
                 (stdout (glob a) ++ [(e, p)])) in
  attempt fuel self ip a
  = match vr_seek vr_old 0 with
    | inr _ => Ret None a2
    | inl e' => Raise e' a2
    end.
Proof.
  intros Hne Hold idx Hp Hvr a2. unfold attempt, try_except.
  rewrite (try_body_opens self ip fuel a p Hne Hp), Hvr, Hold.
  unfold bind, handler, bind, gets, global, zoom, print, modify, call.
  cbn [vars glob l_video_path l_vr].
  destruct (vr_seek vr_old 0) as [e'|[]]; reflexivity.
Qed.

Lemma handler_seeks_previous_reader_witness :
  let self := Flaky.dataset [Studio.short_mp4; Studio.bad_mp4] 256 5 in
  let a := Activation (C := Flaky.collaborators)
             (Locals (C := Flaky.collaborators) 0 (Some Studio.short_mp4)
                (Some 10))
             (Flaky.fresh [1]) in
  let a2 := Activation (C := Flaky.collaborators)
              (Locals (C := Flaky.collaborators) 1 (Some Studio.bad_mp4)
                 (Some 10))
              (World (fun n => Studio.tape [1] (S n)) ∅
                 [(LibraryError 2, Studio.bad_mp4)]) in
  attempt 3 self tt (Activation (Locals 7 None None) (Flaky.fresh [0; 1]))
  = Ret None (Activation (vars a)
                (World (fun n => Studio.tape [0; 1] (S n)) ∅ []))
  /\ attempt 3 self tt a = Raise (LibraryError 4) a2
  /\ __getitem__ 4 self 7 (Flaky.fresh [0; 1])
     = Raise (LibraryError 4)
         (World (fun n => Studio.tape [0; 1] (S (S n))) ∅
            [(LibraryError 2, Studio.bad_mp4)]).
Proof.
  intros self a a2.
  split; [vm_compute; reflexivity|].
  split; [|vm_compute; reflexivity].
  apply (handler_seeks_previous_reader (C := Flaky.collaborators)
           self tt 3 a 10 Studio.bad_mp4 (LibraryError 2)).
  - discriminate.
  - reflexivity.
  - vm_compute. reflexivity.
  - vm_compute. reflexivity.
Defined.

(** X16.  An exception of [vr.seek(0)] in the handler is not contained: when
    the first pass fails with a reader bound whose [seek(0)] raises,
    [__getitem__] prints the failure of the pass and raises what [seek]
    raised. *)
Theorem handler_seek_error_escapes {C : Collaborators}
    (self : UNetDataset) (ip : ImageProcessor) (fuel : nat) (idx : Z)
    (w : process) (e : exn) (a1 : activation) (vr : VideoReader) (e' : exn) :
  video_paths self <> [] ->
  image_processors self !! worker_id self = Some ip ->
  try_body fuel self ip (Activation (Locals idx None None) w) = Raise e a1 ->
  l_vr (vars a1) = Some vr ->
  vr_seek vr 0 = inl e' ->
  exists p,
    l_video_path (vars a1) = Some p
    /\ p ∈ video_paths self
    /\ __getitem__ (S fuel) self idx w
       = Raise e' (set_stdout (stdout (glob a1) ++ [(e, p)]) (glob a1)).
Proof.
  intros Hne Hip Hb Hvr Hseek.
  destruct (attempt_after_failure self ip fuel _ a1 e Hne Hb)
    as (p & Hp & Hlook & Ha).
  exists p. split; [exact Hp|].
  split; [eapply list_elem_of_lookup_2; exact Hlook|].
  cbv zeta in Ha. rewrite Hvr, Hseek in Ha.
  unfold __getitem__. rewrite Hip. cbn [retry_loop]. unfold bind.
  rewrite Ha. reflexivity.
Qed.

Lemma handler_seek_error_escapes_witness :
  let self := Flaky.dataset [Studio.a_mp4] 256 5 in
  let w := Flaky.fresh [0; 10; 40] in
  let w3 := World (fun n => Studio.tape [0; 10; 40] (S (S (S n)))) ∅ [] in
  let a1 := Activation (C := Flaky.collaborators)
              (Locals (C := Flaky.collaborators) 0 (Some Studio.a_mp4) (Some 60))
              w3 in
  (video_paths self <> []
   /\ try_body 5 self tt (Activation (Locals 7 None None) w)
      = Raise (LibraryError 4) a1
   /\ vr_seek (Collaborators := Flaky.collaborators) 60 0
      = inl (LibraryError 4))
  /\ exists p,
      l_video_path (vars a1) = Some p
      /\ p ∈ video_paths self
      /\ __getitem__ 6 self 7 w
         = Raise (LibraryError 4)
             (set_stdout (stdout (glob a1) ++ [(LibraryError 4, p)]) (glob a1)).
Proof.
  intros self w w3 a1.
  assert (Hne : video_paths self <> []) by discriminate.
  assert (Hb : try_body 5 self tt (Activation (Locals 7 None None) w)
               = Raise (LibraryError 4) a1) by (vm_compute; reflexivity).
  assert (Hs : vr_seek (Collaborators := Flaky.collaborators) 60 0
               = inl (LibraryError 4)) by reflexivity.
  split; [auto|].
  apply (handler_seek_error_escapes (C := Flaky.collaborators)
           self tt 5 7 w (LibraryError 4) a1 60 (LibraryError 4) Hne);
    [vm_compute; reflexivity | exact Hb | reflexivity | exact Hs].
Defined.

(** ** The audio branch *)

Lemma float_of_int_inl z e : float_of_int z = inl e -> e = OverflowError.
Proof.
  unfold float_of_int. destruct (binary_normalize 53 1024 z 0 false);
    intros H; inversion H; reflexivity.
Qed.

Lemma crop_start_zero_fps {C : Collaborators} (self : UNetDataset) s :
  video_fps self = 0 ->
  crop_start self s
  = match float_of_int s with
    | inl e => inl e
    | inr _ => inl ZeroDivisionError
    end.
Proof.
  intros Hf. unfold crop_start. rewrite Hf.
  change (float_of_int 0) with (@inr exn _ (S754_zero false)).
  cbn [and_then]. destruct (float_of_int s) as [e|x]; reflexivity.
Qed.

(** X17.  With [video_fps = 0], [crop_audio_window] raises at every start
    index: [ZeroDivisionError] when the index converts to a float (as every
    [0 <= s < 2 ^ 53] does), [OverflowError] otherwise.  With audio loading
    on, [__getitem__] then never returns a sample. *)
Theorem zero_fps_never_returns {C : Collaborators} (self : UNetDataset) :
  video_fps self = 0 ->
  (forall original_mel s,
     crop_audio_window self original_mel s = inl ZeroDivisionError
     \/ crop_audio_window self original_mel s = inl OverflowError)
  /\ (forall original_mel s,
        0 <= s < 2 ^ 53 ->
        crop_audio_window self original_mel s = inl ZeroDivisionError)
  /\ (load_audio_data self = true ->
      forall fuel idx w sample w',
        __getitem__ fuel self idx w <> Ret sample w').
Proof.
  intros Hf.
  assert (H1 : forall original_mel s,
             crop_audio_window self original_mel s = inl ZeroDivisionError
             \/ crop_audio_window self original_mel s = inl OverflowError).
  { intros m s. unfold crop_audio_window.
    rewrite (crop_start_zero_fps self s Hf).
    destruct (float_of_int s) as [e|x] eqn:E; cbn [and_then]; [|auto].
    apply float_of_int_inl in E. subst. auto. }
  split; [exact H1|]. split.
  - intros m s Hs. unfold crop_audio_window.
    rewrite (crop_start_zero_fps self s Hf).
    destruct (Z.eq_dec s 0) as [->|Hs0]; [reflexivity|].
    destruct (float_of_int_exact s ltac:(lia)) as (d & _ & _ & _ & ->).
    reflexivity.
  - intros Ha fuel idx w sample w' H.
    unfold __getitem__ in H.
    destruct (image_processors self !! worker_id self) as [ip|];
      [|discriminate].
    pose proof (retry_loop_cached self ip fuel
                  (Activation (Locals idx None None) w) Ha) as Hp.
    unfold post in Hp.
    destruct (retry_loop fuel self ip _) as [s a'|e a'|]; [|discriminate..].
    destruct Hp as (m & window & _ & Hc & _).
    destruct (H1 m (Sample.start_idx s)) as [E|E]; congruence.
Qed.

Lemma zero_fps_never_returns_witness :
  let self := Studio.at_fps 0 (Studio.dataset [Studio.a_mp4] 5 16 true) in
  video_fps self = 0
  /\ crop_audio_window self (seqZ 0 200) 12 = inl ZeroDivisionError
  /\ forall fuel idx w sample w', __getitem__ fuel self idx w <> Ret sample w'.
Proof.
  intros self.
  destruct (zero_fps_never_returns (C := Studio.collaborators) self eq_refl)
    as (_ & Hz & Hnever).
  split; [reflexivity|]. split.
  - apply Hz. vm_compute. split; [discriminate | reflexivity].
  - apply Hnever. reflexivity.
Defined.

(** X18.  The audio branch, for a frame rate [1 <= fps < 2 ^ 53], a start
    [0 <= s < 2 ^ 44] and [mel_window_length >= 1]: with
    [c = floor(80 * s / fps)], the window is the [mel_window_length] columns
    from [c] when the spectrogram reaches that far, and otherwise the pass
    is given up ([continue]); either way the process is left as the
    spectrogram lookup left it. *)
Theorem audio_window_skips_short_tail {C : Collaborators}
    (self : UNetDataset) (p : pystr) (s : Z) (w : process)
    (m : Spectrogram) (w' : process) :
  load_audio_data self = true ->
  1 <= video_fps self < 2 ^ 53 ->
  0 <= s < 2 ^ 44 ->
  1 <= mel_window_length self ->
  original_mel_of self p w = Ret m w' ->
  let c := 80 * s / video_fps self in
  audio_window self p s w
  = Ret (if c + mel_window_length self <=? Z.of_nat (length m)
         then Some (Sample.Tensor
                      [firstn (Z.to_nat (mel_window_length self))
                              (skipn (Z.to_nat c) m)])
         else None) w'.
Proof.
  intros Ha Hf Hs HL Hm c.
  assert (H0 : 0 <= c) by (unfold c; apply Z.div_pos; lia).
  unfold audio_window. rewrite Ha. unfold bind at 1. rewrite Hm.
  unfold crop_audio_window. rewrite (crop_start_floor self s Hf Hs).
  fold c. cbn [and_then]. unfold bind, call, ret. cbn [shape_last].
  rewrite slice_nonneg by lia.
  replace (c + mel_window_length self - c) with (mel_window_length self) by lia.
  rewrite length_firstn, length_skipn.
  destruct (c + mel_window_length self <=? Z.of_nat (length m)) eqn:E;
    [apply Z.leb_le in E | apply Z.leb_gt in E].
  - replace (_ =? _) with true; [reflexivity|].
    symmetry. apply Z.eqb_eq. lia.
  - replace (_ =? _) with false; [reflexivity|].
    symmetry. apply Z.eqb_neq. lia.
Qed.

Lemma audio_window_skips_short_tail_witness :
  let self := Studio.dataset [Studio.a_mp4] 5 16 true in
  let warm := World (Studio.tape []) (<[py "cache/a_mel.pt" := Pickled (seqZ 0 200)]> ∅) [] in
  audio_window self Studio.a_mp4 25 (Studio.fresh [])
  = Ret (Some (Sample.Tensor (C := Studio.collaborators) [seqZ 80 16])) warm
  /\ audio_window self Studio.a_mp4 58 (Studio.fresh []) = Ret None warm.
Proof.
  intros self warm.
  assert (Hf : 1 <= video_fps self < 2 ^ 53)
    by (vm_compute; split; discriminate || reflexivity).
  assert (H25 : 0 <= 25 < 2 ^ 44)
    by (vm_compute; split; discriminate || reflexivity).
  assert (H58 : 0 <= 58 < 2 ^ 44)
    by (vm_compute; split; discriminate || reflexivity).
  assert (HL : 1 <= mel_window_length self) by (vm_compute; discriminate).
  assert (Hm : original_mel_of self Studio.a_mp4 (Studio.fresh [])
               = Ret (seqZ 0 200) warm) by (vm_compute; reflexivity).
  split.
  - rewrite (audio_window_skips_short_tail (C := Studio.collaborators)
               self Studio.a_mp4 25 _ _ _ eq_refl Hf H25 HL Hm).
    vm_compute. reflexivity.
  - rewrite (audio_window_skips_short_tail (C := Studio.collaborators)
               self Studio.a_mp4 58 _ _ _ eq_refl Hf H58 HL Hm).
    vm_compute. reflexivity.
Defined.

(** ** Paths of the directory scan *)

Lemma existsb_slash_false f : slash ∉ f -> existsb (N.eqb slash) f = false.
Proof.
  intros H. apply not_true_iff_false. intros E.
  apply existsb_exists in E as (c & Hin & Hc). apply N.eqb_eq in Hc. subst c.
  apply H, list_elem_of_In, Hin.
Qed.

Lemma existsb_slash_true a f : existsb (N.eqb slash) (a ++ slash :: f) = true.
Proof.
  apply existsb_exists. exists slash. split; [|apply N.eqb_refl].
  apply in_or_app. right. left. reflexivity.
Qed.

Lemma basename_no_slash f : slash ∉ f -> basename f = f.
Proof.
  destruct f as [|c f]; [reflexivity|]. intros H. cbn [basename].
  rewrite existsb_slash_false by (intros Hin; apply H; right; exact Hin).
  destruct (c =? slash)%N eqn:E; [|reflexivity].
  apply N.eqb_eq in E. subst c. exfalso. apply H. left.
Qed.

Lemma basename_after_slash a f : slash ∉ f -> basename (a ++ slash :: f) = f.
Proof.
  intros H. induction a as [|c a IH].
  - cbn [app basename]. rewrite existsb_slash_false by exact H.
    rewrite N.eqb_refl. reflexivity.
  - change ((c :: a) ++ slash :: f) with (c :: (a ++ slash :: f)).
    cbn [basename]. rewrite existsb_slash_true. exact IH.
Qed.

(** [os.path.basename] undoes [os.path.join] on a name without slash. *)
Lemma basename_path_join a f : slash ∉ f -> basename (path_join a f) = f.
Proof.
  intros H. unfold path_join.
  destruct (startswith [slash] f) eqn:Es.
  { apply startswith_spec in Es as (suf & ->). exfalso. apply H. left. }
  destruct a as [|c a]; [apply basename_no_slash; exact H|].
  cbn [orb]. destruct (endswith [slash] (c :: a)) eqn:Ee.
  - apply endswith_spec in Ee as (pre & ->).
    rewrite <- app_assoc. apply basename_after_slash. exact H.
  - apply basename_after_slash. exact H.
Qed.

(** X19.  In directory mode, for a listing whose names hold no slash: the
    index holds exactly the paths [join(dir, f)] of the names [f] that end
    in [.mp4]; the base name of an indexed path is its name in the listing;
    a listing without duplicates gives an index without duplicates; and
    [__len__] counts the names that end in [.mp4]. *)
Theorem directory_index_entries {C : Collaborators}
    (train_data_dir : pystr) (cfg : config.t) (self : UNetDataset)
    (files : list pystr) :
  config.train_fileslist (config.data cfg) = [] ->
  train_data_dir <> [] ->
  os_listdir train_data_dir = inr files ->
  (forall f, f ∈ files -> slash ∉ f) ->
  __init__ train_data_dir cfg = inr self ->
  (forall p, p ∈ video_paths self <->
     exists f, f ∈ files /\ endswith (py ".mp4") f = true
               /\ p = path_join train_data_dir f)
  /\ (forall p, p ∈ video_paths self ->
        basename p ∈ files
        /\ endswith (py ".mp4") (basename p) = true
        /\ p = path_join train_data_dir (basename p))
  /\ (NoDup files -> NoDup (video_paths self))
  /\ __len__ self
     = Z.of_nat (length (List.filter (endswith (py ".mp4")) files)).
Proof.
  intros Hfl Hd Hls Hns H.
  apply init_inr in H as (Hp & _).
  unfold resolve_paths in Hp. rewrite Hfl in Hp.
  destruct train_data_dir as [|c0 d] eqn:Ed; [congruence|].
  rewrite <- Ed in *. cbn [nonempty] in Hp.
  replace (nonempty train_data_dir) with true in Hp by (rewrite Ed; reflexivity).
  rewrite Hls in Hp. cbn [and_then] in Hp. injection Hp as Hv.
  rewrite scan_dir_filter in Hv.
  assert (Hmem : forall p, p ∈ video_paths self <->
            exists f, f ∈ files /\ endswith (py ".mp4") f = true
                      /\ p = path_join train_data_dir f).
  { intros p. rewrite <- Hv. rewrite list_elem_of_In, in_map_iff. split.
    - intros (f & <- & Hf). apply filter_In in Hf as (Hf & He).
      exists f. rewrite list_elem_of_In. auto.
    - intros (f & Hf & He & ->). exists f. split; [reflexivity|].
      apply filter_In. rewrite <- list_elem_of_In. auto. }
  split; [exact Hmem|]. split; [|split].
  - intros p Hp. apply Hmem in Hp as (f & Hf & He & ->).
    rewrite basename_path_join by (apply Hns; exact Hf). auto.
  - intros Hnd. rewrite <- Hv.
    apply (NoDup_fmap_2_strong (path_join train_data_dir)).
    + intros x y Hx Hy Hxy.
      apply list_elem_of_In, filter_In in Hx as (Hx & _).
      apply list_elem_of_In, filter_In in Hy as (Hy & _).
      apply list_elem_of_In in Hx, Hy.
      rewrite <- (basename_path_join train_data_dir x (Hns x Hx)).
      rewrite <- (basename_path_join train_data_dir y (Hns y Hy)).
      rewrite Hxy. reflexivity.
    + apply NoDup_ListNoDup, List.NoDup_filter, NoDup_ListNoDup. exact Hnd.
  - unfold __len__. rewrite <- Hv, length_map. reflexivity.
Qed.

Lemma directory_index_entries_witness :
  let self :=
    Studio.dataset [Studio.a_mp4; Studio.short_mp4; Studio.bad_mp4] 5 16 true in
  let files := [py "a.mp4"; py "notes.txt"; py "short.mp4"; py "bad.mp4"] in
  (os_listdir (Collaborators := Studio.collaborators) (py "d") = inr files
   /\ __init__ (py "d") (Studio.cfg [] 5 true) = inr self)
  /\ (forall p, p ∈ video_paths self ->
        basename p ∈ files
        /\ endswith (py ".mp4") (basename p) = true
        /\ p = path_join (py "d") (basename p))
  /\ NoDup (video_paths self)
  /\ __len__ self = 3.
Proof.
  intros self files.
  assert (Hls : os_listdir (Collaborators := Studio.collaborators) (py "d")
                = inr files) by reflexivity.
  assert (Hinit : __init__ (py "d") (Studio.cfg [] 5 true) = inr self)
    by (vm_compute; reflexivity).
  split; [auto|].
  destruct (directory_index_entries (C := Studio.collaborators)
              (py "d") (Studio.cfg [] 5 true) self files)
    as (_ & Hbase & Hnd & Hlen).
  - reflexivity.
  - discriminate.
  - exact Hls.
  - intros f Hf. apply (bool_decide_unpack _).
    repeat (apply elem_of_cons in Hf as [->|Hf]; [vm_compute; exact I|]).
    apply elem_of_nil in Hf. contradiction.
  - exact Hinit.
  - split; [exact Hbase|]. split.
    + apply Hnd. apply (bool_decide_unpack _). vm_compute. exact I.
    + rewrite Hlen. vm_compute. reflexivity.
Defined.

(** ** The manifest *)

Lemma rstrip_blank line : forallb isspace line = true -> rstrip line = [].
Proof.
  induction line as [|c line IH]; [reflexivity|]. cbn [forallb rstrip].
  intros H. apply andb_true_iff in H as (Hc & Hl).
  rewrite (IH Hl), Hc. reflexivity.
Qed.

(** X20.  In manifest mode [__len__] is the number of lines of the manifest:
    an empty line or a line of whitespace is kept, as the empty path.  No
    indexed path ends in whitespace, and the directory argument is not
    used. *)
Theorem manifest_blank_lines_are_indexed {C : Collaborators}
    (train_data_dir : pystr) (cfg : config.t) (self : UNetDataset)
    (text : pystr) :
  config.train_fileslist (config.data cfg) <> [] ->
  open_text (config.train_fileslist (config.data cfg)) = inr text ->
  __init__ train_data_dir cfg = inr self ->
  __len__ self = Z.of_nat (length (readlines text))
  /\ (forall i line,
        readlines text !! i = Some line ->
        forallb isspace line = true ->
        video_paths self !! i = Some [])
  /\ (forall p, p ∈ video_paths self -> rstrip p = p)
  /\ (forall other_dir, __init__ other_dir cfg = inr self).
Proof.
  intros Hfl Ht H.
  assert (Hres : forall d, resolve_paths d cfg = inr (map rstrip (readlines text))).
  { intros d. unfold resolve_paths.
    destruct (config.train_fileslist (config.data cfg)) as [|c0 fl] eqn:E;
      [congruence|].
    cbn [nonempty]. rewrite Ht. reflexivity. }
  pose proof H as H0. apply init_inr in H0 as (Hp & _).
  rewrite Hres in Hp. injection Hp as Hv.
  split; [|split; [|split]].
  - unfold __len__. rewrite <- Hv, length_map. reflexivity.
  - intros i line Hi Hb. rewrite <- Hv.
    change (map rstrip (readlines text)) with (rstrip <$> readlines text).
    rewrite list_lookup_fmap, Hi. cbn. rewrite rstrip_blank by exact Hb.
    reflexivity.
  - intros p Hin. rewrite <- Hv in Hin.
    apply list_elem_of_In, in_map_iff in Hin as (line & <- & _).
    apply rstrip_idempotent.
  - intros d. rewrite <- H. unfold __init__. rewrite !Hres. reflexivity.
Qed.

Lemma manifest_blank_lines_are_indexed_witness :
  exists self : @UNetDataset Flaky.collaborators,
    __init__ [] (Studio.cfg (py "list.txt") 5 false) = inr self
    /\ video_paths self = [Studio.a_mp4; []; []; Studio.a_mp4]
    /\ __len__ self = 4
    /\ __init__ (py "elsewhere") (Studio.cfg (py "list.txt") 5 false)
       = inr self.
Proof.
  eexists. split; [vm_compute; reflexivity|].
  split; [reflexivity|].
  edestruct (manifest_blank_lines_are_indexed (C := Flaky.collaborators)
               [] (Studio.cfg (py "list.txt") 5 false))
    as (Hlen & _ & _ & Hdir).
  - discriminate.
  - vm_compute. reflexivity.
  - vm_compute. reflexivity.
  - split; [rewrite Hlen; vm_compute; reflexivity|].
    apply Hdir.
Defined.

(** ** A pass that meets no failure *)

Section Healthy.
Context {C : Collaborators}.
Variables (self : UNetDataset) (image_processor : ImageProcessor).
Local Abbreviation N := (num_frames self).

Lemma get_frames_returns fuel vr (w : process) k :
  1 <= N -> 3 * N <= vr_len vr ->
  (forall idxs, (forall i, i ∈ idxs -> 0 <= i < vr_len vr) ->
                exists fr, vr_get_batch vr idxs = inr fr) ->
  (k < fuel)%nat ->
  let s := draw_of (N / 2) (vr_len vr - N - N / 2) (rng w 0%nat) in
  too_close self s (draw_of 0 (vr_len vr - N) (rng w (S k))) = false ->
  exists frames wrong w',
    get_frames fuel self vr w = Ret (frames, wrong, s) w'
    /\ cache w' = cache w /\ stdout w' = stdout w.
Proof.
  intros HN HT Hdec Hk s Hacc.
  assert (Hh : 0 <= N / 2 /\ 2 * (N / 2) <= N).
  { split; [apply Z.div_pos; lia|]. apply Z.mul_div_le. lia. }
  assert (Hs : N / 2 <= s <= vr_len vr - N - N / 2)
    by (apply draw_of_range; lia).
  set (w1 := set_rng (fun n => rng w (S n)) w).
  destruct (wrong_window_returns self fuel (vr_len vr) s w1 k
              ltac:(lia) Hk Hacc) as (wfi & w2 & Hw).
  destruct (wrong_window_Ret self _ _ _ _ _ _ Hw) as (ws & Hws & _ & ->).
  destruct (Hdec (arange s (s + N))) as (frames & Hf).
  { intros i Hi. apply elem_of_arange in Hi. lia. }
  destruct (Hdec (arange ws (ws + N))) as (wrong & Hwr).
  { intros i Hi. apply elem_of_arange in Hi. lia. }
  exists frames, wrong, w2.
  pose proof (wrong_window_draws self fuel (vr_len vr) s w1) as Hd.
  unfold post in Hd. rewrite Hw in Hd. destruct Hd as (j & _ & _ & Hc & Ho).
  split; [|split; [rewrite Hc; reflexivity | rewrite Ho; reflexivity]].
  unfold get_frames, sample_windows. unfold bind at 1 2.
  rewrite randint_total by lia. fold s w1.
  unfold bind at 1. rewrite Hw. unfold ret at 1.
  unfold bind, call, ret. rewrite Hf, Hwr. reflexivity.
Qed.
End Healthy.

(** X21.  Progress, audio loading off: when the video drawn first opens with
    at least [3 * N] frames, decodes every window that lies inside it, is
    processed and sought without error, and the negative start drawn at
    round [k] of the rejection loop is accepted, [__getitem__] returns
    (given [k + 2] units of fuel or more) the sample of that video at the
    positive start drawn, with [mel] empty, nothing printed and the cache
    untouched. *)
Theorem getitem_returns_on_healthy_pass {C : Collaborators}
    (self : UNetDataset) (ip : ImageProcessor) (idx : Z) (w : process)
    (p : pystr) (vr : VideoReader) (k fuel : nat) :
  let N := num_frames self in
  let s := draw_of (N / 2) (vr_len vr - N - N / 2) (rng w 1%nat) in
  image_processors self !! worker_id self = Some ip ->
  load_audio_data self = false ->
  1 <= N ->
  video_paths self
    !! Z.to_nat (draw_of 0 (__len__ self - 1) (rng w 0%nat)) = Some p ->
  new_VideoReader p (worker_id self) = inr vr ->
  3 * N <= vr_len vr ->
  (forall idxs, (forall i, i ∈ idxs -> 0 <= i < vr_len vr) ->
                exists fr, vr_get_batch vr idxs = inr fr) ->
  (forall fr, exists r, prepare_masks_and_masked_images ip fr false = inr r) ->
  (forall fr, exists r, process_images ip fr = inr r) ->
  vr_seek vr 0 = inr tt ->
  too_close self s (draw_of 0 (vr_len vr - N) (rng w (2 + k)%nat)) = false ->
  (k + 2 <= fuel)%nat ->
  exists sample w',
    __getitem__ fuel self idx w = Ret sample w'
    /\ Sample.video_path sample = p
    /\ Sample.start_idx sample = s
    /\ Sample.mel sample = Sample.EmptyList
    /\ cache w' = cache w /\ stdout w' = stdout w.
Proof.
  intros N s Hip Ha HN Hp Hvr HT Hdec Hprep Hproc Hseek Hacc Hfuel.
  assert (Hne : video_paths self <> []).
  { intros E. rewrite E in Hp. discriminate. }
  set (a := Activation (Locals idx None None) w).
  set (w1 := set_rng (fun n => rng w (S n)) w).
  destruct (get_frames_returns self (S k) vr w1 k HN HT Hdec ltac:(lia) Hacc)
    as (frames & wrong & w2 & Hgf & Hc & Ho).
  destruct (Hprep frames) as ([[gt masked_gt] mask'] & Hpos).
  assert (Href : exists ref, reference_images self ip wrong = inr ref).
  { unfold reference_images. destruct (bool_decide _).
    - destruct (Hprep wrong) as ([[g mg] m] & ->). cbn. eauto.
    - apply Hproc. }
  destruct Href as (ref & Href).
  set (sample := {| Sample.gt := gt; Sample.masked_gt := masked_gt;
                    Sample.ref := ref; Sample.mel := Sample.EmptyList;
                    Sample.mask := mask'; Sample.video_path := p;
                    Sample.start_idx := s |}).
  assert (Hbody : exists a', try_body (S k) self ip a = Ret (Some sample) a'
                             /\ glob a' = w2).
  { rewrite (try_body_opens self ip (S k) a p Hne Hp), Hvr. subst a.
    replace (vr_len vr <? 3 * num_frames self) with false
      by (symmetry; apply Z.ltb_ge; exact HT).
    eexists. unfold bind at 1. unfold global at 1, zoom. cbn [vars glob].
    fold w1. rewrite Hgf.
    unfold bind at 1. unfold audio_window. rewrite Ha.
    unfold global at 1, zoom, ret at 1. cbn [vars glob].
    unfold bind, call, ret. rewrite Hpos, Href, Hseek.
    split; reflexivity. }
  destruct Hbody as (a' & Hbody & Hg).
  exists sample, w2.
  assert (Hret : __getitem__ (k + 2) self idx w = Ret sample w2).
  { unfold __getitem__. rewrite Hip.
    replace (k + 2)%nat with (S (S k)) by lia. cbn [retry_loop].
    unfold bind, attempt, try_except. fold a. rewrite Hbody.
    cbv beta iota. unfold ret. rewrite Hg. reflexivity. }
  split.
  - rewrite (getitem_extends self (k + 2) fuel idx Hfuel w);
      [exact Hret | rewrite Hret; discriminate].
  - repeat split; [rewrite Hc | rewrite Ho]; reflexivity.
Qed.

Lemma getitem_returns_on_healthy_pass_witness :
  let self := Studio.dataset [Studio.a_mp4] 5 16 false in
  exists sample w',
    __getitem__ 2 self 7 (Studio.fresh [0; 10; 40]) = Ret sample w'
    /\ Sample.video_path sample = Studio.a_mp4
    /\ Sample.start_idx sample = 12
    /\ Sample.mel sample = Sample.EmptyList
    /\ cache w' = ∅ /\ stdout w' = [].
Proof.
  intros self.
  apply (getitem_returns_on_healthy_pass (C := Studio.collaborators)
           self tt 7 (Studio.fresh [0; 10; 40]) Studio.a_mp4 60 0 2).
  - vm_compute. reflexivity.
  - reflexivity.
  - vm_compute. discriminate.
  - vm_compute. reflexivity.
  - vm_compute. reflexivity.
  - vm_compute. discriminate.
  - intros idxs H. exists idxs. cbn. unfold Studio.get_batch.
    replace (forallb _ idxs) with true; [reflexivity|].
    symmetry. apply forallb_forall. intros i Hi.
    apply list_elem_of_In in Hi. specialize (H i Hi). cbn in H.
    apply andb_true_iff. rewrite Z.leb_le, Z.ltb_lt. lia.
  - intros fr. eexists. reflexivity.
  - intros fr. eexists. reflexivity.
  - reflexivity.
  - vm_compute. reflexivity.
  - lia.
Defined.


(** ** Where the cache files lie *)

Lemma basename_slash_free p : slash ∉ basename p.
Proof.
  induction p as [|c p IH]; [apply not_elem_of_nil|]. cbn [basename].
  destruct (existsb (N.eqb slash) p) eqn:E; [exact IH|].
  assert (Hp : slash ∉ p).
  { intros Hin. apply list_elem_of_In in Hin.
    assert (existsb (N.eqb slash) p = true); [|congruence].
    apply existsb_exists. exists slash. split; [exact Hin | apply N.eqb_refl]. }
  destruct (c =? slash)%N eqn:Ec; [exact Hp|].
  apply N.eqb_neq in Ec. intros Hin.
  apply elem_of_cons in Hin as [Hin|Hin]; [congruence | exact (Hp Hin)].
Qed.

Lemma replace_from_slash_free old new k s :
  slash ∉ new -> slash ∉ s -> slash ∉ replace_from old new k s.
Proof.
  intros Hnew. revert k. induction s as [|c s IH]; intros k Hs;
    [apply not_elem_of_nil|].
  assert (Hs' : slash ∉ s) by (intros Hin; apply Hs; right; exact Hin).
  cbn [replace_from]. destruct k as [|k]; [|apply IH; exact Hs'].
  destruct (startswith old (c :: s)).
  - intros Hin. apply elem_of_app in Hin as [Hin|Hin];
      [exact (Hnew Hin) | exact (IH _ Hs' Hin)].
  - intros Hin. apply elem_of_cons in Hin as [Hin|Hin];
      [apply Hs; rewrite <- Hin; left | exact (IH _ Hs' Hin)].
Qed.

(** X22.  The cache file of a video lies directly in the cache directory: its
    name (the base name of the video with [.mp4] replaced) holds no slash,
    the cache path is the directory followed by that name, with a slash
    between them when the directory does not supply one, and the base name
    of the cache path is that name. *)
Theorem cache_file_stays_in_cache_dir {C : Collaborators}
    (self : UNetDataset) (video_path : pystr) :
  let name := replace (py ".mp4") (py "_mel.pt") (basename video_path) in
  (slash ∉ name)
  /\ basename (mel_cache_path self video_path) = name
  /\ (mel_cache_path self video_path = audio_mel_cache_dir self ++ name
      \/ mel_cache_path self video_path
         = audio_mel_cache_dir self ++ slash :: name).
Proof.
  intros name.
  assert (Hn : slash ∉ name).
  { unfold name, replace. apply replace_from_slash_free.
    - apply (bool_decide_unpack _). vm_compute. exact I.
    - apply basename_slash_free. }
  split; [exact Hn|]. split.
  - unfold mel_cache_path. fold name. apply basename_path_join. exact Hn.
  - unfold mel_cache_path. fold name. unfold path_join.
    destruct (startswith [slash] name) eqn:Es.
    { apply startswith_spec in Es as (suf & Es). exfalso. apply Hn.
      rewrite Es. left. }
    destruct (_ || _); auto.
Qed.

Lemma cache_file_stays_in_cache_dir_witness :
  let self := Studio.dataset [py "../up/a.mp4"] 5 16 true in
  mel_cache_path self (py "../up/a.mp4") = py "cache/a_mel.pt"
  /\ basename (mel_cache_path self (py "../up/a.mp4")) = py "a_mel.pt".
Proof.
  intros self. split; [vm_compute; reflexivity|].
  rewrite (proj1 (proj2 (cache_file_stays_in_cache_dir
                           (C := Studio.collaborators) self (py "../up/a.mp4")))).
  vm_compute. reflexivity.
Defined.
